(** * bplib flash store: a shallow embedding of [store/flash.c]

    The flash-backed queue engine of bplib is embedded function by function:
    the free/bad block lists threaded through the block control array, the
    page-level reader and writer, the object framing layer and the public
    queue API.  The flash driver is an external collaborator; it is a record
    of state transformers over an abstract device, so every theorem holds for
    every driver unless it names the laws it needs. *)

From Stdlib Require Import ZArith List Bool Lia FinFun.
Import ListNotations.
Open Scope Z_scope.

Set Implicit Arguments.

(** ** Status codes, indices and addresses

    [bplib.h] and [bplib_store_flash.h] are not part of the sources at hand.
    The status codes are the ones [flash.c] names; [bplog] returns the status
    it is given.  [bp_flash_index_t] is taken as an unsigned 16-bit integer and
    [BP_FLASH_INVALID_INDEX] as its largest value. *)

Inductive bp_status : Type :=
| BP_SUCCESS
| BP_ERROR
| BP_TIMEOUT
| BP_FAILEDSTORE
| BP_STOREFULL
| BP_FAILEDOS
| BP_FAILEDMEM
| BP_INVALID_HANDLE.

Definition bp_status_eqb (a b : bp_status) : bool :=
  match a, b with
  | BP_SUCCESS, BP_SUCCESS | BP_ERROR, BP_ERROR | BP_TIMEOUT, BP_TIMEOUT
  | BP_FAILEDSTORE, BP_FAILEDSTORE | BP_STOREFULL, BP_STOREFULL
  | BP_FAILEDOS, BP_FAILEDOS | BP_FAILEDMEM, BP_FAILEDMEM
  | BP_INVALID_HANDLE, BP_INVALID_HANDLE => true
  | _, _ => false
  end.

Definition is_success (st : bp_status) : bool := bp_status_eqb st BP_SUCCESS.

Definition index_modulus : Z := 65536.
Definition BP_FLASH_INVALID_INDEX : Z := 65535.

(** Storing a value into a [bp_flash_index_t]. *)
Definition to_index (v : Z) : Z := v mod index_modulus.

Definition ulong_modulus : Z := 2 ^ 64.

Record bp_flash_addr_t : Type := mk_addr { block : Z; page : Z }.

Definition addr_eqb (a b : bp_flash_addr_t) : bool :=
  (block a =? block b) && (page a =? page b).

(** ** The flash driver

    [D] is the state of the device behind the driver.  A page read returns
    the status, the bytes the driver placed in the caller's buffer and the
    device afterwards; a page write and a block erase return the status and
    the device afterwards.  [phyblk] only feeds log messages and is left
    out. *)

Record bp_flash_driver_t (D : Type) : Type := mk_driver {
  num_blocks : Z;
  pages_per_block : Z;
  page_size : Z;
  read : bp_flash_addr_t -> Z -> D -> bp_status * list Z * D;
  write : bp_flash_addr_t -> list Z -> D -> bp_status * D;
  erase : Z -> D -> bp_status * D;
  isbad : Z -> D -> bool
}.

(** ** Block control records and block lists *)

Record flash_block_control_t : Type := mk_block {
  next_block : Z;
  prev_block : Z;
  max_pages : Z;
  page_use : Z -> Z          (* byte index -> byte of the page-use bitmap *)
}.

Record flash_block_list_t : Type := mk_list {
  out : Z;
  in_ : Z;
  count : Z
}.

(** Updating one cell of an array indexed by [Z]. *)
Definition upd {A : Type} (f : Z -> A) (k : Z) (v : A) : Z -> A :=
  fun x => if x =? k then v else f x.

Definition set_next_block (c : flash_block_control_t) (v : Z) :=
  mk_block v (prev_block c) (max_pages c) (page_use c).
Definition set_prev_block (c : flash_block_control_t) (v : Z) :=
  mk_block (next_block c) v (max_pages c) (page_use c).
Definition set_max_pages (c : flash_block_control_t) (v : Z) :=
  mk_block (next_block c) (prev_block c) v (page_use c).
Definition set_page_use (c : flash_block_control_t) (v : Z -> Z) :=
  mk_block (next_block c) (prev_block c) (max_pages c) v.

(** The file-level globals below the store table. *)
Record flash_globals (D : Type) : Type := mk_globals {
  dev : D;
  flash_blocks : Z -> flash_block_control_t;
  flash_free_blocks : flash_block_list_t;
  flash_bad_blocks : flash_block_list_t;
  flash_error_count : Z;
  flash_used_block_count : Z
}.

Arguments mk_globals {D} _ _ _ _ _ _.
Arguments dev {D} _.
Arguments flash_blocks {D} _.
Arguments flash_free_blocks {D} _.
Arguments flash_bad_blocks {D} _.
Arguments flash_error_count {D} _.
Arguments flash_used_block_count {D} _.

Definition set_dev {D : Type} (g : flash_globals D) (d : D) : flash_globals D :=
  mk_globals d (flash_blocks g) (flash_free_blocks g) (flash_bad_blocks g)
             (flash_error_count g) (flash_used_block_count g).
Definition set_blocks {D : Type} (g : flash_globals D)
    (b : Z -> flash_block_control_t) : flash_globals D :=
  mk_globals (dev g) b (flash_free_blocks g) (flash_bad_blocks g)
             (flash_error_count g) (flash_used_block_count g).
Definition set_error_count {D : Type} (g : flash_globals D) (n : Z) : flash_globals D :=
  mk_globals (dev g) (flash_blocks g) (flash_free_blocks g) (flash_bad_blocks g)
             n (flash_used_block_count g).

(** Byte buffers: [slice data off len] is the [len] bytes at [&data[off]];
    [poke buf off bytes] copies [bytes] to [&buf[off]]. *)
Definition slice (data : list Z) (off len : Z) : list Z :=
  firstn (Z.to_nat len) (skipn (Z.to_nat off) data).

Definition poke (buf : list Z) (off : Z) (bytes : list Z) : list Z :=
  firstn (Z.to_nat off) buf ++ bytes ++ skipn (Z.to_nat off + length bytes) buf.

(** [flash_block_list_add]: the list is passed by pointer, so the updated
    list is returned next to the updated block array. *)
Definition flash_block_list_add (list : flash_block_list_t)
    (blocks : Z -> flash_block_control_t) (b : Z)
  : flash_block_list_t * (Z -> flash_block_control_t) :=
  let '(out1, blocks1) :=
    if out list =? BP_FLASH_INVALID_INDEX
    then (b, blocks)
    else (out list, upd blocks (in_ list) (set_next_block (blocks (in_ list)) b)) in
  let blocks2 := upd blocks1 b (set_prev_block (blocks1 b) (in_ list)) in
  (mk_list out1 b (count list + 1), blocks2).

(** ** Object headers and stores

    [flash_object_hdr_t] is [sync], [timestamp] and a [bp_object_t]. *)

Definition FLASH_OBJECT_SYNC : Z := 0x425020464C415348.

Record bp_object_t : Type := mk_object {
  handle : Z;
  size : Z;
  sid : Z
}.

Record flash_object_hdr_t : Type := mk_hdr {
  sync : Z;
  timestamp : Z;
  object : bp_object_t
}.

(** Little-endian bytes of an integer field and back. *)
Fixpoint le_bytes (n : nat) (v : Z) : list Z :=
  match n with
  | O => []
  | S n' => (v mod 256) :: le_bytes n' (v / 256)
  end.

Fixpoint le_value (l : list Z) : Z :=
  match l with
  | [] => 0
  | b :: l' => b + 256 * le_value l'
  end.

(** Reading a 32-bit field as an [int]; converting a value to [int]. *)
Definition to_signed32 (v : Z) : Z :=
  if v <? 2 ^ 31 then v else v - 2 ^ 32.

Definition to_int (v : Z) : Z := to_signed32 (v mod 2 ^ 32).

Definition to_ulong (v : Z) : Z := v mod ulong_modulus.

(** Modelled from the spec: the declaration of [bp_object_t] is in [bplib.h],
    which is missing here.  The header image is the one of the spec's section
    on external interfaces: [sync] in bytes 0..7, [timestamp] in bytes 8..15,
    [handle] in bytes 16..19, [size] in bytes 20..23 and the [sid] from byte
    24 on, little-endian, with a pointer-sized [sid] of 8 bytes; the payload
    follows the header.  [handle] and [size] are [int]s, as the values
    [flash_object_write] stores in them. *)
Definition hdr_size : Z := 32.

Definition encode_hdr (h : flash_object_hdr_t) : list Z :=
  le_bytes 8 (sync h) ++ le_bytes 8 (timestamp h)
  ++ le_bytes 4 (handle (object h)) ++ le_bytes 4 (size (object h))
  ++ le_bytes 8 (sid (object h)).

Definition decode_hdr (buf : list Z) : flash_object_hdr_t :=
  mk_hdr (le_value (slice buf 0 8)) (le_value (slice buf 8 8))
         (mk_object (to_signed32 (le_value (slice buf 16 4)))
                    (to_signed32 (le_value (slice buf 20 4)))
                    (le_value (slice buf 24 8))).

(** The bytes of the flexible [data] member behind a header held in [buf]. *)
Definition object_data (buf : list Z) : list Z :=
  slice buf hdr_size (size (object (decode_hdr buf))).

Record bp_flash_attr_t : Type := mk_attr { max_data_size : Z }.

Record flash_store_t : Type := mk_store {
  in_use : bool;
  attributes : bp_flash_attr_t;
  write_addr : bp_flash_addr_t;
  read_addr : bp_flash_addr_t;
  write_stage : list Z;
  read_stage : list Z;
  stage_locked : bool;
  object_count : Z
}.

Definition set_write_addr (fs : flash_store_t) (a : bp_flash_addr_t) :=
  mk_store (in_use fs) (attributes fs) a (read_addr fs) (write_stage fs)
           (read_stage fs) (stage_locked fs) (object_count fs).
Definition set_read_addr (fs : flash_store_t) (a : bp_flash_addr_t) :=
  mk_store (in_use fs) (attributes fs) (write_addr fs) a (write_stage fs)
           (read_stage fs) (stage_locked fs) (object_count fs).
Definition set_write_stage (fs : flash_store_t) (b : list Z) :=
  mk_store (in_use fs) (attributes fs) (write_addr fs) (read_addr fs) b
           (read_stage fs) (stage_locked fs) (object_count fs).
Definition set_read_stage (fs : flash_store_t) (b : list Z) :=
  mk_store (in_use fs) (attributes fs) (write_addr fs) (read_addr fs)
           (write_stage fs) b (stage_locked fs) (object_count fs).
Definition set_stage_locked (fs : flash_store_t) (l : bool) :=
  mk_store (in_use fs) (attributes fs) (write_addr fs) (read_addr fs)
           (write_stage fs) (read_stage fs) l (object_count fs).
Definition set_object_count (fs : flash_store_t) (n : Z) :=
  mk_store (in_use fs) (attributes fs) (write_addr fs) (read_addr fs)
           (write_stage fs) (read_stage fs) (stage_locked fs) n.

(** [memcpy (&stage[off], data, n)], skipped for a null [data]. *)
Definition memcpy_opt (stage : list Z) (off : Z) (data : option (list Z)) (n : Z)
  : list Z :=
  match data with
  | Some d => poke stage off (slice d 0 n)
  | None => stage
  end.

Section Flash.

Variable D : Type.
Variable FLASH_DRIVER : bp_flash_driver_t D.

Local Abbreviation globals := (flash_globals D).

(** ** Block level *)

Definition flash_free_reclaim (b : Z) (g : globals) : bp_status * globals :=
  let fresh :=
    mk_block BP_FLASH_INVALID_INDEX BP_FLASH_INVALID_INDEX
             (pages_per_block FLASH_DRIVER) (fun _ => 255) in
  let blocks1 := upd (flash_blocks g) b fresh in
  let used1 := flash_used_block_count g - 1 in
  if negb (isbad FLASH_DRIVER b (dev g)) then
    let '(l, blocks2) := flash_block_list_add (flash_free_blocks g) blocks1 b in
    (BP_SUCCESS,
     mk_globals (dev g) blocks2 l (flash_bad_blocks g) (flash_error_count g) used1)
  else
    let '(l, blocks2) := flash_block_list_add (flash_bad_blocks g) blocks1 b in
    (BP_ERROR,
     mk_globals (dev g) blocks2 (flash_free_blocks g) l (flash_error_count g) used1).

(** One pass of the erase loop of [flash_free_allocate] on the block at the
    head of the free list. *)
Definition flash_free_allocate_body (blk : Z) (g : globals)
  : bp_status * Z * globals :=
  let cand := out (flash_free_blocks g) in
  let '(status, dev1) := erase FLASH_DRIVER cand (dev g) in
  let '(blk1, g1) :=
    if is_success status then
      (cand,
       mk_globals dev1 (flash_blocks g) (flash_free_blocks g) (flash_bad_blocks g)
                  (flash_error_count g) (flash_used_block_count g + 1))
    else
      let '(l, blocks1) :=
        flash_block_list_add (flash_bad_blocks g) (flash_blocks g) cand in
      (blk,
       mk_globals dev1 blocks1 (flash_free_blocks g) l
                  (flash_error_count g + 1) (flash_used_block_count g)) in
  let free1 := flash_free_blocks g1 in
  let free2 :=
    mk_list (next_block (flash_blocks g1 (out free1))) (in_ free1) (count free1 - 1) in
  (status, blk1,
   mk_globals (dev g1) (flash_blocks g1) free2 (flash_bad_blocks g1)
              (flash_error_count g1) (flash_used_block_count g1)).

(** The [while] loop of [flash_free_allocate]; [None] when the fuel runs
    out.  [blk] is the caller's variable behind the [block] pointer. *)
Fixpoint flash_free_allocate_loop (fuel : nat) (status : bp_status) (blk : Z)
    (g : globals) : option (bp_status * Z * globals) :=
  if negb (is_success status)
     && negb (out (flash_free_blocks g) =? BP_FLASH_INVALID_INDEX)
  then
    match fuel with
    | O => None
    | S fuel' =>
        let '(status1, blk1, g1) := flash_free_allocate_body blk g in
        flash_free_allocate_loop fuel' status1 blk1 g1
    end
  else Some (status, blk, g).

Definition flash_free_allocate (fuel : nat) (blk : Z) (g : globals)
  : option (bp_status * Z * globals) :=
  flash_free_allocate_loop fuel BP_FAILEDSTORE blk g.

(** The address check that opens [flash_data_write], [flash_data_read] and
    [flash_object_delete].  The source tests the page against the control
    entry of the block first and the block against the device second, so
    the control array is read at [block addr] whatever the block is: the
    check stands for the source on the blocks of the device only, where
    that read is inside the array. *)
Definition addr_invalid (addr : bp_flash_addr_t) (g : globals) : bool :=
  (page addr >=? max_pages (flash_blocks g (block addr)))
  || (block addr >=? num_blocks FLASH_DRIVER).

Definition bytes_to_copy (bytes_left : Z) : Z :=
  if bytes_left <? page_size FLASH_DRIVER then bytes_left else page_size FLASH_DRIVER.

(** The [while] loop of [flash_data_write].  A local [next_write_block] has no
    initial value in the source; the invalid index stands for it. *)
Fixpoint flash_data_write_loop (fuel : nat) (addr : bp_flash_addr_t)
    (data : list Z) (data_index bytes_left : Z) (g : globals)
  : option (bp_status * bp_flash_addr_t * globals) :=
  if bytes_left >? 0 then
    match fuel with
    | O => None
    | S fuel' =>
        let n := bytes_to_copy bytes_left in
        let '(status, dev1) :=
          write FLASH_DRIVER addr (slice data data_index n) (dev g) in
        let g1 := set_dev g dev1 in
        if is_success status then
          let data_index1 := data_index + n in
          let bytes_left1 := bytes_left - n in
          let addr1 := mk_addr (block addr) (to_index (page addr + 1)) in
          if page addr1 =? max_pages (flash_blocks g1 (block addr1)) then
            match flash_free_allocate fuel' BP_FLASH_INVALID_INDEX g1 with
            | None => None
            | Some (status2, next_write_block, g2) =>
                if is_success status2 then
                  let blocks1 :=
                    upd (flash_blocks g2) (block addr1)
                        (set_next_block (flash_blocks g2 (block addr1)) next_write_block) in
                  let blocks2 :=
                    upd blocks1 next_write_block
                        (set_prev_block (blocks1 next_write_block) (block addr1)) in
                  flash_data_write_loop fuel' (mk_addr next_write_block 0)
                                        data data_index1 bytes_left1
                                        (set_blocks g2 blocks2)
                else Some (status2, addr1, g2)
            end
          else flash_data_write_loop fuel' addr1 data data_index1 bytes_left1 g1
        else
          let g2 := set_error_count g1 (flash_error_count g1 + 1) in
          let g3 :=
            if page addr >? 0 then
              set_blocks g2 (upd (flash_blocks g2) (block addr)
                                 (set_max_pages (flash_blocks g2 (block addr)) (page addr)))
            else snd (flash_free_reclaim (block addr) g2) in
          match flash_free_allocate fuel' BP_FLASH_INVALID_INDEX g3 with
          | None => None
          | Some (status2, next_write_block, g4) =>
              if is_success status2 then
                let prev_write_block := prev_block (flash_blocks g4 (block addr)) in
                let blocks1 :=
                  if negb (prev_write_block =? BP_FLASH_INVALID_INDEX)
                  then upd (flash_blocks g4) prev_write_block
                           (set_next_block (flash_blocks g4 prev_write_block)
                                           next_write_block)
                  else flash_blocks g4 in
                let blocks2 :=
                  upd blocks1 next_write_block
                      (set_prev_block (blocks1 next_write_block) prev_write_block) in
                flash_data_write_loop fuel' (mk_addr next_write_block 0)
                                      data data_index bytes_left
                                      (set_blocks g4 blocks2)
              else Some (status2, addr, g4)
          end
    end
  else Some (BP_SUCCESS, addr, g).

Definition flash_data_write (fuel : nat) (addr : bp_flash_addr_t)
    (data : list Z) (size : Z) (g : globals)
  : option (bp_status * bp_flash_addr_t * globals) :=
  if addr_invalid addr g then Some (BP_FAILEDSTORE, addr, g)
  else flash_data_write_loop fuel addr data 0 size g.

(** The [while] loop of [flash_data_read].  The buffer behind [data] is
    returned with the bytes the driver placed in it. *)
Fixpoint flash_data_read_loop (fuel : nat) (addr : bp_flash_addr_t)
    (data : list Z) (data_index bytes_left : Z) (g : globals)
  : option (bp_status * bp_flash_addr_t * list Z * globals) :=
  if bytes_left >? 0 then
    match fuel with
    | O => None
    | S fuel' =>
        let n := bytes_to_copy bytes_left in
        let '(status, bytes, dev1) := read FLASH_DRIVER addr n (dev g) in
        let g1 := set_dev g dev1 in
        let data1 := poke data data_index bytes in
        if is_success status then
          let addr1 := mk_addr (block addr) (to_index (page addr + 1)) in
          if page addr1 =? max_pages (flash_blocks g1 (block addr1)) then
            let next_read_block := next_block (flash_blocks g1 (block addr1)) in
            if next_read_block =? BP_FLASH_INVALID_INDEX
            then Some (BP_FAILEDSTORE, addr1, data1, g1)
            else flash_data_read_loop fuel' (mk_addr next_read_block 0)
                                      data1 (data_index + n) (bytes_left - n) g1
          else flash_data_read_loop fuel' addr1 data1 (data_index + n)
                                    (bytes_left - n) g1
        else
          Some (status, addr, data1,
                set_error_count g1 (flash_error_count g1 + 1))
    end
  else Some (BP_SUCCESS, addr, data, g).

Definition flash_data_read (fuel : nat) (addr : bp_flash_addr_t)
    (data : list Z) (data_off size : Z) (g : globals)
  : option (bp_status * bp_flash_addr_t * list Z * globals) :=
  if addr_invalid addr g then Some (BP_FAILEDSTORE, addr, data, g)
  else flash_data_read_loop fuel addr data data_off size g.

(** ** Object level *)

(** The macros that go between addresses and storage identifiers.
    [FLASH_GET_SID] works on promoted [int]s; the other two on the
    [unsigned long] they are given. *)
Definition FLASH_GET_SID (addr : bp_flash_addr_t) : Z :=
  block addr * pages_per_block FLASH_DRIVER + page addr + 1.

Definition FLASH_GET_BLOCK (osid : Z) : Z :=
  to_ulong (osid - 1) / pages_per_block FLASH_DRIVER.

Definition FLASH_GET_PAGE (osid : Z) : Z :=
  to_ulong (osid - 1) mod pages_per_block FLASH_DRIVER.

(** The address initialised from a [sid], as [flash_object_delete] and
    [bplib_store_flash_retrieve] do. *)
Definition sid_addr (osid : Z) : bp_flash_addr_t :=
  mk_addr (to_index (FLASH_GET_BLOCK (to_ulong osid)))
          (to_index (FLASH_GET_PAGE (to_ulong osid))).

(** [flash_object_write]; [sysnow] is what [bplib_os_systime] answers. *)
Definition flash_object_write (fuel : nat) (fs : flash_store_t) (hdl : Z)
    (data1 : option (list Z)) (data1_size : Z)
    (data2 : option (list Z)) (data2_size : Z) (sysnow : Z) (g : globals)
  : option (bp_status * flash_store_t * globals) :=
  let bytes_available :=
    to_ulong (to_ulong (to_ulong (count (flash_free_blocks g))
                        * to_ulong (pages_per_block FLASH_DRIVER))
              * to_ulong (page_size FLASH_DRIVER)) in
  let bytes_needed := to_int (to_ulong (hdr_size + data1_size + data2_size)) in
  if (bytes_available >=? to_ulong bytes_needed)
     && (max_data_size (attributes fs) >=? bytes_needed)
  then
    let osid := to_ulong (FLASH_GET_SID (write_addr fs)) in
    let object_hdr :=
      mk_hdr FLASH_OBJECT_SYNC (to_ulong sysnow)
             (mk_object hdl (to_int (data1_size + data2_size)) osid) in
    let stage1 := poke (write_stage fs) 0 (encode_hdr object_hdr) in
    let stage2 := memcpy_opt stage1 hdr_size data1 data1_size in
    let stage3 := memcpy_opt stage2 (hdr_size + data1_size) data2 data2_size in
    match flash_data_write fuel (write_addr fs) stage3 bytes_needed g with
    | None => None
    | Some (status, addr1, g1) =>
        Some (status, set_write_addr (set_write_stage fs stage3) addr1, g1)
    end
  else Some (BP_STOREFULL, fs, g).

(** [flash_object_read]; the object pointer handed back is the view of the
    read stage: its header fields and the payload bytes behind them. *)
Definition flash_object_read (fuel : nat) (fs : flash_store_t) (hdl : Z)
    (addr : bp_flash_addr_t) (g : globals)
  : option (bp_status * bp_flash_addr_t * option (bp_object_t * list Z)
            * flash_store_t * globals) :=
  if negb (stage_locked fs) then
    match flash_data_read fuel addr (read_stage fs) 0 (page_size FLASH_DRIVER) g with
    | None => None
    | Some (status, addr1, stage1, g1) =>
        let object_hdr := decode_hdr stage1 in
        let rest :=
          if is_success status then
            if (size (object object_hdr) <=? max_data_size (attributes fs))
               && (handle (object object_hdr) =? hdl)
               && (sync object_hdr =? FLASH_OBJECT_SYNC)
            then
              let bytes_read := to_int (to_ulong (page_size FLASH_DRIVER - hdr_size)) in
              let remaining_bytes := size (object object_hdr) - bytes_read in
              if remaining_bytes >? 0 then
                flash_data_read fuel addr1 stage1 (page_size FLASH_DRIVER)
                                remaining_bytes g1
              else Some (status, addr1, stage1, g1)
            else Some (BP_FAILEDSTORE, addr1, stage1, g1)
          else Some (status, addr1, stage1, g1) in
        match rest with
        | None => None
        | Some (status2, addr2, stage2, g2) =>
            let fs2 := set_read_stage fs stage2 in
            if is_success status2 then
              Some (status2, addr2,
                    Some (object (decode_hdr stage2), object_data stage2),
                    set_stage_locked fs2 true, g2)
            else Some (status2, addr2, None, fs2, g2)
        end
    end
  else Some (BP_FAILEDSTORE, addr, None, fs, g).

(** [flash_object_scan]; the header is read into a local buffer. *)
Fixpoint flash_object_scan_loop (fuel : nat) (status : bp_status)
    (addr : bp_flash_addr_t) (g : globals)
  : option (bp_status * bp_flash_addr_t * globals) :=
  if negb (block addr =? BP_FLASH_INVALID_INDEX) && negb (is_success status) then
    match fuel with
    | O => None
    | S fuel' =>
        match flash_data_read fuel' addr (repeat 0 (Z.to_nat hdr_size)) 0 hdr_size g with
        | None => None
        | Some (read_status, addr1, buf, g1) =>
            if is_success read_status && (sync (decode_hdr buf) =? FLASH_OBJECT_SYNC)
            then flash_object_scan_loop fuel' BP_SUCCESS addr1 g1
            else
              let addr2 := mk_addr (block addr1) (to_index (page addr1 + 1)) in
              let addr3 :=
                if page addr2 =? max_pages (flash_blocks g1 (block addr2))
                then mk_addr (next_block (flash_blocks g1 (block addr2))) 0
                else addr2 in
              flash_object_scan_loop fuel' status addr3 g1
        end
    end
  else Some (status, addr, g).

Definition flash_object_scan (fuel : nat) (addr : bp_flash_addr_t) (g : globals)
  : option (bp_status * bp_flash_addr_t * globals) :=
  flash_object_scan_loop fuel BP_ERROR addr g.

(** The two nested [for] loops of [flash_object_delete] that count the
    clear bits of a block's page-use bitmap. *)
Definition count_free_pages (c : flash_block_control_t) : Z :=
  fold_left
    (fun acc byte_index =>
       fold_left
         (fun acc' bit_index =>
            if Z.land (page_use c byte_index) (Z.shiftr 128 bit_index) =? 0
            then acc' + 1 else acc')
         (map Z.of_nat (seq 0 8)) acc)
    (map Z.of_nat (seq 0 (Z.to_nat (pages_per_block FLASH_DRIVER / 8)))) 0.

(** Marking the page of [addr] deleted; the flag says whether its bit was
    still set. *)
Definition mark_deleted (addr : bp_flash_addr_t) (g : globals) : bool * globals :=
  let byte_offset := page addr / 8 in
  let bit_offset := page addr mod 8 in
  let bit_byte := Z.shiftr 128 bit_offset in
  let c := flash_blocks g (block addr) in
  if negb (Z.land (page_use c byte_offset) bit_byte =? 0) then
    (true,
     set_blocks g
       (upd (flash_blocks g) (block addr)
            (set_page_use c
               (upd (page_use c) byte_offset
                    (Z.land (page_use c byte_offset) (255 - bit_byte))))))
  else (false, g).

(** The [while] loop of [flash_object_delete]. *)
Fixpoint flash_object_delete_loop (fuel : nat) (addr : bp_flash_addr_t)
    (current_block current_block_free_pages bytes_left : Z) (g : globals)
  : option (bp_status * globals) :=
  if bytes_left >? 0 then
    match fuel with
    | O => None
    | S fuel' =>
        let '(current_block1, free1) :=
          if negb (current_block =? block addr)
          then (block addr, count_free_pages (flash_blocks g (block addr)))
          else (current_block, current_block_free_pages) in
        let '(was_set, g1) := mark_deleted addr g in
        let free2 := if was_set then free1 + 1 else free1 in
        let bytes_left1 := bytes_left - bytes_to_copy bytes_left in
        let addr1 := mk_addr (block addr) (to_index (page addr + 1)) in
        let next_delete_block := next_block (flash_blocks g1 (block addr1)) in
        let at_end := page addr1 =? max_pages (flash_blocks g1 (block addr1)) in
        if at_end && (next_delete_block =? BP_FLASH_INVALID_INDEX)
        then Some (BP_FAILEDSTORE, g1)
        else
          let addr2 := if at_end then mk_addr next_delete_block 0 else addr1 in
          if free2 >=? max_pages (flash_blocks g1 current_block1) then
            if negb (bytes_left1 =? 0) then Some (BP_FAILEDSTORE, g1)
            else
              let prev := prev_block (flash_blocks g1 current_block1) in
              let next := next_block (flash_blocks g1 current_block1) in
              let blocks1 :=
                if negb (prev =? BP_FLASH_INVALID_INDEX)
                then upd (flash_blocks g1) prev
                         (set_next_block (flash_blocks g1 prev) next)
                else flash_blocks g1 in
              let blocks2 :=
                if negb (next =? BP_FLASH_INVALID_INDEX)
                then upd blocks1 next (set_prev_block (blocks1 next) prev)
                else blocks1 in
              let g2 := snd (flash_free_reclaim current_block1 (set_blocks g1 blocks2)) in
              flash_object_delete_loop fuel' addr2 current_block1 free2 bytes_left1 g2
          else
            flash_object_delete_loop fuel' addr2 current_block1 free2 bytes_left1 g1
    end
  else Some (BP_SUCCESS, g).

Definition flash_object_delete (fuel : nat) (osid : Z) (g : globals)
  : option (bp_status * globals) :=
  let addr := sid_addr osid in
  if addr_invalid addr g then Some (BP_FAILEDSTORE, g)
  else
    match flash_data_read fuel addr (repeat 0 (Z.to_nat hdr_size)) 0 hdr_size g with
    | None => None
    | Some (status, _, buf, g1) =>
        if negb (is_success status) then Some (status, g1)
        else if negb (sid (object (decode_hdr buf)) =? osid)
        then Some (BP_FAILEDSTORE, g1)
        else
          flash_object_delete_loop fuel addr BP_FLASH_INVALID_INDEX 0
                                   (size (object (decode_hdr buf))) g1
    end.

(** ** Exported functions

    The store table sits next to the globals.  The device lock is not
    modelled, nor are the [assert]s on the handle, which are preconditions
    of the calls; the [timeout] arguments are ignored by the source and left
    out. *)

Record flash_state : Type := mk_state {
  glob : globals;
  flash_stores : Z -> flash_store_t
}.

Definition FLASH_MAX_STORES : Z := 16.

Inductive init_mode_t : Type :=
| BP_FLASH_INIT_FORMAT
| BP_FLASH_INIT_RECOVER.

Definition zero_store : flash_store_t :=
  mk_store false (mk_attr 0) (mk_addr 0 0) (mk_addr 0 0) [] [] false 0.

(** The [for] loop of [bplib_store_flash_init] over the blocks [b], [b+1],
    ..., counting the blocks that are reclaimed as free. *)
Fixpoint format_blocks (n : nat) (b : Z) (reclaimed_blocks : Z) (g : globals)
  : Z * globals :=
  match n with
  | O => (reclaimed_blocks, g)
  | S n' =>
      let '(status, g1) := flash_free_reclaim b g in
      format_blocks n' (to_index (b + 1))
                    (if is_success status then reclaimed_blocks + 1
                     else reclaimed_blocks) g1
  end.

(** [bplib_store_flash_init]: [lock] is what [bplib_os_createlock] answers and
    [mem] the memory [malloc] hands out for the block control array, if any.
    The result is the status of a failure or the number of reclaimed
    blocks. *)
Definition bplib_store_flash_init (init_mode : init_mode_t) (lock : Z)
    (mem : option (Z -> flash_block_control_t)) (s : flash_state)
  : (bp_status + Z) * flash_state :=
  let stores0 := fun _ : Z => zero_store in
  if lock <? 0 then (inl BP_FAILEDOS, mk_state (glob s) stores0)
  else
    let empty := mk_list BP_FLASH_INVALID_INDEX BP_FLASH_INVALID_INDEX 0 in
    let g := glob s in
    match mem with
    | None =>
        (inl BP_FAILEDMEM,
         mk_state (mk_globals (dev g) (flash_blocks g) empty empty
                              (flash_error_count g) (flash_used_block_count g))
                  stores0)
    | Some blocks =>
        let g1 := mk_globals (dev g) blocks empty empty
                             (flash_error_count g) (flash_used_block_count g) in
        let '(reclaimed_blocks, g2) :=
          match init_mode with
          | BP_FLASH_INIT_FORMAT =>
              format_blocks (Z.to_nat (num_blocks FLASH_DRIVER)) 0 0 g1
          | BP_FLASH_INIT_RECOVER => (0, g1)
          end in
        (inr reclaimed_blocks,
         mk_state (mk_globals (dev g2) (flash_blocks g2) (flash_free_blocks g2)
                              (flash_bad_blocks g2) 0 0)
                  stores0)
    end.

(** The first store that is not in use, searching [n] slots from [s]. *)
Fixpoint first_unused (stores : Z -> flash_store_t) (n : nat) (s : Z) : option Z :=
  match n with
  | O => None
  | S n' => if negb (in_use (stores s)) then Some s
            else first_unused stores n' (s + 1)
  end.

(** [bplib_store_flash_create]; [mem] tells whether [malloc] provides the two
    stages, which start zero-filled here. *)
Definition bplib_store_flash_create (parm : option bp_flash_attr_t) (mem : bool)
    (s : flash_state) : (bp_status + Z) * flash_state :=
  match first_unused (flash_stores s) (Z.to_nat FLASH_MAX_STORES) 0 with
  | None => (inl BP_INVALID_HANDLE, s)
  | Some h =>
      let fs := flash_stores s h in
      let bad_attr :=
        match parm with
        | Some attr => max_data_size attr <? page_size FLASH_DRIVER
        | None => false
        end in
      if bad_attr then (inl BP_INVALID_HANDLE, s)
      else
        let size0 :=
          match parm with
          | Some attr => max_data_size attr
          | None => page_size FLASH_DRIVER
          end in
        let size1 := to_int (to_ulong (size0 + hdr_size)) in
        let invalid := mk_addr BP_FLASH_INVALID_INDEX 0 in
        let stage := repeat 0 (Z.to_nat size1) in
        if mem then
          (inr h,
           mk_state (glob s)
             (upd (flash_stores s) h
                  (mk_store true (mk_attr size1) invalid invalid stage stage false 0)))
        else
          (inl BP_INVALID_HANDLE,
           mk_state (glob s)
             (upd (flash_stores s) h
                  (mk_store (in_use fs) (mk_attr size1) invalid invalid [] []
                            false (object_count fs))))
  end.

Definition bplib_store_flash_destroy (hdl : Z) (s : flash_state)
  : bp_status * flash_state :=
  let fs := flash_stores s hdl in
  (BP_SUCCESS,
   mk_state (glob s)
     (upd (flash_stores s) hdl
          (mk_store false (attributes fs) (write_addr fs) (read_addr fs)
                    (write_stage fs) (read_stage fs) (stage_locked fs)
                    (object_count fs)))).

Definition put_store (s : flash_state) (g : globals) (hdl : Z) (fs : flash_store_t)
  : flash_state :=
  mk_state g (upd (flash_stores s) hdl fs).

Definition bplib_store_flash_enqueue (fuel : nat) (hdl : Z)
    (data1 : option (list Z)) (data1_size : Z)
    (data2 : option (list Z)) (data2_size : Z) (sysnow : Z) (s : flash_state)
  : option (bp_status * flash_state) :=
  let fs := flash_stores s hdl in
  let first :=
    if block (write_addr fs) =? BP_FLASH_INVALID_INDEX then
      match flash_free_allocate fuel (block (write_addr fs)) (glob s) with
      | None => None
      | Some (status, blk, g1) =>
          Some (status,
                set_write_addr fs (mk_addr blk (page (write_addr fs))), g1)
      end
    else Some (BP_SUCCESS, fs, glob s) in
  match first with
  | None => None
  | Some (status, fs1, g1) =>
      if negb (is_success status) then Some (BP_FAILEDSTORE, put_store s g1 hdl fs1)
      else
        let fs2 :=
          if block (read_addr fs1) =? BP_FLASH_INVALID_INDEX
          then set_read_addr fs1 (write_addr fs1) else fs1 in
        match flash_object_write fuel fs2 hdl data1 data1_size data2 data2_size
                                 sysnow g1 with
        | None => None
        | Some (status2, fs3, g2) =>
            let fs4 :=
              if is_success status2
              then set_object_count fs3 (object_count fs3 + 1) else fs3 in
            Some (status2, put_store s g2 hdl fs4)
        end
  end.

Definition bplib_store_flash_dequeue (fuel : nat) (hdl : Z) (s : flash_state)
  : option (bp_status * option (bp_object_t * list Z) * flash_state) :=
  let fs := flash_stores s hdl in
  if negb (block (read_addr fs) =? block (write_addr fs))
     || negb (page (read_addr fs) =? page (write_addr fs))
  then
    match flash_object_read fuel fs hdl (read_addr fs) (glob s) with
    | None => None
    | Some (status, addr1, obj, fs1, g1) =>
        let fs2 := set_read_addr fs1 addr1 in
        if negb (is_success status) then
          match flash_object_scan fuel (read_addr fs2) g1 with
          | None => None
          | Some (_, addr2, g2) =>
              Some (status, obj, put_store s g2 hdl (set_read_addr fs2 addr2))
          end
        else Some (status, obj, put_store s g1 hdl fs2)
    end
  else Some (BP_TIMEOUT, None, s).

Definition bplib_store_flash_retrieve (fuel : nat) (hdl : Z) (osid : Z)
    (s : flash_state)
  : option (bp_status * option (bp_object_t * list Z) * flash_state) :=
  let fs := flash_stores s hdl in
  match flash_object_read fuel fs hdl (sid_addr osid) (glob s) with
  | None => None
  | Some (status, _, obj, fs1, g1) => Some (status, obj, put_store s g1 hdl fs1)
  end.

Definition bplib_store_flash_release (hdl : Z) (osid : Z) (s : flash_state)
  : bp_status * flash_state :=
  let fs := flash_stores s hdl in
  let object_hdr := decode_hdr (read_stage fs) in
  if negb (sid (object object_hdr) =? osid) then (BP_FAILEDSTORE, s)
  else (BP_SUCCESS, put_store s (glob s) hdl (set_stage_locked fs false)).

Definition bplib_store_flash_relinquish (fuel : nat) (hdl : Z) (osid : Z)
    (s : flash_state) : option (bp_status * flash_state) :=
  let fs := flash_stores s hdl in
  match flash_object_delete fuel osid (glob s) with
  | None => None
  | Some (status, g1) =>
      Some (status,
            put_store s g1 hdl
              (if is_success status
               then set_object_count fs (object_count fs - 1) else fs))
  end.

Definition bplib_store_flash_getcount (hdl : Z) (s : flash_state) : Z :=
  object_count (flash_stores s hdl).

(** [bplib_store_flash_stats] with a non-null [stats]: the four counters
    (free, used, bad, errors), and the error count reset on request. *)
Definition bplib_store_flash_stats (reset_stats : bool) (s : flash_state)
  : (Z * Z * Z * Z) * flash_state :=
  let g := glob s in
  ((count (flash_free_blocks g), flash_used_block_count g,
    count (flash_bad_blocks g), flash_error_count g),
   if reset_stats then mk_state (set_error_count g 0) (flash_stores s) else s).

(** ** Sequences of calls

    A call of one of the queue functions, or of one of the block-level
    functions the unit test reaches directly, with its arguments. *)
Inductive flash_op : Type :=
| OpAllocate
| OpReclaim (b : Z)
| OpDataWrite (addr : bp_flash_addr_t) (data : list Z) (size : Z)
| OpObjectDelete (osid : Z)
| OpEnqueue (hdl : Z) (data1 : option (list Z)) (data1_size : Z)
            (data2 : option (list Z)) (data2_size : Z) (sysnow : Z)
| OpDequeue (hdl : Z)
| OpRetrieve (hdl : Z) (osid : Z)
| OpRelease (hdl : Z) (osid : Z)
| OpRelinquish (hdl : Z) (osid : Z).

Definition with_glob (s : flash_state) (g : globals) : flash_state :=
  mk_state g (flash_stores s).

(** The status a call returns and the state it leaves. *)
Definition step (fuel : nat) (op : flash_op) (s : flash_state)
  : option (bp_status * flash_state) :=
  match op with
  | OpAllocate =>
      match flash_free_allocate fuel BP_FLASH_INVALID_INDEX (glob s) with
      | None => None
      | Some (status, _, g) => Some (status, with_glob s g)
      end
  | OpReclaim b =>
      let '(status, g) := flash_free_reclaim b (glob s) in
      Some (status, with_glob s g)
  | OpDataWrite addr data sz =>
      match flash_data_write fuel addr data sz (glob s) with
      | None => None
      | Some (status, _, g) => Some (status, with_glob s g)
      end
  | OpObjectDelete osid =>
      match flash_object_delete fuel osid (glob s) with
      | None => None
      | Some (status, g) => Some (status, with_glob s g)
      end
  | OpEnqueue hdl d1 n1 d2 n2 now =>
      bplib_store_flash_enqueue fuel hdl d1 n1 d2 n2 now s
  | OpDequeue hdl =>
      match bplib_store_flash_dequeue fuel hdl s with
      | None => None
      | Some (status, _, s') => Some (status, s')
      end
  | OpRetrieve hdl osid =>
      match bplib_store_flash_retrieve fuel hdl osid s with
      | None => None
      | Some (status, _, s') => Some (status, s')
      end
  | OpRelease hdl osid => Some (bplib_store_flash_release hdl osid s)
  | OpRelinquish hdl osid => bplib_store_flash_relinquish fuel hdl osid s
  end.

(** Running a sequence of calls; the log pairs each call with its status. *)
Fixpoint run (fuel : nat) (ops : list flash_op) (s : flash_state)
  : option (list (flash_op * bp_status) * flash_state) :=
  match ops with
  | [] => Some ([], s)
  | op :: ops' =>
      match step fuel op s with
      | None => None
      | Some (status, s1) =>
          match run fuel ops' s1 with
          | None => None
          | Some (log, s2) => Some ((op, status) :: log, s2)
          end
      end
  end.

(** The successful enqueues and relinquishes of a store in a log. *)
Definition enqueued (hdl : Z) (e : flash_op * bp_status) : bool :=
  match e with
  | (OpEnqueue h _ _ _ _ _, BP_SUCCESS) => h =? hdl
  | _ => false
  end.

Definition relinquished (hdl : Z) (e : flash_op * bp_status) : bool :=
  match e with
  | (OpRelinquish h _, BP_SUCCESS) => h =? hdl
  | _ => false
  end.

Definition count_log (f : flash_op * bp_status -> bool)
    (log : list (flash_op * bp_status)) : Z :=
  Z.of_nat (length (filter f log)).

End Flash.

(** ** Pages along a chain

    Vocabulary for the statements: whether the page-use bit of a page is
    still set, the page that follows a page in the chain of blocks, and the
    [n] consecutive chain pages from an address on. *)

Definition page_in_use (c : flash_block_control_t) (pg : Z) : bool :=
  negb (Z.land (page_use c (pg / 8)) (Z.shiftr 128 (pg mod 8)) =? 0).

Definition chain_next (blocks : Z -> flash_block_control_t) (a : bp_flash_addr_t)
  : bp_flash_addr_t :=
  if page a + 1 =? max_pages (blocks (block a))
  then mk_addr (next_block (blocks (block a))) 0
  else mk_addr (block a) (page a + 1).

Fixpoint chain_pages (blocks : Z -> flash_block_control_t) (n : nat)
    (a : bp_flash_addr_t) : list bp_flash_addr_t :=
  match n with
  | O => []
  | S n' => a :: chain_pages blocks n' (chain_next blocks a)
  end.

(** A page inside its block, whose block has a successor if the page is
    the last one. *)
Definition page_ok (blocks : Z -> flash_block_control_t) (a : bp_flash_addr_t)
  : Prop :=
  0 <= page a < max_pages (blocks (block a))
  /\ max_pages (blocks (block a)) < index_modulus
  /\ (page a + 1 = max_pages (blocks (block a)) ->
      next_block (blocks (block a)) <> BP_FLASH_INVALID_INDEX).

Definition on_pages (l : list bp_flash_addr_t) (b pg : Z) : bool :=
  existsb (addr_eqb (mk_addr b pg)) l.

(** The number of pages that [sz] bytes take. *)
Definition pages_for (page_size sz : Z) : nat :=
  Z.to_nat ((sz + page_size - 1) / page_size).

(** ** A simulated flash device

    A small in-memory device, used to run the store on concrete inputs:
    [sim_mem] holds the page contents and [sim_reads] counts the page reads.
    The faults of a driver are the pages whose write fails ([wfail]), the
    blocks whose erase fails ([efail]) and the blocks reported bad
    ([bad]). *)

Module Sim.

Record sim_dev : Type := mk_sim {
  sim_mem : Z -> Z -> list Z;
  sim_reads : Z
}.

Record sim_faults : Type := mk_faults {
  wfail : Z -> Z -> bool;
  efail : Z -> bool;
  bad : Z -> bool
}.

Definition sim_page_size : Z := 64.

(** A read of more bytes than the page holds fails. *)
Definition sim_read (addr : bp_flash_addr_t) (len : Z) (d : sim_dev)
  : bp_status * list Z * sim_dev :=
  let pg := sim_mem d (block addr) (page addr) in
  if (Z.to_nat len <=? length pg)%nat then
    (BP_SUCCESS, firstn (Z.to_nat len) pg, mk_sim (sim_mem d) (sim_reads d + 1))
  else (BP_ERROR, [], d).

Definition sim_write (f : sim_faults) (addr : bp_flash_addr_t) (bytes : list Z)
    (d : sim_dev) : bp_status * sim_dev :=
  if wfail f (block addr) (page addr) then (BP_ERROR, d)
  else
    let old := sim_mem d (block addr) (page addr) in
    (BP_SUCCESS,
     mk_sim (upd (sim_mem d) (block addr)
                 (upd (sim_mem d (block addr)) (page addr)
                      (bytes ++ skipn (length bytes) old)))
            (sim_reads d)).

Definition sim_erase (f : sim_faults) (b : Z) (d : sim_dev) : bp_status * sim_dev :=
  if efail f b then (BP_ERROR, d)
  else
    (BP_SUCCESS,
     mk_sim (upd (sim_mem d) b (fun _ => repeat 255 (Z.to_nat sim_page_size)))
            (sim_reads d)).

Definition sim_isbad (f : sim_faults) (b : Z) (d : sim_dev) : bool := bad f b.

(** Four blocks of eight pages of 64 bytes, with the faults [f]. *)
Definition sim_driver_of (f : sim_faults) : bp_flash_driver_t sim_dev :=
  mk_driver 4 8 sim_page_size sim_read (sim_write f) (sim_erase f) (sim_isbad f).

Definition no_faults : sim_faults :=
  mk_faults (fun _ _ => false) (fun _ => false) (fun _ => false).

Definition sim_driver : bp_flash_driver_t sim_dev := sim_driver_of no_faults.

Definition sim_blank : sim_dev :=
  mk_sim (fun _ _ => repeat 255 (Z.to_nat sim_page_size)) 0.

Definition raw_block : flash_block_control_t := mk_block 0 0 0 (fun _ => 0).

(** The store before [bplib_store_flash_init]: zeroed statics. *)
Definition boot : flash_state sim_dev :=
  mk_state (mk_globals sim_blank (fun _ => raw_block) (mk_list 0 0 0)
                       (mk_list 0 0 0) 0 0)
           (fun _ => zero_store).

(** The store after a format of the blank device with the faults [f]. *)
Definition formatted (f : sim_faults) : flash_state sim_dev :=
  snd (bplib_store_flash_init (sim_driver_of f) BP_FLASH_INIT_FORMAT 0
                              (Some (fun _ => raw_block)) boot).

(** The formatted store with one store created with the default attributes. *)
Definition ready (f : sim_faults) : flash_state sim_dev :=
  snd (bplib_store_flash_create (sim_driver_of f) None true (formatted f)).

(** Test data as in the unit test: byte [i] is [i mod 255]. *)
Definition payload (n : nat) : list Z :=
  map (fun i => Z.of_nat i mod 255) (seq 0 n).

(** The state a call leaves, or [s] itself when it gives none. *)
Definition state_after {A : Type} (r : option (A * flash_state sim_dev))
    (s : flash_state sim_dev) : flash_state sim_dev :=
  match r with
  | Some (_, s') => s'
  | None => s
  end.

Definition enqueue_payload (d : list Z) (s : flash_state sim_dev)
  : option (bp_status * flash_state sim_dev) :=
  bplib_store_flash_enqueue sim_driver 64 0 (Some d) (Z.of_nat (length d))
                            None 0 7 s.

(** One 50-byte object enqueued on the fresh store, and then dequeued. *)
Definition one_enqueued : flash_state sim_dev :=
  state_after (enqueue_payload (payload 50) (ready no_faults)) (ready no_faults).

Definition one_dequeued : flash_state sim_dev :=
  state_after (bplib_store_flash_dequeue sim_driver 64 0 one_enqueued) one_enqueued.

(** A device whose write fails on page 1 of block 0 and whose block 1 fails
    to erase, and the image of a 100-byte object with SID 1. *)
Definition faulty : sim_faults :=
  mk_faults (fun b p => (b =? 0) && (p =? 1)) (fun b => b =? 1) (fun _ => false).

Definition sample_object : list Z :=
  encode_hdr (mk_hdr FLASH_OBJECT_SYNC 7 (mk_object 0 100 1)) ++ payload 100.

Definition sample_ops : list flash_op :=
  [OpAllocate; OpDataWrite (mk_addr 0 0) sample_object 132; OpObjectDelete 1;
   OpReclaim 2; OpAllocate; OpObjectDelete 17].

(** Queue calls on store 0: three enqueues, the second one too large, and
    reads, a release and relinquishes, one of them with a bad SID. *)
Definition queue_ops : list flash_op :=
  [OpEnqueue 0 (Some (payload 50)) 50 None 0 7;
   OpEnqueue 0 (Some (payload 100)) 100 None 0 8;
   OpEnqueue 0 (Some (payload 20)) 20 None 0 9;
   OpDequeue 0; OpRelease 0 1; OpRelinquish 0 1; OpRelinquish 0 2;
   OpRetrieve 0 3].

(** The globals a block-level call leaves, or [g] itself when it gives none. *)
Definition globals_after {A : Type} (r : option (A * flash_globals sim_dev))
    (g : flash_globals sim_dev) : flash_globals sim_dev :=
  match r with
  | Some (_, g') => g'
  | None => g
  end.

(** The formatted device with its first free block allocated. *)
Definition first_allocated (f : sim_faults) : flash_globals sim_dev :=
  globals_after (flash_free_allocate (sim_driver_of f) 8 BP_FLASH_INVALID_INDEX
                                     (glob (formatted f)))
                (glob (formatted f)).

(** A device whose write fails on page 1 of block 1, and five pages of data:
    page [i] of the data holds the byte [i] throughout. *)
Definition worn : sim_faults :=
  mk_faults (fun b p => (b =? 1) && (p =? 1)) (fun _ => false) (fun _ => false).

Definition five_pages : list Z := map (fun i => Z.of_nat i / 64) (seq 0 320).

(** A 100-byte object with SID 8 written from page 7 of block 0 on: its three
    pages are the last page of block 0 and the first two of block 1. *)
Definition crossing_hdr : list Z :=
  encode_hdr (mk_hdr FLASH_OBJECT_SYNC 7 (mk_object 0 100 8)).

Definition crossing_object : list Z := crossing_hdr ++ payload 100.

Definition crossing : flash_globals sim_dev :=
  globals_after (flash_data_write sim_driver 64 (mk_addr 0 7) crossing_object 132
                                  (first_allocated no_faults))
                (first_allocated no_faults).

(** One object of [n] bytes through the queue of store 0: its enqueue, its
    dequeue and the release of its SID. *)
Definition cycle (n : nat) (osid : Z) : list flash_op :=
  [OpEnqueue 0 (Some (payload n)) (Z.of_nat n) None 0 7; OpDequeue 0;
   OpRelease 0 osid].

(** Four objects through the queue of the fresh store, seven pages in all:
    the queue is empty again, with both cursors on the last page of block 0. *)
Definition drain_ops : list flash_op :=
  cycle 50 1 ++ cycle 50 3 ++ cycle 50 5 ++ cycle 20 7.

Definition drained : flash_state sim_dev :=
  state_after (run sim_driver 64 drain_ops (ready no_faults)) (ready no_faults).

(** The object a dequeue hands back, if any. *)
Definition dequeued (r : option (bp_status * option (bp_object_t * list Z)
                                 * flash_state sim_dev))
  : option (bp_object_t * list Z) :=
  match r with
  | Some (_, obj, _) => obj
  | None => None
  end.

(** A device whose block 1 fails to erase and whose block 2 the driver
    reports bad. *)
Definition marked : sim_faults :=
  mk_faults (fun _ _ => false) (fun b => b =? 1) (fun b => b =? 2).

(** The fresh store and a second one beside it. *)
Definition two_stores : flash_state sim_dev :=
  snd (bplib_store_flash_create sim_driver None true (ready no_faults)).

(** Two objects in the queue of the fresh store, of 50 and of 20 bytes, and
    the state after the dequeue of the first, which holds the read stage. *)
Definition two_queued : flash_state sim_dev :=
  state_after (enqueue_payload (payload 20) one_enqueued) one_enqueued.

Definition first_held : flash_state sim_dev :=
  state_after (bplib_store_flash_dequeue sim_driver 64 0 two_queued) two_queued.

(** A device whose writes to the first page of every block fail. *)
Definition dead : sim_faults :=
  mk_faults (fun _ p => p =? 0) (fun _ => false) (fun _ => false).





(** Two objects through the drained store: the enqueue of 30 + 20 bytes, the
    enqueue of 10 + 5 bytes, the dequeue of the first and its release. *)
Definition enqueue_parts (d1 d2 : list Z) (now : Z) (s : flash_state sim_dev)
  : option (bp_status * flash_state sim_dev) :=
  bplib_store_flash_enqueue sim_driver 64 0 (Some d1) (Z.of_nat (length d1))
                            (Some d2) (Z.of_nat (length d2)) now s.

Definition first_in : flash_state sim_dev :=
  state_after (enqueue_parts (payload 30) (payload 20) 9 drained)
                  drained.

Definition second_in : flash_state sim_dev :=
  state_after (enqueue_parts (payload 10) (payload 5) 10 first_in) first_in.

Definition first_out : flash_state sim_dev :=
  state_after (bplib_store_flash_dequeue sim_driver 64 0 second_in) second_in.

Definition first_released : flash_state sim_dev :=
  snd (bplib_store_flash_release 0
         (to_ulong (FLASH_GET_SID sim_driver (write_addr (flash_stores drained 0))))
         first_out).

(** Four objects of 50 bytes in the queue of the fresh store.  With its
    header each is 82 bytes, two pages: they fill block 0, and the write
    cursor stands at the start of block 1. *)
Definition four_spilling : flash_state sim_dev :=
  state_after
    (run sim_driver 64 (repeat (OpEnqueue 0 (Some (payload 50)) 50 None 0 7) 4)
         (ready no_faults))
    (ready no_faults).

(** The device after an init in recover mode, before any store is created. *)
Definition recover_init : flash_state sim_dev :=
  snd (bplib_store_flash_init sim_driver BP_FLASH_INIT_RECOVER 0
                              (Some (fun _ => raw_block)) boot).

(** The store created after an init in recover mode. *)
Definition recovered : flash_state sim_dev :=
  snd (bplib_store_flash_create sim_driver None true
         (snd (bplib_store_flash_init sim_driver BP_FLASH_INIT_RECOVER 0
                                      (Some (fun _ => raw_block)) boot))).

End Sim.

(** * The device lock *)

(** The calls on the device lock. *)
Inductive lock_event : Type :=
| Lock
| Unlock.

(** * Measures and invariants *)

Section Vocabulary.

Variable D : Type.
Variable drv : bp_flash_driver_t D.

(** The device has a content per page, [content d b p]. *)
Variable content : D -> Z -> Z -> list Z.

(** The blocks the three counters account for. *)
Definition block_total (g : flash_globals D) : Z :=
  count (flash_free_blocks g) + count (flash_bad_blocks g)
  + flash_used_block_count g.

(** What a read leaves alone: the block registry, both lists and the used
    count. *)
Definition same_registry (g g' : flash_globals D) : Prop :=
  flash_blocks g' = flash_blocks g
  /\ flash_free_blocks g' = flash_free_blocks g
  /\ flash_bad_blocks g' = flash_bad_blocks g
  /\ flash_used_block_count g' = flash_used_block_count g.

(** The change a logged call makes to the object count of store [h]. *)
Definition count_delta (h : Z) (e : flash_op * bp_status) : Z :=
  (if enqueued h e then 1 else 0) - (if relinquished h e then 1 else 0).

(** The globals with the successor of block [b] set to [nb]. *)
Definition with_next (g : flash_globals D) (b nb : Z) : flash_globals D :=
  set_blocks g (upd (flash_blocks g) b (set_next_block (flash_blocks g b) nb)).

(** Sums over index lists, for the two counting loops. *)
Fixpoint sum_over (f : Z -> Z) (l : list Z) : Z :=
  match l with
  | [] => 0
  | j :: l' => f j + sum_over f l'
  end.

(** Whether bit [j] of a byte of the bitmap, counted from the top, is clear. *)
Definition bit_zero (v j : Z) : Z :=
  if Z.land v (Z.shiftr 128 j) =? 0 then 1 else 0.

(** The clear bits of one byte of the bitmap. *)
Definition byte_zeros (v : Z) : Z :=
  sum_over (bit_zero v) (map Z.of_nat (seq 0 8)).

(** Two block arrays with the same links and block sizes. *)
Definition same_links (bs bs' : Z -> flash_block_control_t) : Prop :=
  forall b, next_block (bs' b) = next_block (bs b)
            /\ prev_block (bs' b) = prev_block (bs b)
            /\ max_pages (bs' b) = max_pages (bs b).

(** A page read leaves the contents alone and a successful one returns the
    first bytes of the page. *)
Definition read_law : Prop :=
  forall a n d st bytes d',
    read drv a n d = (st, bytes, d') ->
    (forall b q, content d' b q = content d b q)
    /\ (st = BP_SUCCESS -> 0 <= n ->
        bytes = firstn (Z.to_nat n) (content d (block a) (page a))
        /\ length bytes = Z.to_nat n).

(** A successful page write leaves its bytes at the start of the page and
    the other pages alone. *)
Definition write_law : Prop :=
  forall a bytes d d',
    write drv a bytes d = (BP_SUCCESS, d') ->
    firstn (length bytes) (content d' (block a) (page a)) = bytes
    /\ (forall b q, (b <> block a \/ q <> page a) -> content d' b q = content d b q).

(** A block erase leaves the pages of the other blocks alone. *)
Definition erase_law : Prop :=
  forall x d st d',
    erase drv x d = (st, d') ->
    forall b q, b <> x -> content d' b q = content d b q.

(** The address [n] chain pages after [a]. *)
Fixpoint chain_end (bs : Z -> flash_block_control_t) (n : nat) (a : bp_flash_addr_t)
  : bp_flash_addr_t :=
  match n with
  | O => a
  | S n' => chain_end bs n' (chain_next bs a)
  end.

(** The bytes that a read of [left] bytes takes from the [k] chain pages
    from [a] on: a page's worth from each, and the rest from the last. *)
Fixpoint read_pages (k : nat) (cont : Z -> Z -> list Z)
    (bs : Z -> flash_block_control_t) (a : bp_flash_addr_t) (left : Z) : list Z :=
  match k with
  | O => []
  | S k' =>
      firstn (Z.to_nat (bytes_to_copy drv left)) (cont (block a) (page a))
      ++ read_pages k' cont bs (chain_next bs a) (left - bytes_to_copy drv left)
  end.

(** The blocks met from [b] on by following [next_block], up to the invalid
    index. *)
Fixpoint free_chain (bs : Z -> flash_block_control_t) (b : Z) (F : list Z) : Prop :=
  match F with
  | [] => b = BP_FLASH_INVALID_INDEX
  | x :: F' =>
      b = x /\ x <> BP_FLASH_INVALID_INDEX /\ free_chain bs (next_block (bs x)) F'
  end.

(** The last block of the bad list, whose link the next addition rewrites. *)
Definition bad_tail (g : flash_globals D) : option Z :=
  if out (flash_bad_blocks g) =? BP_FLASH_INVALID_INDEX then None
  else Some (in_ (flash_bad_blocks g)).

(** The free list is the chain [F] of distinct blocks of the device, each
    with room for a page; the block [cur] being written and the tail of the
    bad list are not among them. *)
Record registry_ok (g : flash_globals D) (cur : Z) (F : list Z) : Prop := {
  rk_chain : free_chain (flash_blocks g) (out (flash_free_blocks g)) F;
  rk_nodup : NoDup F;
  rk_cur : ~ In cur F;
  rk_bad : forall t, bad_tail g = Some t -> ~ In t F /\ t <> cur;
  rk_geom : forall b, In b F ->
                      0 <= b < num_blocks drv /\ 0 < max_pages (flash_blocks g b)
}.

(** The [k] chain pages from [a] on hold the bytes [data[idx ..]] of a write
    of [left] bytes, page by page. *)
Fixpoint laid (k : nat) (cont : Z -> Z -> list Z) (bs : Z -> flash_block_control_t)
    (a : bp_flash_addr_t) (data : list Z) (idx left : Z) : Prop :=
  match k with
  | O => True
  | S k' =>
      firstn (Z.to_nat (bytes_to_copy drv left)) (cont (block a) (page a))
      = slice data idx (bytes_to_copy drv left)
      /\ page_ok bs a
      /\ block a < num_blocks drv
      /\ laid k' cont bs (chain_next bs a) data (idx + bytes_to_copy drv left)
              (left - bytes_to_copy drv left)
  end.

(** Chaining the allocated block [nwb] behind [cur]. *)
Definition link_behind (g : flash_globals D) (cur nwb : Z) : flash_globals D :=
  set_blocks g
    (upd (upd (flash_blocks g) cur (set_next_block (flash_blocks g cur) nwb))
         nwb
         (set_prev_block
            (upd (flash_blocks g) cur (set_next_block (flash_blocks g cur) nwb) nwb)
            cur)).

(** The free list is the queue [F]: its blocks are chained from [out] on,
    are distinct, are counted by [count] and end at [in]; the tail of the bad
    list, whose link the next bad block rewrites, is not among them. *)
Record free_list_ok (g : flash_globals D) (F : list Z) : Prop := {
  fl_chain : free_chain (flash_blocks g) (out (flash_free_blocks g)) F;
  fl_nodup : NoDup F;
  fl_count : count (flash_free_blocks g) = Z.of_nat (length F);
  fl_in : F <> [] -> in_ (flash_free_blocks g) = last F BP_FLASH_INVALID_INDEX;
  fl_bad : forall t, bad_tail g = Some t -> ~ In t F
}.

(** The device after the erase of each block of [bs] in turn. *)
Fixpoint erase_each (bs : list Z) (d : D) : D :=
  match bs with
  | [] => d
  | b :: bs' => erase_each bs' (snd (erase drv b d))
  end.

(** Each block of [bs], erased in turn from the device [d] on, fails to
    erase. *)
Fixpoint erase_fails (bs : list Z) (d : D) : Prop :=
  match bs with
  | [] => True
  | b :: bs' =>
      fst (erase drv b d) <> BP_SUCCESS /\ erase_fails bs' (snd (erase drv b d))
  end.

(** The blocks [0 .. n-1] that the driver does not report bad on [d]. *)
Definition good_blocks (n : nat) (d : D) : list Z :=
  filter (fun b => negb (isbad drv b d)) (map Z.of_nat (seq 0 n)).

(** The attributes [bplib_store_flash_create] accepts: none, or a
    [max_data_size] of a page at least. *)
Definition attr_ok (parm : option bp_flash_attr_t) : Prop :=
  match parm with
  | Some attr => page_size drv <= max_data_size attr
  | None => True
  end.

(** The [max_data_size] a created store works with: the one asked for, or a
    page, and the header on top. *)
Definition stage_size (parm : option bp_flash_attr_t) : Z :=
  to_int (to_ulong (match parm with
                    | Some attr => max_data_size attr
                    | None => page_size drv
                    end + hdr_size)).

(** [bplib_store_flash_enqueue] once more, with the calls it makes to
    [bplib_os_lock] and [bplib_os_unlock] on the device lock, in order: the
    [return] on a failed first allocation sits inside the locked region. *)
Definition bplib_store_flash_enqueue_traced (fuel : nat) (hdl : Z)
    (data1 : option (list Z)) (data1_size : Z)
    (data2 : option (list Z)) (data2_size : Z) (sysnow : Z) (s : flash_state D)
  : option (bp_status * flash_state D * list lock_event) :=
  let fs := flash_stores s hdl in
  let first :=
    if block (write_addr fs) =? BP_FLASH_INVALID_INDEX then
      match flash_free_allocate drv fuel (block (write_addr fs)) (glob s) with
      | None => None
      | Some (status, blk, g1) =>
          Some (status,
                set_write_addr fs (mk_addr blk (page (write_addr fs))), g1)
      end
    else Some (BP_SUCCESS, fs, glob s) in
  match first with
  | None => None
  | Some (status, fs1, g1) =>
      if negb (is_success status)
      then Some (BP_FAILEDSTORE, put_store s g1 hdl fs1, [Lock])
      else
        let fs2 :=
          if block (read_addr fs1) =? BP_FLASH_INVALID_INDEX
          then set_read_addr fs1 (write_addr fs1) else fs1 in
        match flash_object_write drv fuel fs2 hdl data1 data1_size data2 data2_size
                                 sysnow g1 with
        | None => None
        | Some (status2, fs3, g2) =>
            let fs4 :=
              if is_success status2
              then set_object_count fs3 (object_count fs3 + 1) else fs3 in
            Some (status2, put_store s g2 hdl fs4, [Lock; Unlock])
        end
  end.

End Vocabulary.

(** * Properties *)

Section FlashFacts.

Variable D : Type.
Variable drv : bp_flash_driver_t D.

(** ** Storage identifiers *)

Lemma to_ulong_small (v : Z) : 0 <= v < ulong_modulus -> to_ulong v = v.
Proof. intros H. unfold to_ulong. apply Z.mod_small. exact H. Qed.

Lemma to_index_small (v : Z) : 0 <= v < index_modulus -> to_index v = v.
Proof. intros H. unfold to_index. apply Z.mod_small. exact H. Qed.

Lemma index_below_ulong : index_modulus * index_modulus < ulong_modulus.
Proof. unfold index_modulus, ulong_modulus. lia. Qed.

(** C6. For an address with [block < num_blocks] and
    [page < pages_per_block] (both fields of the 16-bit index type), the SID
    [block * pages_per_block + page + 1] is at least 1 and decodes, through
    [(SID - 1) / pages_per_block] and [(SID - 1) mod pages_per_block], to the
    block and the page it was made from; the address rebuilt from it is the
    original one. *)
Theorem sid_round_trip (blk pg : Z) :
  num_blocks drv < index_modulus ->
  pages_per_block drv < index_modulus ->
  0 <= blk < num_blocks drv ->
  0 <= pg < pages_per_block drv ->
  FLASH_GET_BLOCK drv (FLASH_GET_SID drv (mk_addr blk pg)) = blk
  /\ FLASH_GET_PAGE drv (FLASH_GET_SID drv (mk_addr blk pg)) = pg
  /\ 1 <= FLASH_GET_SID drv (mk_addr blk pg)
  /\ sid_addr drv (FLASH_GET_SID drv (mk_addr blk pg)) = mk_addr blk pg.
Proof.
  intros Hnb Hppb Hblk Hpg.
  pose proof index_below_ulong as Hbig.
  unfold FLASH_GET_BLOCK, FLASH_GET_PAGE, FLASH_GET_SID, sid_addr; simpl.
  set (ppb := pages_per_block drv) in *.
  assert (Hrange : 0 <= blk * ppb + pg < ulong_modulus) by nia.
  assert (Hsid : 0 <= blk * ppb + pg + 1 < ulong_modulus) by nia.
  rewrite (to_ulong_small Hsid).
  replace (blk * ppb + pg + 1 - 1) with (blk * ppb + pg) by lia.
  rewrite (to_ulong_small Hrange).
  assert (Hdiv : (blk * ppb + pg) / ppb = blk).
  { rewrite Z.div_add_l by lia. rewrite (Z.div_small pg ppb) by lia. lia. }
  assert (Hmod : (blk * ppb + pg) mod ppb = pg).
  { rewrite Z.add_comm, Z.mod_add by lia. apply Z.mod_small. lia. }
  rewrite Hdiv, Hmod.
  repeat split; try nia.
  unfold FLASH_GET_BLOCK, FLASH_GET_PAGE. fold ppb.
  replace (blk * ppb + pg + 1 - 1) with (blk * ppb + pg) by lia.
  rewrite (to_ulong_small Hrange), Hdiv, Hmod.
  rewrite !to_index_small by (unfold index_modulus in *; lia). reflexivity.
Qed.

(** ** Empty dequeue and release *)

(** C7. When the read cursor of a store equals its write cursor, a dequeue
    answers [BP_TIMEOUT], hands back no object and leaves the whole state as
    it was: the device behind the driver (so no page was read), the read
    stage, the stage lock and both cursors.  No fuel is needed. *)
Theorem dequeue_empty_timeout (fuel : nat) (hdl : Z) (s : flash_state D) :
  read_addr (flash_stores s hdl) = write_addr (flash_stores s hdl) ->
  bplib_store_flash_dequeue drv fuel hdl s = Some (BP_TIMEOUT, None, s).
Proof.
  intros Heq. unfold bplib_store_flash_dequeue.
  rewrite Heq, !Z.eqb_refl. reflexivity.
Qed.

Lemma upd_same {A : Type} (f : Z -> A) (k : Z) (v : A) : upd f k v k = v.
Proof. unfold upd. rewrite Z.eqb_refl. reflexivity. Qed.

Lemma upd_other {A : Type} (f : Z -> A) (k : Z) (v : A) (x : Z) :
  x <> k -> upd f k v x = f x.
Proof. intros H. unfold upd. apply Z.eqb_neq in H. rewrite H. reflexivity. Qed.

(** C8. With the read stage locked, a release whose SID differs from the one
    in the header held in the read stage answers [BP_FAILEDSTORE] and changes
    nothing, so the stage stays locked; a release with the SID of that header
    answers [BP_SUCCESS] and unlocks the stage. *)
Theorem release_checks_sid (hdl osid : Z) (s : flash_state D) :
  stage_locked (flash_stores s hdl) = true ->
  (osid <> sid (object (decode_hdr (read_stage (flash_stores s hdl)))) ->
   bplib_store_flash_release hdl osid s = (BP_FAILEDSTORE, s)
   /\ stage_locked
        (flash_stores (snd (bplib_store_flash_release hdl osid s)) hdl) = true)
  /\ (osid = sid (object (decode_hdr (read_stage (flash_stores s hdl)))) ->
      fst (bplib_store_flash_release hdl osid s) = BP_SUCCESS
      /\ stage_locked
           (flash_stores (snd (bplib_store_flash_release hdl osid s)) hdl) = false).
Proof.
  intros Hlocked. unfold bplib_store_flash_release. split.
  - intros Hne.
    assert (Hb : (sid (object (decode_hdr (read_stage (flash_stores s hdl)))) =? osid)
                 = false) by (apply Z.eqb_neq; congruence).
    rewrite Hb. simpl. auto.
  - intros ->. rewrite Z.eqb_refl. simpl. split; [reflexivity|].
    rewrite upd_same. reflexivity.
Qed.

(** ** A full store *)

Lemma to_int_small (v : Z) : 0 <= v < 2 ^ 31 -> to_int v = v.
Proof.
  intros H. unfold to_int, to_signed32.
  rewrite Z.mod_small by lia.
  destruct (v <? 2 ^ 31) eqn:E; [reflexivity|].
  apply Z.ltb_ge in E. lia.
Qed.

(** C4, amended.  For a store whose write and read cursors already name a
    block, an enqueue whose header plus payload exceeds the free capacity
    (free block count times pages per block times page size) or the store's
    [max_data_size] answers [BP_STOREFULL] and changes nothing: the store,
    with its two cursors, and the globals are as before.  With no free block
    left the capacity is zero, which is the case of the full device.  The
    counts and sizes are taken in the ranges of their C types. *)
Theorem enqueue_store_full (fuel : nat) (hdl : Z)
    (data1 : option (list Z)) (data1_size : Z)
    (data2 : option (list Z)) (data2_size : Z) (sysnow : Z) (s : flash_state D) :
  block (write_addr (flash_stores s hdl)) <> BP_FLASH_INVALID_INDEX ->
  block (read_addr (flash_stores s hdl)) <> BP_FLASH_INVALID_INDEX ->
  0 <= count (flash_free_blocks (glob s)) < 2 ^ 31 ->
  0 <= pages_per_block drv < index_modulus ->
  0 < page_size drv < 2 ^ 31 ->
  count (flash_free_blocks (glob s)) * pages_per_block drv * page_size drv
    < ulong_modulus ->
  0 <= data1_size -> 0 <= data2_size ->
  hdr_size + data1_size + data2_size < 2 ^ 31 ->
  count (flash_free_blocks (glob s)) * pages_per_block drv * page_size drv
    < hdr_size + data1_size + data2_size
  \/ max_data_size (attributes (flash_stores s hdl))
     < hdr_size + data1_size + data2_size ->
  exists s',
    bplib_store_flash_enqueue drv fuel hdl data1 data1_size data2 data2_size
                              sysnow s = Some (BP_STOREFULL, s')
    /\ flash_stores s' hdl = flash_stores s hdl
    /\ glob s' = glob s.
Proof.
  intros Hw Hr Hc Hppb Hps Hcap Hn1 Hn2 Hneed Hfull.
  unfold bplib_store_flash_enqueue.
  apply Z.eqb_neq in Hw. apply Z.eqb_neq in Hr.
  rewrite Hw. cbn [is_success bp_status_eqb negb]. rewrite Hr.
  unfold flash_object_write.
  set (c := count (flash_free_blocks (glob s))) in *.
  set (ppb := pages_per_block drv) in *.
  set (ps := page_size drv) in *.
  assert (Hhdr : hdr_size = 32) by reflexivity.
  assert (Hum : ulong_modulus = 2 ^ 64) by reflexivity.
  assert (Him : index_modulus = 2 ^ 16) by reflexivity.
  assert (Hcp : 0 <= c * ppb < ulong_modulus) by nia.
  assert (Hps' : 0 <= ps < ulong_modulus) by lia.
  rewrite (@to_ulong_small c) by lia.
  rewrite (@to_ulong_small ppb) by lia.
  rewrite (to_ulong_small Hcp), (to_ulong_small Hps').
  rewrite (@to_ulong_small (c * ppb * ps))
    by (split; [apply Z.mul_nonneg_nonneg; lia | exact Hcap]).
  rewrite (@to_ulong_small (hdr_size + data1_size + data2_size)) by lia.
  rewrite (@to_int_small (hdr_size + data1_size + data2_size)) by lia.
  rewrite (@to_ulong_small (hdr_size + data1_size + data2_size)) by lia.
  assert (Hchk : (c * ppb * ps >=? hdr_size + data1_size + data2_size)
                 && (max_data_size (attributes (flash_stores s hdl))
                     >=? hdr_size + data1_size + data2_size) = false).
  { apply andb_false_iff. destruct Hfull as [H|H]; [left|right];
      rewrite Z.geb_leb; apply Z.leb_gt; lia. }
  rewrite Hchk.
  eexists. split; [reflexivity|]. split; [apply upd_same|reflexivity].
Qed.

(** ** Block-count conservation *)

Lemma list_add_count (l : flash_block_list_t)
    (blocks : Z -> flash_block_control_t) (b : Z) :
  count (fst (flash_block_list_add l blocks b)) = count l + 1.
Proof.
  unfold flash_block_list_add.
  destruct (out l =? BP_FLASH_INVALID_INDEX); reflexivity.
Qed.

Lemma reclaim_total (b : Z) (g : flash_globals D) :
  block_total (snd (flash_free_reclaim drv b g)) = block_total g.
Proof.
  unfold flash_free_reclaim, block_total.
  destruct (isbad drv b (dev g)); cbn [negb].
  - match goal with
    | |- context [flash_block_list_add ?l ?bs ?x] =>
        pose proof (list_add_count l bs x) as H;
        destruct (flash_block_list_add l bs x) as [l' bs']
    end.
    simpl in *. lia.
  - match goal with
    | |- context [flash_block_list_add ?l ?bs ?x] =>
        pose proof (list_add_count l bs x) as H;
        destruct (flash_block_list_add l bs x) as [l' bs']
    end.
    simpl in *. lia.
Qed.

Lemma allocate_body_total (blk : Z) (g : flash_globals D) :
  block_total (snd (flash_free_allocate_body drv blk g)) = block_total g.
Proof.
  unfold flash_free_allocate_body, block_total.
  destruct (erase drv (out (flash_free_blocks g)) (dev g)) as [status dev1].
  destruct (is_success status).
  - simpl. lia.
  - match goal with
    | |- context [flash_block_list_add ?l ?bs ?x] =>
        pose proof (list_add_count l bs x) as H;
        destruct (flash_block_list_add l bs x) as [l' bs']
    end.
    simpl in *. lia.
Qed.

Lemma allocate_loop_total (fuel : nat) :
  forall status blk g status' blk' g',
    flash_free_allocate_loop drv fuel status blk g = Some (status', blk', g') ->
    block_total g' = block_total g.
Proof.
  induction fuel as [|fuel IH]; intros status blk g status' blk' g' H; simpl in H.
  - destruct (negb (is_success status)
              && negb (out (flash_free_blocks g) =? BP_FLASH_INVALID_INDEX));
      [discriminate|]. injection H as _ _ <-. reflexivity.
  - destruct (negb (is_success status)
              && negb (out (flash_free_blocks g) =? BP_FLASH_INVALID_INDEX)).
    + pose proof (allocate_body_total blk g) as Hb.
      destruct (flash_free_allocate_body drv blk g) as [[status1 blk1] g1].
      apply IH in H. simpl in Hb. lia.
    + injection H as _ _ <-. reflexivity.
Qed.

Lemma allocate_total (fuel : nat) (blk : Z) (g : flash_globals D) status' blk' g' :
  flash_free_allocate drv fuel blk g = Some (status', blk', g') ->
  block_total g' = block_total g.
Proof. apply allocate_loop_total. Qed.

Lemma block_total_set_dev (g : flash_globals D) (d : D) :
  block_total (set_dev g d) = block_total g.
Proof. reflexivity. Qed.

Lemma block_total_set_blocks (g : flash_globals D) bs :
  block_total (set_blocks g bs) = block_total g.
Proof. reflexivity. Qed.

Lemma block_total_set_error_count (g : flash_globals D) n :
  block_total (set_error_count g n) = block_total g.
Proof. reflexivity. Qed.

Lemma data_write_loop_total (fuel : nat) :
  forall addr data data_index bytes_left g status' addr' g',
    flash_data_write_loop drv fuel addr data data_index bytes_left g
    = Some (status', addr', g') ->
    block_total g' = block_total g.
Proof.
  induction fuel as [|fuel IH];
    intros addr data data_index bytes_left g status' addr' g' H;
    cbn [flash_data_write_loop] in H.
  - destruct (bytes_left >? 0); [discriminate|].
    injection H as _ _ <-. reflexivity.
  - destruct (bytes_left >? 0); [|injection H as _ _ <-; reflexivity].
    destruct (write drv addr _ (dev g)) as [status dev1].
    destruct (is_success status).
    + destruct (_ =? _).
      * destruct (flash_free_allocate drv fuel BP_FLASH_INVALID_INDEX (set_dev g dev1))
          as [[[status2 nwb] g2]|] eqn:Ha; [|discriminate].
        apply allocate_total in Ha.
        destruct (is_success status2).
        -- apply IH in H. rewrite H, block_total_set_blocks, Ha. reflexivity.
        -- injection H as _ _ <-. rewrite Ha. reflexivity.
      * apply IH in H. rewrite H. reflexivity.
    + match type of H with
      | context [flash_free_allocate drv fuel BP_FLASH_INVALID_INDEX ?g3] =>
          assert (Hg3 : block_total g3 = block_total g);
          [| destruct (flash_free_allocate drv fuel BP_FLASH_INVALID_INDEX g3)
               as [[[status2 nwb] g4]|] eqn:Ha; [|discriminate] ]
      end.
      { destruct (page addr >? 0).
        - reflexivity.
        - rewrite reclaim_total. reflexivity. }
      apply allocate_total in Ha.
      destruct (is_success status2).
      * apply IH in H. rewrite H, block_total_set_blocks, Ha, Hg3. reflexivity.
      * injection H as _ _ <-. rewrite Ha, Hg3. reflexivity.
Qed.

Lemma same_registry_refl (g : flash_globals D) : same_registry g g.
Proof. repeat split. Qed.

Lemma same_registry_trans (g1 g2 g3 : flash_globals D) :
  same_registry g1 g2 -> same_registry g2 g3 -> same_registry g1 g3.
Proof.
  unfold same_registry. intros (A & B & C & E) (A' & B' & C' & E').
  repeat split; congruence.
Qed.

Lemma same_registry_total (g g' : flash_globals D) :
  same_registry g g' -> block_total g' = block_total g.
Proof.
  unfold same_registry, block_total. intros (_ & -> & -> & ->). reflexivity.
Qed.

Lemma data_read_loop_registry (fuel : nat) :
  forall addr data data_index bytes_left g status' addr' data' g',
    flash_data_read_loop drv fuel addr data data_index bytes_left g
    = Some (status', addr', data', g') ->
    same_registry g g'.
Proof.
  induction fuel as [|fuel IH];
    intros addr data data_index bytes_left g status' addr' data' g' H;
    cbn [flash_data_read_loop] in H.
  - destruct (bytes_left >? 0); [discriminate|].
    injection H as _ _ _ <-. apply same_registry_refl.
  - destruct (bytes_left >? 0); [|injection H as _ _ _ <-; apply same_registry_refl].
    destruct (read drv addr _ (dev g)) as [[status bytes] dev1].
    destruct (is_success status).
    + destruct (_ =? _).
      * destruct (_ =? _).
        -- injection H as _ _ _ <-. repeat split.
        -- apply IH in H. eapply same_registry_trans; [|exact H]. repeat split.
      * apply IH in H. eapply same_registry_trans; [|exact H]. repeat split.
    + injection H as _ _ _ <-. repeat split.
Qed.

Lemma data_read_registry fuel addr data off sz g status' addr' data' g' :
  flash_data_read drv fuel addr data off sz g = Some (status', addr', data', g') ->
  same_registry g g'.
Proof.
  unfold flash_data_read. destruct (addr_invalid drv addr g).
  - intros H. injection H as _ _ _ <-. apply same_registry_refl.
  - apply data_read_loop_registry.
Qed.

Lemma mark_deleted_registry (addr : bp_flash_addr_t) (g : flash_globals D) :
  block_total (snd (mark_deleted addr g)) = block_total g.
Proof.
  unfold mark_deleted. destruct (negb _); reflexivity.
Qed.

Lemma delete_loop_total (fuel : nat) :
  forall addr cur free bytes_left g status' g',
    flash_object_delete_loop drv fuel addr cur free bytes_left g
    = Some (status', g') ->
    block_total g' = block_total g.
Proof.
  induction fuel as [|fuel IH]; intros addr cur free bytes_left g status' g' H;
    cbn [flash_object_delete_loop] in H.
  - destruct (bytes_left >? 0); [discriminate|].
    injection H as _ <-. reflexivity.
  - destruct (bytes_left >? 0); [|injection H as _ <-; reflexivity].
    destruct (if negb (cur =? block addr) then _ else _) as [cur1 free1].
    pose proof (mark_deleted_registry addr g) as Hm.
    destruct (mark_deleted addr g) as [was_set g1]. simpl in Hm.
    destruct (_ && _).
    + injection H as _ <-. exact Hm.
    + destruct (_ >=? _).
      * destruct (negb _).
        -- injection H as _ <-. exact Hm.
        -- apply IH in H. rewrite H, reclaim_total, block_total_set_blocks.
           exact Hm.
      * apply IH in H. congruence.
Qed.

Lemma delete_total fuel osid g status' g' :
  flash_object_delete drv fuel osid g = Some (status', g') ->
  block_total g' = block_total g.
Proof.
  unfold flash_object_delete. destruct (addr_invalid drv _ g).
  - intros H. injection H as _ <-. reflexivity.
  - destruct (flash_data_read drv fuel _ _ 0 hdr_size g)
      as [[[[status addr1] buf] g1]|] eqn:Hr; [|discriminate].
    apply data_read_registry, same_registry_total in Hr.
    destruct (negb (is_success status)).
    + intros H. injection H as _ <-. exact Hr.
    + destruct (negb _).
      * intros H. injection H as _ <-. exact Hr.
      * intros H. apply delete_loop_total in H. congruence.
Qed.

Lemma data_write_total fuel addr data sz g status' addr' g' :
  flash_data_write drv fuel addr data sz g = Some (status', addr', g') ->
  block_total g' = block_total g.
Proof.
  unfold flash_data_write. destruct (addr_invalid drv addr g).
  - intros H. injection H as _ _ <-. reflexivity.
  - apply data_write_loop_total.
Qed.

Lemma object_write_total fuel fs hdl d1 n1 d2 n2 now g status' fs' g' :
  flash_object_write drv fuel fs hdl d1 n1 d2 n2 now g = Some (status', fs', g') ->
  block_total g' = block_total g.
Proof.
  unfold flash_object_write. destruct (_ && _).
  - destruct (flash_data_write drv fuel _ _ _ g) as [[[status addr1] g1]|] eqn:Hw;
      [|discriminate].
    intros H. injection H as _ _ <-. eapply data_write_total; eauto.
  - intros H. injection H as _ _ <-. reflexivity.
Qed.

Lemma object_read_registry fuel fs hdl addr g status' addr' obj fs' g' :
  flash_object_read drv fuel fs hdl addr g = Some (status', addr', obj, fs', g') ->
  same_registry g g'.
Proof.
  unfold flash_object_read. destruct (negb (stage_locked fs)).
  - destruct (flash_data_read drv fuel addr _ 0 _ g)
      as [[[[status addr1] stage1] g1]|] eqn:Hr; [|discriminate].
    apply data_read_registry in Hr.
    match goal with
    | |- match ?rest with _ => _ end = _ -> _ =>
        assert (Hrest : forall st a b g2, rest = Some (st, a, b, g2) ->
                                          same_registry g g2);
        [| destruct rest as [[[[status2 addr2] stage2] g2]|]; [|discriminate] ]
    end.
    { intros st a b g2. destruct (is_success status).
      - destruct (_ && _).
        + destruct (_ >? 0).
          * intros H. apply data_read_registry in H.
            eapply same_registry_trans; eauto.
          * intros H. injection H as _ _ _ <-. exact Hr.
        + intros H. injection H as _ _ _ <-. exact Hr.
      - intros H. injection H as _ _ _ <-. exact Hr. }
    specialize (Hrest _ _ _ _ eq_refl).
    destruct (is_success status2); intros H; injection H as _ _ _ _ <-; exact Hrest.
  - intros H. injection H as _ _ _ _ <-. apply same_registry_refl.
Qed.

Lemma object_scan_loop_registry (fuel : nat) :
  forall status addr g status' addr' g',
    flash_object_scan_loop drv fuel status addr g = Some (status', addr', g') ->
    same_registry g g'.
Proof.
  induction fuel as [|fuel IH]; intros status addr g status' addr' g' H;
    cbn [flash_object_scan_loop] in H.
  - destruct (_ && _); [discriminate|].
    injection H as _ _ <-. apply same_registry_refl.
  - destruct (negb (block addr =? BP_FLASH_INVALID_INDEX) && negb (is_success status));
      [|injection H as _ _ <-; apply same_registry_refl].
    destruct (flash_data_read drv fuel addr _ 0 hdr_size g)
      as [[[[rs addr1] buf] g1]|] eqn:Hr; [|discriminate].
    apply data_read_registry in Hr.
    destruct (_ && _); apply IH in H; eapply same_registry_trans; eauto.
Qed.

Lemma object_write_count fuel fs hdl d1 n1 d2 n2 now g status' fs' g' :
  flash_object_write drv fuel fs hdl d1 n1 d2 n2 now g = Some (status', fs', g') ->
  object_count fs' = object_count fs.
Proof.
  unfold flash_object_write. destruct (_ && _).
  - destruct (flash_data_write drv fuel _ _ _ g) as [[[status addr1] g1]|];
      [|discriminate].
    intros H. injection H as _ <- _. reflexivity.
  - intros H. injection H as _ <- _. reflexivity.
Qed.

Lemma object_read_count fuel fs hdl addr g status' addr' obj fs' g' :
  flash_object_read drv fuel fs hdl addr g = Some (status', addr', obj, fs', g') ->
  object_count fs' = object_count fs.
Proof.
  unfold flash_object_read. destruct (negb (stage_locked fs)).
  - destruct (flash_data_read drv fuel addr _ 0 _ g)
      as [[[[status addr1] stage1] g1]|]; [|discriminate].
    match goal with
    | |- match ?rest with _ => _ end = _ -> _ =>
        destruct rest as [[[[status2 addr2] stage2] g2]|]; [|discriminate]
    end.
    destruct (is_success status2); intros H; injection H as _ _ _ <- _; reflexivity.
  - intros H. injection H as _ _ _ <- _. reflexivity.
Qed.

Lemma put_store_count (s : flash_state D) g hdl fs h (d : Z) :
  object_count fs = object_count (flash_stores s hdl) + d ->
  object_count (flash_stores (put_store s g hdl fs) h)
  = object_count (flash_stores s h) + (if hdl =? h then d else 0).
Proof.
  intros H. unfold put_store. cbn [flash_stores]. unfold upd.
  rewrite (Z.eqb_sym h hdl).
  destruct (hdl =? h) eqn:E.
  - apply Z.eqb_eq in E. subst h. exact H.
  - lia.
Qed.

Lemma is_success_true (st : bp_status) : is_success st = true -> st = BP_SUCCESS.
Proof. destruct st; simpl; congruence. Qed.

Lemma step_effect (fuel : nat) (op : flash_op) (s : flash_state D) status s' :
  step drv fuel op s = Some (status, s') ->
  block_total (glob s') = block_total (glob s)
  /\ forall h, object_count (flash_stores s' h)
               = object_count (flash_stores s h) + count_delta h (op, status).
Proof.
  destruct op as [|b|addr data sz|osid|hdl d1 n1 d2 n2 now|hdl|hdl osid|hdl osid|hdl osid];
    cbn [step]; unfold count_delta; cbn [enqueued relinquished].
  - destruct (flash_free_allocate drv fuel _ (glob s)) as [[[st blk] g]|] eqn:Ha;
      [|discriminate].
    intros H. injection H as <- <-. split; [eapply allocate_total; eauto|].
    intros h. simpl. lia.
  - pose proof (reclaim_total b (glob s)) as Hr.
    destruct (flash_free_reclaim drv b (glob s)) as [st g].
    intros H. injection H as <- <-. split; [exact Hr|]. intros h. simpl. lia.
  - destruct (flash_data_write drv fuel addr data sz (glob s)) as [[[st a] g]|] eqn:Hw;
      [|discriminate].
    intros H. injection H as <- <-. split; [eapply data_write_total; eauto|].
    intros h. simpl. lia.
  - destruct (flash_object_delete drv fuel osid (glob s)) as [[st g]|] eqn:Hd;
      [|discriminate].
    intros H. injection H as <- <-. split; [eapply delete_total; eauto|].
    intros h. simpl. lia.
  - unfold bplib_store_flash_enqueue.
    match goal with
    | |- match ?first with _ => _ end = _ -> _ =>
        assert (Hfirst : forall st fs1 g1, first = Some (st, fs1, g1) ->
                  block_total g1 = block_total (glob s)
                  /\ object_count fs1 = object_count (flash_stores s hdl));
        [| destruct first as [[[st fs1] g1]|]; [|discriminate] ]
    end.
    { intros st fs1 g1. destruct (_ =? _).
      - destruct (flash_free_allocate drv fuel _ (glob s)) as [[[st0 blk] g0]|] eqn:Ha;
          [|discriminate].
        intros H. injection H as _ <- <-. split; [eapply allocate_total; eauto|].
        reflexivity.
      - intros H. injection H as _ <- <-. split; reflexivity. }
    destruct (Hfirst _ _ _ eq_refl) as [Ht Hc]. clear Hfirst.
    destruct (negb (is_success st)).
    + intros H. injection H as <- <-. split; [exact Ht|].
      intros h. rewrite (@put_store_count s g1 hdl fs1 h 0).
      * destruct (hdl =? h); lia.
      * rewrite Hc. destruct (hdl =? h); lia.
    + match goal with
      | |- match flash_object_write drv fuel ?fs2 _ _ _ _ _ _ _ with _ => _ end = _ -> _ =>
          assert (Hc2 : object_count fs2 = object_count (flash_stores s hdl))
            by (destruct (block (read_addr fs1) =? BP_FLASH_INVALID_INDEX);
                simpl; exact Hc);
          destruct (flash_object_write drv fuel fs2 hdl d1 n1 d2 n2 now g1)
            as [[[st2 fs3] g2]|] eqn:Hw; [|discriminate]
      end.
      pose proof (object_write_total _ _ _ _ _ _ _ _ _ Hw) as Ht2.
      apply object_write_count in Hw.
      intros H. injection H as <- <-. split; [simpl; congruence|].
      intros h. destruct (is_success st2) eqn:Es.
      * apply is_success_true in Es. subst st2.
        rewrite (@put_store_count s g2 hdl _ h 1).
        -- destruct (hdl =? h); lia.
        -- simpl. rewrite Hw, Hc2. destruct (hdl =? h); lia.
      * rewrite (@put_store_count s g2 hdl _ h 0).
        -- destruct st2; try discriminate; destruct (hdl =? h); lia.
        -- rewrite Hw, Hc2. destruct (hdl =? h); lia.
  - unfold bplib_store_flash_dequeue. destruct (_ || _).
    + destruct (flash_object_read drv fuel _ hdl _ (glob s))
        as [[[[[st addr1] obj] fs1] g1]|] eqn:Hr; [|discriminate].
      pose proof (object_read_registry _ _ _ _ _ Hr) as Hreg.
      apply object_read_count in Hr.
      destruct (negb (is_success st)).
      * destruct (flash_object_scan drv fuel _ g1) as [[[st2 addr2] g2]|] eqn:Hs;
          [|discriminate].
        apply object_scan_loop_registry in Hs.
        intros H. injection H as <- <-. split.
        -- apply same_registry_total. eapply same_registry_trans; eauto.
        -- intros h. rewrite (@put_store_count s g2 hdl _ h 0).
           ++ destruct (hdl =? h); lia.
           ++ simpl. rewrite Hr. destruct (hdl =? h); lia.
      * intros H. injection H as <- <-. split.
        -- apply same_registry_total. exact Hreg.
        -- intros h. rewrite (@put_store_count s g1 hdl _ h 0).
           ++ destruct (hdl =? h); lia.
           ++ simpl. rewrite Hr. destruct (hdl =? h); lia.
    + intros H. injection H as <- <-. split; [reflexivity|]. intros h. lia.
  - unfold bplib_store_flash_retrieve.
    destruct (flash_object_read drv fuel _ hdl _ (glob s))
      as [[[[[st addr1] obj] fs1] g1]|] eqn:Hr; [|discriminate].
    pose proof (object_read_registry _ _ _ _ _ Hr) as Hreg.
    apply object_read_count in Hr.
    intros H. injection H as <- <-. split.
    + apply same_registry_total. exact Hreg.
    + intros h. rewrite (@put_store_count s g1 hdl _ h 0).
      * destruct (hdl =? h); lia.
      * rewrite Hr. destruct (hdl =? h); lia.
  - unfold bplib_store_flash_release. destruct (negb _).
    + intros H. injection H as <- <-. split; [reflexivity|]. intros h. lia.
    + intros H. injection H as <- <-. split; [reflexivity|].
      intros h. rewrite (@put_store_count s (glob s) hdl _ h 0).
      * destruct (hdl =? h); lia.
      * simpl. destruct (hdl =? h); lia.
  - unfold bplib_store_flash_relinquish.
    destruct (flash_object_delete drv fuel osid (glob s)) as [[st g1]|] eqn:Hd;
      [|discriminate].
    apply delete_total in Hd.
    intros H. injection H as <- <-. split; [exact Hd|].
    intros h. destruct (is_success st) eqn:Es.
    + apply is_success_true in Es. subst st.
      rewrite (@put_store_count s g1 hdl _ h (-1)).
      * destruct (hdl =? h); lia.
      * simpl. destruct (hdl =? h); lia.
    + rewrite (@put_store_count s g1 hdl _ h 0).
      * destruct st; try discriminate; destruct (hdl =? h); lia.
      * destruct (hdl =? h); lia.
Qed.

Lemma count_log_cons f (e : flash_op * bp_status) log :
  count_log f (e :: log) = (if f e then 1 else 0) + count_log f log.
Proof.
  unfold count_log. simpl. destruct (f e); simpl length; lia.
Qed.

Lemma run_effect (fuel : nat) (ops : list flash_op) :
  forall (s : flash_state D) log s',
    run drv fuel ops s = Some (log, s') ->
    block_total (glob s') = block_total (glob s)
    /\ forall h, object_count (flash_stores s' h)
                 = object_count (flash_stores s h)
                   + count_log (enqueued h) log - count_log (relinquished h) log.
Proof.
  induction ops as [|op ops IH]; intros s log s' H; cbn [run] in H.
  - injection H as <- <-. split; [reflexivity|]. intros h. unfold count_log. simpl. lia.
  - destruct (step drv fuel op s) as [[status s1]|] eqn:Hs; [|discriminate].
    destruct (run drv fuel ops s1) as [[log1 s2]|] eqn:Hr; [|discriminate].
    injection H as <- <-.
    apply step_effect in Hs. apply IH in Hr.
    destruct Hs as [Ht1 Hc1]. destruct Hr as [Ht2 Hc2].
    split; [congruence|].
    intros h. rewrite Hc2, Hc1, !count_log_cons. unfold count_delta. lia.
Qed.

Lemma reclaim_lists (b : Z) (g : flash_globals D) :
  count (flash_free_blocks (snd (flash_free_reclaim drv b g)))
  + count (flash_bad_blocks (snd (flash_free_reclaim drv b g)))
  = count (flash_free_blocks g) + count (flash_bad_blocks g) + 1.
Proof.
  pose proof (reclaim_total b g) as H. unfold block_total in H.
  assert (Hu : flash_used_block_count (snd (flash_free_reclaim drv b g))
               = flash_used_block_count g - 1).
  { unfold flash_free_reclaim. destruct (negb _);
      match goal with
      | |- context [flash_block_list_add ?l ?bs ?x] =>
          destruct (flash_block_list_add l bs x) as [l' bs']
      end; reflexivity. }
  lia.
Qed.

Lemma format_blocks_lists (n : nat) :
  forall b r (g : flash_globals D),
    count (flash_free_blocks (snd (format_blocks drv n b r g)))
    + count (flash_bad_blocks (snd (format_blocks drv n b r g)))
    = count (flash_free_blocks g) + count (flash_bad_blocks g) + Z.of_nat n.
Proof.
  induction n as [|n IH]; intros b r g; cbn [format_blocks].
  - simpl. lia.
  - pose proof (reclaim_lists b g) as Hr.
    destruct (flash_free_reclaim drv b g) as [status g1]. simpl in Hr.
    rewrite IH. lia.
Qed.

Lemma init_format_total (lock : Z) (mem : Z -> flash_block_control_t)
    (s0 : flash_state D) :
  0 <= lock -> 0 <= num_blocks drv ->
  block_total
    (glob (snd (bplib_store_flash_init drv BP_FLASH_INIT_FORMAT lock (Some mem) s0)))
  = num_blocks drv.
Proof.
  intros Hl Hn. unfold bplib_store_flash_init.
  apply Z.ltb_ge in Hl. rewrite Hl.
  match goal with
  | |- context [format_blocks drv ?n ?b ?r ?g] =>
      pose proof (format_blocks_lists n b r g) as Hf;
      destruct (format_blocks drv n b r g) as [reclaimed g2]
  end.
  unfold block_total. simpl in *. rewrite Z2Nat.id in Hf by lia. lia.
Qed.

(** C5, amended.  After an init in format mode, every sequence of calls
    (allocate, reclaim, data write with or without page failures, object
    delete and the queue calls) that returns leaves the free count plus the
    bad count plus the used count equal to the number of blocks of the
    device. *)
Theorem block_count_conservation (lock : Z) (mem : Z -> flash_block_control_t)
    (s0 : flash_state D) (fuel : nat) (ops : list flash_op)
    (log : list (flash_op * bp_status)) (s' : flash_state D) :
  0 <= lock ->
  0 <= num_blocks drv ->
  run drv fuel ops
      (snd (bplib_store_flash_init drv BP_FLASH_INIT_FORMAT lock (Some mem) s0))
  = Some (log, s') ->
  count (flash_free_blocks (glob s')) + count (flash_bad_blocks (glob s'))
  + flash_used_block_count (glob s') = num_blocks drv.
Proof.
  intros Hl Hn Hrun.
  apply run_effect in Hrun. destruct Hrun as [Ht _].
  rewrite init_format_total in Ht by assumption. exact Ht.
Qed.

(** ** The count law *)

Lemma create_count (parm : option bp_flash_attr_t) (mem : bool)
    (s0 s : flash_state D) (h : Z) :
  bplib_store_flash_create drv parm mem s0 = (inr h, s) ->
  object_count (flash_stores s h) = 0.
Proof.
  unfold bplib_store_flash_create.
  destruct (first_unused _ _ _) as [h0|]; [|discriminate].
  destruct (match parm with Some _ => _ | None => _ end); [discriminate|].
  destruct mem; [|discriminate].
  intros H. injection H as <- <-. cbn [flash_stores]. rewrite upd_same. reflexivity.
Qed.

(** C9. From the creation of a store on, after any sequence of calls that
    return, [getcount] is the number of successful enqueues on the store
    minus the number of successful relinquishes on it; failed calls,
    dequeues, retrieves, releases and calls on other stores do not count. *)
Theorem count_law (parm : option bp_flash_attr_t) (mem : bool)
    (s0 s : flash_state D) (h : Z) (fuel : nat) (ops : list flash_op)
    (log : list (flash_op * bp_status)) (s' : flash_state D) :
  bplib_store_flash_create drv parm mem s0 = (inr h, s) ->
  run drv fuel ops s = Some (log, s') ->
  bplib_store_flash_getcount h s'
  = count_log (enqueued h) log - count_log (relinquished h) log.
Proof.
  intros Hc Hrun. apply create_count in Hc.
  apply run_effect in Hrun. destruct Hrun as [_ Hcount].
  unfold bplib_store_flash_getcount. rewrite Hcount, Hc. lia.
Qed.

(** ** Reading up to the end of a block *)

Lemma with_next_max_pages (g : flash_globals D) (b nb : Z) :
  max_pages (flash_blocks (with_next g b nb) b) = max_pages (flash_blocks g b).
Proof. unfold with_next. cbn [flash_blocks set_blocks]. rewrite upd_same. reflexivity. Qed.

Lemma with_next_next_block (g : flash_globals D) (b nb : Z) :
  next_block (flash_blocks (with_next g b nb) b) = nb.
Proof. unfold with_next. cbn [flash_blocks set_blocks]. rewrite upd_same. reflexivity. Qed.

Lemma with_next_set_dev (g : flash_globals D) (b nb : Z) (d : D) :
  set_dev (with_next g b nb) d = with_next (set_dev g d) b nb.
Proof. reflexivity. Qed.

Lemma ceil_pages (sz ps : Z) :
  0 < ps ->
  ((sz + ps - 1) / ps - 1) * ps < sz <= (sz + ps - 1) / ps * ps.
Proof.
  intros Hps.
  pose proof (Z_div_mod_eq_full (sz + ps - 1) ps) as Hd.
  pose proof (Z.mod_pos_bound (sz + ps - 1) ps Hps) as Hm.
  nia.
Qed.

Lemma with_next_max_pages_any (g : flash_globals D) (e nb b : Z) :
  max_pages (flash_blocks (with_next g e nb) b) = max_pages (flash_blocks g b).
Proof.
  unfold with_next. cbn [flash_blocks set_blocks].
  destruct (Z.eq_dec b e) as [->|Hne].
  - rewrite upd_same. reflexivity.
  - rewrite upd_other by exact Hne. reflexivity.
Qed.

Lemma with_next_other (g : flash_globals D) (e nb b : Z) :
  b <> e -> flash_blocks (with_next g e nb) b = flash_blocks g b.
Proof.
  intros Hne. unfold with_next. cbn [flash_blocks set_blocks].
  apply upd_other. exact Hne.
Qed.

Lemma read_loop_chain_end (nb e : Z) :
  0 < page_size drv ->
  nb <> BP_FLASH_INVALID_INDEX ->
  forall (k : nat) fuel a data idx left (g g2 : flash_globals D) a' data',
    Z.of_nat k * page_size drv < left <= (Z.of_nat k + 1) * page_size drv ->
    Forall (page_ok (flash_blocks g)) (chain_pages (flash_blocks g) k a) ->
    block (chain_end (flash_blocks g) k a) = e ->
    0 <= page (chain_end (flash_blocks g) k a) ->
    page (chain_end (flash_blocks g) k a) + 1 = max_pages (flash_blocks g e) ->
    max_pages (flash_blocks g e) < index_modulus ->
    next_block (flash_blocks g e) = BP_FLASH_INVALID_INDEX ->
    flash_data_read_loop drv fuel a data idx left (with_next g e nb)
    = Some (BP_SUCCESS, a', data', g2) ->
    exists g',
      flash_data_read_loop drv fuel a data idx left g
      = Some (BP_FAILEDSTORE, mk_addr e (max_pages (flash_blocks g e)), data', g')
      /\ a' = mk_addr nb 0
      /\ g2 = with_next g' e nb
      /\ flash_error_count g' = flash_error_count g.
Proof.
  intros Hps Hnb.
  induction k as [|k IH];
    intros fuel a data idx left g g2 a' data' Hleft Hok He Hpg Hend Hmax Hnext Hrun.
  - cbn [chain_end] in He, Hpg, Hend. destruct a as [b pg].
    cbn [block page] in He, Hpg, Hend. subst b.
    change (Z.of_nat 0) with 0 in Hleft.
    assert (Hgt : (left >? 0) = true) by (apply Z.gtb_lt; lia).
    destruct fuel as [|fuel]; cbn [flash_data_read_loop] in Hrun |- *;
      rewrite Hgt in Hrun |- *; [discriminate Hrun|].
    change (dev (with_next g e nb)) with (dev g) in Hrun.
    destruct (read drv (mk_addr e pg) (bytes_to_copy drv left) (dev g))
      as [[status bytes] dev1].
    destruct (is_success status) eqn:Est.
    2:{ injection Hrun as -> _ _ _. discriminate Est. }
    cbn [block page] in Hrun |- *.
    rewrite with_next_set_dev, with_next_max_pages, with_next_next_block in Hrun.
    cbn [flash_blocks set_dev] in Hrun |- *.
    rewrite (@to_index_small (pg + 1)) in Hrun |- * by lia.
    rewrite Hend, Z.eqb_refl in Hrun |- *.
    apply Z.eqb_neq in Hnb. rewrite Hnb in Hrun.
    rewrite Hnext, Z.eqb_refl.
    assert (Hzero : left - bytes_to_copy drv left = 0).
    { unfold bytes_to_copy. destruct (left <? page_size drv) eqn:E; [lia|].
      apply Z.ltb_ge in E. lia. }
    rewrite Hzero in Hrun.
    assert (Hdone : Some (BP_SUCCESS, mk_addr nb 0, poke data idx bytes,
                          with_next (set_dev g dev1) e nb)
                    = Some (BP_SUCCESS, a', data', g2))
      by (destruct fuel; exact Hrun).
    injection Hdone as <- <- <-.
    exists (set_dev g dev1). repeat split; reflexivity.
  - cbn [chain_pages] in Hok. apply Forall_cons_iff in Hok.
    destruct Hok as [(Hin & Hmx & Hsucc) Hok].
    cbn [chain_end] in He, Hpg, Hend.
    assert (Hk : Z.of_nat (S k) = Z.of_nat k + 1) by lia.
    rewrite Hk in Hleft.
    assert (Hgt : (left >? 0) = true) by (apply Z.gtb_lt; nia).
    destruct fuel as [|fuel]; cbn [flash_data_read_loop] in Hrun |- *;
      rewrite Hgt in Hrun |- *; [discriminate Hrun|].
    change (dev (with_next g e nb)) with (dev g) in Hrun.
    assert (Hfull : bytes_to_copy drv left = page_size drv).
    { unfold bytes_to_copy.
      replace (left <? page_size drv) with false; [reflexivity|].
      symmetry. apply Z.ltb_ge. nia. }
    rewrite Hfull in Hrun |- *.
    destruct (read drv a (page_size drv) (dev g)) as [[status bytes] dev1].
    destruct (is_success status) eqn:Est.
    2:{ injection Hrun as -> _ _ _. discriminate Est. }
    cbn [block page] in Hrun |- *.
    rewrite with_next_set_dev, with_next_max_pages_any in Hrun.
    cbn [flash_blocks set_dev] in Hrun |- *.
    rewrite (@to_index_small (page a + 1)) in Hrun |- * by lia.
    assert (Hstep : forall a1,
               a1 = chain_next (flash_blocks g) a ->
               flash_data_read_loop drv fuel a1 (poke data idx bytes)
                 (idx + page_size drv) (left - page_size drv)
                 (with_next (set_dev g dev1) e nb)
               = Some (BP_SUCCESS, a', data', g2) ->
               exists g',
                 flash_data_read_loop drv fuel a1 (poke data idx bytes)
                   (idx + page_size drv) (left - page_size drv) (set_dev g dev1)
                 = Some (BP_FAILEDSTORE, mk_addr e (max_pages (flash_blocks g e)),
                         data', g')
                 /\ a' = mk_addr nb 0
                 /\ g2 = with_next g' e nb
                 /\ flash_error_count g' = flash_error_count g).
    { intros a1 -> Hrun1.
      apply (IH fuel (chain_next (flash_blocks g) a) (poke data idx bytes)
                (idx + page_size drv) (left - page_size drv) (set_dev g dev1)
                g2 a' data'); try assumption.
      nia. }
    unfold chain_next in Hstep.
    destruct (page a + 1 =? max_pages (flash_blocks g (block a))) eqn:Eend.
    + apply Z.eqb_eq in Eend. specialize (Hsucc Eend).
      assert (Hbe : block a <> e).
      { intros Hbe. apply Hsucc. rewrite Hbe. exact Hnext. }
      change (flash_blocks (with_next (set_dev g dev1) e nb) (block a))
        with (flash_blocks (with_next g e nb) (block a)) in Hrun.
      rewrite (with_next_other g nb Hbe) in Hrun.
      apply Z.eqb_neq in Hsucc. rewrite Hsucc in Hrun |- *.
      apply (Hstep _ eq_refl Hrun).
    + apply (Hstep _ eq_refl Hrun).
Qed.

(** C10. Take a read of [sz] bytes whose last page, reached from [addr]
    along the chain of blocks, in the block of [addr] or in a later one, is
    the last usable page of its block, and let that block have no successor.
    Whenever the same read succeeds once that block is given a successor
    [nb], so that every page read succeeded and every requested byte is in
    the buffer, the read on the block without successor leaves the same
    buffer, counts no I/O error and yet answers [BP_FAILEDSTORE]: success
    needs a successor block when the read ends on a block boundary. *)
Theorem data_read_block_end_needs_successor (fuel : nat) (addr a' : bp_flash_addr_t)
    (data data' : list Z) (off sz nb : Z) (g g2 : flash_globals D) :
  let bs := flash_blocks g in
  let k := pages_for (page_size drv) sz in
  let last := chain_end bs (k - 1) addr in
  0 < page_size drv ->
  0 < sz ->
  Forall (page_ok bs) (chain_pages bs (k - 1) addr) ->
  0 <= page last ->
  page last + 1 = max_pages (bs (block last)) ->
  max_pages (bs (block last)) < index_modulus ->
  next_block (bs (block last)) = BP_FLASH_INVALID_INDEX ->
  nb <> BP_FLASH_INVALID_INDEX ->
  flash_data_read drv fuel addr data off sz (with_next g (block last) nb)
  = Some (BP_SUCCESS, a', data', g2) ->
  exists g',
    flash_data_read drv fuel addr data off sz g
    = Some (BP_FAILEDSTORE, mk_addr (block last) (max_pages (bs (block last))),
            data', g')
    /\ a' = mk_addr nb 0
    /\ g2 = with_next g' (block last) nb
    /\ flash_error_count g' = flash_error_count g.
Proof.
  intros bs k last Hps Hsz Hok Hpg Hend Hmax Hnext Hnb Hrun.
  pose proof (ceil_pages sz Hps) as Hceil.
  assert (Hk : Z.of_nat k = (sz + page_size drv - 1) / page_size drv).
  { unfold k, pages_for. apply Z2Nat.id. apply Z.div_pos; lia. }
  assert (Hk1 : (1 <= k)%nat).
  { assert (0 < (sz + page_size drv - 1) / page_size drv)
      by (apply Z.div_str_pos; lia). lia. }
  unfold flash_data_read in Hrun |- *.
  assert (Hsame : addr_invalid drv addr (with_next g (block last) nb)
                  = addr_invalid drv addr g).
  { unfold addr_invalid. rewrite with_next_max_pages_any. reflexivity. }
  rewrite Hsame in Hrun.
  destruct (addr_invalid drv addr g); [discriminate Hrun|].
  apply (@read_loop_chain_end nb (block last) Hps Hnb (k - 1)%nat fuel addr data off
           sz g g2 a' data'); try assumption; try reflexivity.
  replace (Z.of_nat (k - 1)) with (Z.of_nat k - 1) by lia.
  rewrite Hk. lia.
Qed.

End FlashFacts.

(** ** Deleting an object *)

Lemma small_cases (i : Z) :
  0 <= i < 8 -> i = 0 \/ i = 1 \/ i = 2 \/ i = 3 \/ i = 4 \/ i = 5 \/ i = 6 \/ i = 7.
Proof. lia. Qed.

Lemma mask_other (i j : Z) :
  0 <= i < 8 -> 0 <= j < 8 -> i <> j ->
  Z.land (255 - Z.shiftr 128 i) (Z.shiftr 128 j) = Z.shiftr 128 j.
Proof.
  intros Hi Hj Hne.
  destruct (small_cases Hi) as [?|[?|[?|[?|[?|[?|[?|?]]]]]]]; subst i;
    destruct (small_cases Hj) as [?|[?|[?|[?|[?|[?|[?|?]]]]]]]; subst j;
    try (exfalso; apply Hne; reflexivity); reflexivity.
Qed.

Lemma mask_same (i : Z) :
  0 <= i < 8 -> Z.land (255 - Z.shiftr 128 i) (Z.shiftr 128 i) = 0.
Proof.
  intros Hi.
  destruct (small_cases Hi) as [?|[?|[?|[?|[?|[?|[?|?]]]]]]]; subst i; reflexivity.
Qed.

Lemma bit_clear_other (x i j : Z) :
  0 <= i < 8 -> 0 <= j < 8 -> i <> j ->
  Z.land (Z.land x (255 - Z.shiftr 128 i)) (Z.shiftr 128 j)
  = Z.land x (Z.shiftr 128 j).
Proof.
  intros Hi Hj Hne. rewrite <- Z.land_assoc, mask_other by assumption. reflexivity.
Qed.

Lemma bit_clear_same (x i : Z) :
  0 <= i < 8 ->
  Z.land (Z.land x (255 - Z.shiftr 128 i)) (Z.shiftr 128 i) = 0.
Proof.
  intros Hi. rewrite <- Z.land_assoc, mask_same by assumption. apply Z.land_0_r.
Qed.

Lemma fold_left_sum (step : Z -> Z -> Z) (f : Z -> Z) (l : list Z) :
  (forall acc j, step acc j = acc + f j) ->
  forall acc, fold_left step l acc = acc + sum_over f l.
Proof.
  intros Hstep. induction l as [|j l IH]; intros acc; simpl.
  - lia.
  - rewrite IH, Hstep. lia.
Qed.

Lemma sum_over_ext (f f' : Z -> Z) (l : list Z) :
  (forall j, In j l -> f' j = f j) -> sum_over f' l = sum_over f l.
Proof.
  induction l as [|j l IH]; intros H; simpl; [reflexivity|].
  rewrite H by (left; reflexivity). rewrite IH; [reflexivity|].
  intros j' Hj'. apply H. right. exact Hj'.
Qed.

Lemma sum_over_bump (f f' : Z -> Z) (i : Z) (l : list Z) :
  (forall j, In j l -> j <> i -> f' j = f j) ->
  f' i <= f i + 1 ->
  NoDup l ->
  sum_over f' l <= sum_over f l + 1.
Proof.
  intros Hother Hi. induction l as [|j l IH]; intros Hnd; simpl; [lia|].
  inversion Hnd as [|? ? Hnotin Hnd']; subst.
  destruct (Z.eq_dec j i) as [->|Hne].
  - rewrite (@sum_over_ext f f' l).
    + lia.
    + intros j Hj. apply Hother; [right; exact Hj|].
      intros ->. contradiction.
  - rewrite (Hother j) by (auto; left; reflexivity).
    assert (sum_over f' l <= sum_over f l + 1); [|lia].
    apply IH; [|exact Hnd'].
    intros j' Hj'. apply Hother. right. exact Hj'.
Qed.

Lemma index_list_nodup (n : nat) : NoDup (map Z.of_nat (seq 0 n)).
Proof.
  apply Injective_map_NoDup; [|apply seq_NoDup].
  intros x y. apply Nat2Z.inj.
Qed.

Lemma index_list_in (n : nat) (j : Z) :
  In j (map Z.of_nat (seq 0 n)) -> 0 <= j < Z.of_nat n.
Proof.
  intros H. apply in_map_iff in H. destruct H as (x & <- & Hx).
  apply in_seq in Hx. lia.
Qed.

Lemma byte_zeros_clear (v i : Z) :
  0 <= i < 8 ->
  byte_zeros (Z.land v (255 - Z.shiftr 128 i)) <= byte_zeros v + 1.
Proof.
  intros Hi. unfold byte_zeros.
  apply sum_over_bump with (i := i).
  - intros j Hj Hne. apply index_list_in in Hj. unfold bit_zero.
    rewrite bit_clear_other by lia. reflexivity.
  - unfold bit_zero. repeat match goal with
                            | |- context [if ?b then _ else _] => destruct b
                            end; lia.
  - apply index_list_nodup.
Qed.

Section DeleteFacts.

Variable D : Type.
Variable drv : bp_flash_driver_t D.

Lemma count_free_pages_sum (c : flash_block_control_t) :
  count_free_pages drv c
  = sum_over (fun j => byte_zeros (page_use c j))
             (map Z.of_nat (seq 0 (Z.to_nat (pages_per_block drv / 8)))).
Proof.
  unfold count_free_pages.
  rewrite (@fold_left_sum _ (fun j => byte_zeros (page_use c j))); [lia|].
  intros acc j. unfold byte_zeros.
  apply fold_left_sum. intros acc' bit. unfold bit_zero.
  destruct (_ =? _); lia.
Qed.

(** The registry after [mark_deleted]: same links and sizes, one bit less. *)
Lemma mark_deleted_links (a : bp_flash_addr_t) (g : flash_globals D) (b : Z) :
  next_block (flash_blocks (snd (mark_deleted a g)) b) = next_block (flash_blocks g b)
  /\ prev_block (flash_blocks (snd (mark_deleted a g)) b)
     = prev_block (flash_blocks g b)
  /\ max_pages (flash_blocks (snd (mark_deleted a g)) b) = max_pages (flash_blocks g b).
Proof.
  unfold mark_deleted. destruct (negb _); cbn [snd]; [|auto].
  cbn [flash_blocks set_blocks]. unfold upd.
  destruct (b =? block a) eqn:E; [|auto].
  apply Z.eqb_eq in E. subst b. cbn. auto.
Qed.

Lemma mark_deleted_rest (a : bp_flash_addr_t) (g : flash_globals D) :
  dev (snd (mark_deleted a g)) = dev g
  /\ flash_free_blocks (snd (mark_deleted a g)) = flash_free_blocks g
  /\ flash_bad_blocks (snd (mark_deleted a g)) = flash_bad_blocks g
  /\ flash_error_count (snd (mark_deleted a g)) = flash_error_count g
  /\ flash_used_block_count (snd (mark_deleted a g)) = flash_used_block_count g.
Proof.
  unfold mark_deleted. destruct (negb _); cbn; auto.
Qed.

Lemma same_page (x y : Z) : x / 8 = y / 8 -> x mod 8 = y mod 8 -> x = y.
Proof.
  intros Hd Hm.
  rewrite (Z_div_mod_eq_full x 8), (Z_div_mod_eq_full y 8). congruence.
Qed.

Lemma mark_deleted_bits (a : bp_flash_addr_t) (g : flash_globals D) (b x : Z) :
  page_in_use (flash_blocks (snd (mark_deleted a g)) b) x
  = page_in_use (flash_blocks g b) x && negb (addr_eqb (mk_addr b x) a).
Proof.
  pose proof (Z.mod_pos_bound x 8 ltac:(lia)) as Hx.
  pose proof (Z.mod_pos_bound (page a) 8 ltac:(lia)) as Ha.
  unfold mark_deleted, addr_eqb. cbn [block page].
  destruct (Z.land (page_use (flash_blocks g (block a)) (page a / 8))
                   (Z.shiftr 128 (page a mod 8)) =? 0) eqn:Ebit; cbn [negb snd].
  - (* the bit was clear already *)
    destruct ((b =? block a) && (x =? page a)) eqn:E; cbn [negb].
    + apply andb_true_iff in E. destruct E as [Eb Ex].
      apply Z.eqb_eq in Eb, Ex. subst b x.
      unfold page_in_use. rewrite Ebit. reflexivity.
    + rewrite andb_true_r. reflexivity.
  - cbn [flash_blocks set_blocks]. unfold upd at 1.
    destruct (b =? block a) eqn:Eb; cbn [andb].
    + apply Z.eqb_eq in Eb. subst b.
      unfold page_in_use. cbn [page_use set_page_use]. unfold upd.
      destruct (x =? page a) eqn:Ex; cbn [negb].
      * apply Z.eqb_eq in Ex. subst x. rewrite Z.eqb_refl.
        rewrite bit_clear_same by lia. rewrite andb_false_r. reflexivity.
      * rewrite andb_true_r. apply Z.eqb_neq in Ex.
        destruct (x / 8 =? page a / 8) eqn:Ediv; [|reflexivity].
        apply Z.eqb_eq in Ediv.
        rewrite bit_clear_other; [rewrite Ediv; reflexivity|lia|lia|].
        intros Hm. apply Ex. symmetry in Hm. symmetry. apply same_page; congruence.
    + rewrite andb_true_r. reflexivity.
Qed.

Lemma mark_deleted_count (a : bp_flash_addr_t) (g : flash_globals D) (b : Z) :
  count_free_pages drv (flash_blocks (snd (mark_deleted a g)) b)
  <= count_free_pages drv (flash_blocks g b) + 1.
Proof.
  pose proof (Z.mod_pos_bound (page a) 8 ltac:(lia)) as Ha.
  unfold mark_deleted. destruct (negb _); cbn [snd]; [|lia].
  cbn [flash_blocks set_blocks]. unfold upd at 1.
  destruct (b =? block a) eqn:Eb; [|lia].
  apply Z.eqb_eq in Eb. subst b.
  rewrite !count_free_pages_sum. cbn [page_use set_page_use].
  apply sum_over_bump with (i := page a / 8).
  - intros j _ Hne. rewrite upd_other by exact Hne. reflexivity.
  - rewrite upd_same. apply byte_zeros_clear. exact Ha.
  - apply index_list_nodup.
Qed.

Lemma same_links_refl bs : same_links bs bs.
Proof. intros b. auto. Qed.

Lemma same_links_trans bs1 bs2 bs3 :
  same_links bs1 bs2 -> same_links bs2 bs3 -> same_links bs1 bs3.
Proof.
  intros H1 H2 b. destruct (H1 b) as (A & B & C). destruct (H2 b) as (A' & B' & C').
  repeat split; congruence.
Qed.

Lemma chain_next_links bs bs' a :
  same_links bs bs' -> chain_next bs' a = chain_next bs a.
Proof.
  intros H. unfold chain_next. destruct (H (block a)) as (-> & _ & ->). reflexivity.
Qed.

Lemma chain_pages_links bs bs' (n : nat) :
  same_links bs bs' -> forall a, chain_pages bs' n a = chain_pages bs n a.
Proof.
  intros H. induction n as [|n IH]; intros a; cbn [chain_pages]; [reflexivity|].
  rewrite IH, (chain_next_links a H). reflexivity.
Qed.

Lemma page_ok_links bs bs' a : same_links bs bs' -> page_ok bs a -> page_ok bs' a.
Proof.
  intros H. unfold page_ok. destruct (H (block a)) as (-> & _ & ->). auto.
Qed.

Lemma delete_loop_pages (k : nat) :
  0 < page_size drv ->
  forall fuel a cur free left (g : flash_globals D),
    (k <= fuel)%nat ->
    (Z.of_nat k - 1) * page_size drv < left <= Z.of_nat k * page_size drv ->
    Forall (page_ok (flash_blocks g)) (chain_pages (flash_blocks g) k a) ->
    Forall (fun a' => count_free_pages drv (flash_blocks g (block a')) + Z.of_nat k
                      < max_pages (flash_blocks g (block a')))
           (chain_pages (flash_blocks g) k a) ->
    (cur = block a -> free + Z.of_nat k < max_pages (flash_blocks g cur)) ->
    exists g',
      flash_object_delete_loop drv fuel a cur free left g = Some (BP_SUCCESS, g')
      /\ same_links (flash_blocks g) (flash_blocks g')
      /\ (forall b x, page_in_use (flash_blocks g' b) x
                      = page_in_use (flash_blocks g b) x
                        && negb (on_pages (chain_pages (flash_blocks g) k a) b x))
      /\ dev g' = dev g
      /\ flash_free_blocks g' = flash_free_blocks g
      /\ flash_bad_blocks g' = flash_bad_blocks g
      /\ flash_error_count g' = flash_error_count g
      /\ flash_used_block_count g' = flash_used_block_count g.
Proof.
  intros Hps. induction k as [|k IH]; intros fuel a cur free left g Hfuel Hleft Hok Hroom Hcur.
  - exists g.
    assert (Hle : (left >? 0) = false) by (rewrite Z.gtb_ltb; apply Z.ltb_ge; lia).
    destruct fuel; cbn [flash_object_delete_loop]; rewrite Hle.
    + repeat split; try reflexivity; try apply same_links_refl.
      intros b x. cbn. rewrite andb_true_r. reflexivity.
    + repeat split; try reflexivity; try apply same_links_refl.
      intros b x. cbn. rewrite andb_true_r. reflexivity.
  - destruct fuel as [|fuel]; [lia|].
    cbn [chain_pages] in Hok, Hroom.
    inversion Hok as [|? ? Hoka Hok']; subst.
    inversion Hroom as [|? ? Hrooma Hroom']; subst.
    destruct Hoka as (Hpg & Hmax & Hsucc).
    assert (Hgt : (left >? 0) = true) by (apply Z.gtb_lt; nia).
    cbn [flash_object_delete_loop]. rewrite Hgt.
    set (cf := if negb (cur =? block a)
               then (block a, count_free_pages drv (flash_blocks g (block a)))
               else (cur, free)).
    assert (Hcf : fst cf = block a
                  /\ snd cf + Z.of_nat (S k) < max_pages (flash_blocks g (block a))).
    { unfold cf. destruct (cur =? block a) eqn:E; cbn [negb fst snd].
      - apply Z.eqb_eq in E. split; [exact E|]. rewrite <- E. apply Hcur. exact E.
      - split; [reflexivity|exact Hrooma]. }
    destruct cf as [cur1 free1]. cbn [fst snd] in Hcf. destruct Hcf as [-> Hfree1].
    pose proof (mark_deleted_links a g) as Hlinks.
    pose proof (mark_deleted_bits a g) as Hbits.
    pose proof (mark_deleted_count a g) as Hcount.
    pose proof (mark_deleted_rest a g) as Hrest.
    destruct (mark_deleted a g) as [was_set g1]. cbn [snd] in *.
    set (free2 := if was_set then free1 + 1 else free1).
    assert (Hfree2 : free2 <= free1 + 1) by (unfold free2; destruct was_set; lia).
    cbn [block page].
    rewrite (@to_index_small (page a + 1)) by lia.
    destruct (Hlinks (block a)) as (Hnx & _ & Hmx). rewrite Hmx, Hnx.
    assert (Hend : (page a + 1 =? max_pages (flash_blocks g (block a)))
                   && (next_block (flash_blocks g (block a)) =? BP_FLASH_INVALID_INDEX)
                   = false).
    { destruct (page a + 1 =? max_pages (flash_blocks g (block a))) eqn:E;
        [|reflexivity].
      apply Z.eqb_eq in E. apply Hsucc in E. apply Z.eqb_neq in E. rewrite E.
      reflexivity. }
    rewrite Hend.
    assert (Hno : (free2 >=? max_pages (flash_blocks g (block a))) = false)
      by (rewrite Z.geb_leb; apply Z.leb_gt; lia).
    rewrite Hno.
    assert (Hnext : (if page a + 1 =? max_pages (flash_blocks g (block a))
                     then mk_addr (next_block (flash_blocks g (block a))) 0
                     else mk_addr (block a) (page a + 1))
                    = chain_next (flash_blocks g) a) by reflexivity.
    rewrite Hnext.
    assert (Hsl : same_links (flash_blocks g) (flash_blocks g1))
      by (intros b; apply Hlinks).
    assert (Hleft1 : (Z.of_nat k - 1) * page_size drv
                     < left - bytes_to_copy drv left <= Z.of_nat k * page_size drv).
    { unfold bytes_to_copy. destruct (left <? page_size drv) eqn:E.
      - apply Z.ltb_lt in E. assert (k = 0%nat) by nia. subst k. lia.
      - apply Z.ltb_ge in E. lia. }
    destruct (IH fuel (chain_next (flash_blocks g) a) (block a) free2
                 (left - bytes_to_copy drv left) g1)
      as (g' & Hrun & Hl' & Hb' & Hd' & Hf' & Hbad' & He' & Hu').
    + lia.
    + exact Hleft1.
    + rewrite (chain_pages_links k Hsl).
      eapply Forall_impl; [|exact Hok']. intros a'. apply page_ok_links. exact Hsl.
    + rewrite (chain_pages_links k Hsl).
      eapply Forall_impl; [|exact Hroom']. intros a' Ha'. cbn beta in *.
      destruct (Hlinks (block a')) as (_ & _ & ->).
      pose proof (Hcount (block a')). lia.
    + intros _. rewrite Hmx. lia.
    + exists g'. split; [exact Hrun|].
      destruct Hrest as (R1 & R2 & R3 & R4 & R5).
      split; [eapply same_links_trans; eauto|].
      split; [|repeat split; congruence].
      intros b x. rewrite Hb', Hbits, (chain_pages_links k Hsl).
      cbn [chain_pages on_pages existsb]. unfold on_pages.
      rewrite negb_orb, andb_assoc. reflexivity.
Qed.

Lemma chain_pages_length bs (n : nat) : forall a, length (chain_pages bs n a) = n.
Proof.
  induction n as [|n IH]; intros a; cbn [chain_pages length]; [reflexivity|].
  rewrite IH. reflexivity.
Qed.

(** The pages that the loop of [flash_object_delete] visits.  Let the header
    at the address of [osid] be readable and carry that SID and a payload
    size [sz], and let [n] be [ceil (sz / page_size)].  If the [n] chain
    pages from the header page on are inside their blocks, each block end
    among them has a successor, and each of their blocks keeps more than [n]
    pages in use, then [flash_object_delete] answers [BP_SUCCESS] and clears
    the page-use bit of those [n] pages and of no other; the links and the
    block sizes stay as they were.  The loop counts the bytes of the payload
    only, where [flash_object_write] lays down the header and the payload. *)
Lemma object_delete_clears_pages (fuel : nat) (osid : Z) (g g1 : flash_globals D)
    (a1 : bp_flash_addr_t) (buf : list Z) :
  0 < page_size drv ->
  num_blocks drv < index_modulus ->
  flash_data_read drv fuel (sid_addr drv osid) (repeat 0 (Z.to_nat hdr_size)) 0
                  hdr_size g = Some (BP_SUCCESS, a1, buf, g1) ->
  sid (object (decode_hdr buf)) = osid ->
  0 <= size (object (decode_hdr buf)) ->
  (pages_for (page_size drv) (size (object (decode_hdr buf))) <= fuel)%nat ->
  Forall (page_ok (flash_blocks g))
         (chain_pages (flash_blocks g)
                      (pages_for (page_size drv) (size (object (decode_hdr buf))))
                      (sid_addr drv osid)) ->
  Forall (fun a' =>
            count_free_pages drv (flash_blocks g (block a'))
            + Z.of_nat (pages_for (page_size drv) (size (object (decode_hdr buf))))
            < max_pages (flash_blocks g (block a')))
         (chain_pages (flash_blocks g)
                      (pages_for (page_size drv) (size (object (decode_hdr buf))))
                      (sid_addr drv osid)) ->
  exists g',
    flash_object_delete drv fuel osid g = Some (BP_SUCCESS, g')
    /\ length (chain_pages (flash_blocks g)
                  (pages_for (page_size drv) (size (object (decode_hdr buf))))
                  (sid_addr drv osid))
       = Z.to_nat ((size (object (decode_hdr buf)) + page_size drv - 1)
                   / page_size drv)
    /\ (forall b x,
          page_in_use (flash_blocks g' b) x
          = page_in_use (flash_blocks g b) x
            && negb (on_pages
                       (chain_pages (flash_blocks g)
                          (pages_for (page_size drv) (size (object (decode_hdr buf))))
                          (sid_addr drv osid)) b x))
    /\ same_links (flash_blocks g) (flash_blocks g').
Proof.
  intros Hps Hnb Hread Hsid Hsz Hfuel Hok Hroom.
  set (sz := size (object (decode_hdr buf))) in *.
  set (n := pages_for (page_size drv) sz) in *.
  assert (Hvalid : addr_invalid drv (sid_addr drv osid) g = false).
  { unfold flash_data_read in Hread.
    destruct (addr_invalid drv (sid_addr drv osid) g); [discriminate|reflexivity]. }
  pose proof Hread as Hreg. apply data_read_registry in Hreg.
  destruct Hreg as (Hblocks & _).
  unfold flash_object_delete. rewrite Hvalid, Hread.
  cbn [is_success bp_status_eqb negb]. rewrite Hsid, Z.eqb_refl. cbn [negb].
  fold sz.
  pose proof (ceil_pages sz Hps) as Hceil.
  assert (Hn : Z.of_nat n = (sz + page_size drv - 1) / page_size drv).
  { unfold n, pages_for. apply Z2Nat.id. apply Z.div_pos; lia. }
  destruct (@delete_loop_pages n Hps fuel (sid_addr drv osid) BP_FLASH_INVALID_INDEX 0
              sz g1)
    as (g' & Hrun & Hl & Hb & _).
  - exact Hfuel.
  - rewrite Hn. exact Hceil.
  - rewrite Hblocks. exact Hok.
  - rewrite Hblocks. exact Hroom.
  - intros Hcur. exfalso.
    unfold addr_invalid in Hvalid. apply orb_false_iff in Hvalid.
    destruct Hvalid as [_ Hb]. rewrite Z.geb_leb in Hb. apply Z.leb_gt in Hb.
    rewrite <- Hcur in Hb. unfold BP_FLASH_INVALID_INDEX, index_modulus in *. lia.
  - exists g'. split; [exact Hrun|]. split; [apply chain_pages_length|].
    rewrite Hblocks in Hl, Hb. split; assumption.
Qed.

End DeleteFacts.

(** ** Writing an object and reading it back *)

Lemma le_bytes_length (n : nat) : forall v, length (le_bytes n v) = n.
Proof. induction n as [|n IH]; intros v; simpl; [reflexivity|]. rewrite IH. reflexivity. Qed.

Lemma le_value_le_bytes (n : nat) :
  forall v, le_value (le_bytes n v) = v mod 256 ^ Z.of_nat n.
Proof.
  induction n as [|n IH]; intros v.
  - simpl. rewrite Z.mod_1_r. reflexivity.
  - cbn [le_bytes le_value]. rewrite IH.
    rewrite Nat2Z.inj_succ, Z.pow_succ_r by lia.
    rewrite Z.rem_mul_r by (try apply Z.pow_pos_nonneg; lia). reflexivity.
Qed.

Lemma to_signed32_small (v : Z) : 0 <= v < 2 ^ 31 -> to_signed32 (v mod 2 ^ 32) = v.
Proof. intros H. apply (to_int_small H). Qed.

(** A header image followed by anything decodes to the header, when the
    fields are in the ranges of their types. *)
Lemma decode_encode_hdr (ts hdl sz osid : Z) (rest : list Z) :
  0 <= ts < ulong_modulus ->
  0 <= hdl < 2 ^ 31 ->
  0 <= sz < 2 ^ 31 ->
  0 <= osid < ulong_modulus ->
  decode_hdr (encode_hdr (mk_hdr FLASH_OBJECT_SYNC ts (mk_object hdl sz osid)) ++ rest)
  = mk_hdr FLASH_OBJECT_SYNC ts (mk_object hdl sz osid).
Proof.
  intros Hts Hh Hsz Hsid. unfold decode_hdr.
  set (buf := encode_hdr _ ++ rest).
  replace (slice buf 0 8) with (le_bytes 8 FLASH_OBJECT_SYNC) by reflexivity.
  replace (slice buf 8 8) with (le_bytes 8 ts) by reflexivity.
  replace (slice buf 16 4) with (le_bytes 4 hdl) by reflexivity.
  replace (slice buf 20 4) with (le_bytes 4 sz) by reflexivity.
  replace (slice buf 24 8) with (le_bytes 8 osid) by reflexivity.
  rewrite !le_value_le_bytes.
  change (256 ^ Z.of_nat 8) with ulong_modulus.
  change (256 ^ Z.of_nat 4) with (2 ^ 32).
  rewrite (Z.mod_small ts), (Z.mod_small osid) by assumption.
  rewrite !to_signed32_small by assumption.
  reflexivity.
Qed.

Lemma encode_hdr_length (h : flash_object_hdr_t) : length (encode_hdr h) = 32%nat.
Proof. unfold encode_hdr. rewrite !length_app, !le_bytes_length. reflexivity. Qed.

Lemma slice_length (d : list Z) (off n : Z) :
  0 <= off -> 0 <= n -> off + n <= Z.of_nat (length d) ->
  length (slice d off n) = Z.to_nat n.
Proof.
  intros Hoff Hn Hlen. unfold slice. rewrite length_firstn, length_skipn. lia.
Qed.

Lemma firstn_plus {A : Type} (n m : nat) :
  forall l : list A, firstn (n + m) l = firstn n l ++ firstn m (skipn n l).
Proof.
  induction n as [|n IH]; intros l; [reflexivity|].
  destruct l as [|x l]; cbn [Nat.add firstn skipn app].
  - rewrite firstn_nil. reflexivity.
  - rewrite IH. reflexivity.
Qed.

Lemma slice_app (d : list Z) (off n m : Z) :
  0 <= off -> 0 <= n -> 0 <= m ->
  slice d off n ++ slice d (off + n) m = slice d off (n + m).
Proof.
  intros Hoff Hn Hm. unfold slice.
  rewrite (Z2Nat.inj_add off n), (Z2Nat.inj_add n m) by lia.
  rewrite firstn_plus, skipn_skipn, (Nat.add_comm (Z.to_nat n)). reflexivity.
Qed.

Lemma slice_zero (d : list Z) (off : Z) : slice d off 0 = [].
Proof. reflexivity. Qed.

Lemma poke_nil (buf : list Z) (off : Z) : poke buf off [] = buf.
Proof.
  unfold poke. cbn [app length]. rewrite Nat.add_0_r. apply firstn_skipn.
Qed.

Lemma firstn_app_exact {A : Type} (l r : list A) (n : nat) :
  n = length l -> firstn n (l ++ r) = l.
Proof.
  intros ->. rewrite firstn_app, firstn_all, Nat.sub_diag. cbn [firstn].
  apply app_nil_r.
Qed.

Lemma skipn_app_exact {A : Type} (l r : list A) (n m : nat) :
  n = (length l + m)%nat -> skipn n (l ++ r) = skipn m r.
Proof.
  intros ->. rewrite skipn_app, skipn_all2 by lia.
  replace (length l + m - length l)%nat with m by lia. reflexivity.
Qed.

Lemma poke_poke (buf b1 b2 : list Z) (off : Z) :
  0 <= off -> (Z.to_nat off <= length buf)%nat ->
  poke (poke buf off b1) (off + Z.of_nat (length b1)) b2 = poke buf off (b1 ++ b2).
Proof.
  intros Hoff Hlen. unfold poke.
  rewrite Z2Nat.inj_add, Nat2Z.id by lia.
  set (o := Z.to_nat off) in *.
  assert (Hf : length (firstn o buf) = o) by (rewrite length_firstn; lia).
  rewrite (app_assoc (firstn o buf) b1).
  rewrite (@firstn_app_exact _ (firstn o buf ++ b1))
    by (rewrite length_app; lia).
  rewrite (@skipn_app_exact _ (firstn o buf ++ b1) _ _ (length b2))
    by (rewrite length_app; lia).
  rewrite skipn_skipn, length_app, <- !app_assoc.
  replace (length b2 + (o + length b1))%nat with (o + (length b1 + length b2))%nat
    by lia.
  reflexivity.
Qed.

Lemma poke_length_ge (buf bytes : list Z) (off : Z) :
  (Z.to_nat off <= length buf)%nat ->
  (Z.to_nat off + length bytes <= length (poke buf off bytes))%nat.
Proof.
  intros H. unfold poke. rewrite !length_app, length_firstn. lia.
Qed.

Lemma poke_zero_prefix (buf bytes : list Z) :
  poke buf 0 bytes = bytes ++ skipn (length bytes) buf.
Proof. reflexivity. Qed.

Section RoundTrip.

Variable D : Type.
Variable drv : bp_flash_driver_t D.

(** What the driver is trusted with: the device has a content per page,
    [content d b p]; a page read leaves the contents alone and a successful
    one returns the first bytes of the page; a successful page write leaves
    its bytes at the start of the page and the other pages alone; a block
    erase leaves the pages of the other blocks alone. *)
Variable content : D -> Z -> Z -> list Z.

Lemma read_pages_ext (k : nat) cont cont' bs :
  (forall b q, cont' b q = cont b q) ->
  forall a left, read_pages drv k cont' bs a left = read_pages drv k cont bs a left.
Proof.
  intros H. induction k as [|k IH]; intros a left; cbn [read_pages]; [reflexivity|].
  rewrite H, IH. reflexivity.
Qed.

Lemma chain_end_links bs bs' (n : nat) :
  same_links bs bs' -> forall a, chain_end bs' n a = chain_end bs n a.
Proof.
  intros H. induction n as [|n IH]; intros a; cbn [chain_end]; [reflexivity|].
  rewrite IH, (chain_next_links a H). reflexivity.
Qed.

Lemma read_pages_links (k : nat) cont bs bs' :
  same_links bs bs' ->
  forall a left, read_pages drv k cont bs' a left = read_pages drv k cont bs a left.
Proof.
  intros H. induction k as [|k IH]; intros a left; cbn [read_pages]; [reflexivity|].
  rewrite IH, (chain_next_links a H). reflexivity.
Qed.

Lemma bytes_to_copy_range (left : Z) :
  0 < page_size drv -> 0 < left ->
  0 < bytes_to_copy drv left <= page_size drv /\ bytes_to_copy drv left <= left.
Proof.
  intros Hps Hleft. unfold bytes_to_copy.
  destruct (left <? page_size drv) eqn:E;
    [apply Z.ltb_lt in E|apply Z.ltb_ge in E]; lia.
Qed.

Lemma pages_step (k : nat) (left : Z) :
  0 < page_size drv ->
  (Z.of_nat (S k) - 1) * page_size drv < left <= Z.of_nat (S k) * page_size drv ->
  0 < left
  /\ (Z.of_nat k - 1) * page_size drv
     < left - bytes_to_copy drv left <= Z.of_nat k * page_size drv.
Proof.
  intros Hps H. split; [nia|].
  unfold bytes_to_copy. destruct (left <? page_size drv) eqn:E.
  - apply Z.ltb_lt in E. assert (k = 0%nat) by nia. subst k. lia.
  - apply Z.ltb_ge in E. lia.
Qed.

(** A successful read over [k] chain pages returns their bytes and leaves the
    cursor after them. *)
Lemma read_loop_pages (k : nat) :
  read_law drv content ->
  0 < page_size drv ->
  forall fuel a buf off left (g : flash_globals D) a' buf' g',
    (Z.of_nat k - 1) * page_size drv < left <= Z.of_nat k * page_size drv ->
    0 <= off -> (Z.to_nat off <= length buf)%nat ->
    Forall (page_ok (flash_blocks g)) (chain_pages (flash_blocks g) k a) ->
    flash_data_read_loop drv fuel a buf off left g = Some (BP_SUCCESS, a', buf', g') ->
    a' = chain_end (flash_blocks g) k a
    /\ buf' = poke buf off (read_pages drv k (content (dev g)) (flash_blocks g) a left)
    /\ (forall b q, content (dev g') b q = content (dev g) b q)
    /\ length (read_pages drv k (content (dev g)) (flash_blocks g) a left) = Z.to_nat left.
Proof.
  intros Hread Hps.
  induction k as [|k IH]; intros fuel a buf off left g a' buf' g' Hk Hoff Hlen Hok Hrun.
  - assert (Hle : (left >? 0) = false) by (rewrite Z.gtb_ltb; apply Z.ltb_ge; lia).
    destruct fuel; cbn [flash_data_read_loop] in Hrun; rewrite Hle in Hrun;
      injection Hrun as <- <- <-; cbn [chain_end read_pages length];
      rewrite poke_nil; repeat split; lia.
  - destruct (pages_step k Hps Hk) as [Hleft Hk'].
    pose proof (bytes_to_copy_range Hps Hleft) as Hn.
    cbn [chain_pages] in Hok. inversion Hok as [|? ? Hoka Hok']; subst.
    destruct Hoka as (Hpg & Hmax & Hsucc).
    assert (Hgt : (left >? 0) = true) by (apply Z.gtb_lt; lia).
    destruct fuel as [|fuel]; cbn [flash_data_read_loop] in Hrun; rewrite Hgt in Hrun;
      [discriminate|].
    destruct (read drv a (bytes_to_copy drv left) (dev g))
      as [[status bytes] dev1] eqn:Hrd.
    destruct (Hread _ _ _ _ _ _ Hrd) as [Hcont Hbytes].
    destruct (is_success status) eqn:Est.
    2:{ injection Hrun as -> _ _ _. discriminate Est. }
    apply is_success_true in Est. subst status.
    destruct (Hbytes eq_refl ltac:(lia)) as [Hb Hbl].
    cbn [block page flash_blocks set_dev] in Hrun.
    rewrite (@to_index_small (page a + 1)) in Hrun by lia.
    assert (Hnext : flash_data_read_loop drv fuel (chain_next (flash_blocks g) a)
                      (poke buf off bytes) (off + bytes_to_copy drv left)
                      (left - bytes_to_copy drv left) (set_dev g dev1)
                    = Some (BP_SUCCESS, a', buf', g')).
    { unfold chain_next.
      destruct (page a + 1 =? max_pages (flash_blocks g (block a))) eqn:E.
      - apply Z.eqb_eq in E. apply Hsucc in E. apply Z.eqb_neq in E.
        rewrite E in Hrun. exact Hrun.
      - exact Hrun. }
    apply IH in Hnext; try assumption; try lia.
    + destruct Hnext as (Ha' & Hbuf' & Hc' & Hl').
      cbn [flash_blocks dev set_dev] in Ha', Hbuf', Hc', Hl'.
      rewrite (@read_pages_ext k _ _ (flash_blocks g) Hcont) in Hbuf', Hl'.
      cbn [chain_end read_pages].
      split; [exact Ha'|]. split; [|split].
      * rewrite Hbuf'.
        replace (off + bytes_to_copy drv left) with (off + Z.of_nat (length bytes))
          by (rewrite Hbl; lia).
        rewrite poke_poke by assumption. rewrite Hb. reflexivity.
      * intros b q. rewrite Hc'. apply Hcont.
      * rewrite length_app, Hl', <- Hb, Hbl. lia.
    + pose proof (@poke_length_ge buf bytes off Hlen). lia.
Qed.

(** ** The free list during a write *)

Lemma free_chain_ext bs bs' (F : list Z) :
  (forall y, In y F -> next_block (bs' y) = next_block (bs y)) ->
  forall b, free_chain bs b F -> free_chain bs' b F.
Proof.
  induction F as [|x F IH]; intros H b; cbn [free_chain]; [auto|].
  intros (Hb & Hx & Hc). split; [exact Hb|]. split; [exact Hx|].
  rewrite H by (left; reflexivity). apply IH; [|exact Hc].
  intros y Hy. apply H. right. exact Hy.
Qed.

Lemma list_add_facts (l : flash_block_list_t) (bs : Z -> flash_block_control_t)
    (x : Z) :
  in_ (fst (flash_block_list_add l bs x)) = x
  /\ (x <> BP_FLASH_INVALID_INDEX ->
      out (fst (flash_block_list_add l bs x)) <> BP_FLASH_INVALID_INDEX)
  /\ (forall b, max_pages (snd (flash_block_list_add l bs x) b) = max_pages (bs b))
  /\ (forall b, (out l =? BP_FLASH_INVALID_INDEX) = true \/ b <> in_ l ->
                next_block (snd (flash_block_list_add l bs x) b) = next_block (bs b)).
Proof.
  unfold flash_block_list_add.
  destruct (out l =? BP_FLASH_INVALID_INDEX) eqn:E; cbn [fst snd in_ out].
  - split; [reflexivity|]. split; [auto|]. split.
    + intros b. unfold upd. destruct (b =? x) eqn:Eb; [|reflexivity].
      apply Z.eqb_eq in Eb. subst b. reflexivity.
    + intros b _. unfold upd. destruct (b =? x) eqn:Eb; [|reflexivity].
      apply Z.eqb_eq in Eb. subst b. reflexivity.
  - apply Z.eqb_neq in E. split; [reflexivity|]. split; [auto|]. split.
    + intros b. unfold upd. destruct (b =? x) eqn:Eb.
      * apply Z.eqb_eq in Eb. subst b. cbn [max_pages set_prev_block].
        destruct (x =? in_ l) eqn:Ei; [|reflexivity].
        apply Z.eqb_eq in Ei. rewrite Ei. reflexivity.
      * destruct (b =? in_ l) eqn:Ei; [|reflexivity].
        apply Z.eqb_eq in Ei. subst b. reflexivity.
    + intros b [Hb|Hb]; [discriminate|]. unfold upd.
      apply Z.eqb_neq in Hb.
      destruct (b =? x) eqn:Eb.
      * apply Z.eqb_eq in Eb. subst b. cbn [next_block set_prev_block].
        rewrite Hb. reflexivity.
      * rewrite Hb. reflexivity.
Qed.

Lemma allocate_body_facts (blk cur x : Z) (F' : list Z) (g : flash_globals D) :
  erase_law drv content ->
  registry_ok drv g cur (x :: F') ->
  forall st blk1 g1,
    flash_free_allocate_body drv blk g = (st, blk1, g1) ->
    registry_ok drv g1 cur F'
    /\ (forall b q, b <> x -> content (dev g1) b q = content (dev g) b q)
    /\ (forall b, max_pages (flash_blocks g1 b) = max_pages (flash_blocks g b))
    /\ (forall b, bad_tail g <> Some b ->
                  next_block (flash_blocks g1 b) = next_block (flash_blocks g b))
    /\ (is_success st = true -> blk1 = x /\ bad_tail g1 = bad_tail g)
    /\ (is_success st = false -> blk1 = blk /\ bad_tail g1 = Some x).
Proof.
  intros Herase [Hchain Hnd Hcur Hbad Hgeom] st blk1 g1.
  cbn [free_chain] in Hchain. destruct Hchain as (Hout & Hx & Hchain).
  apply NoDup_cons_iff in Hnd. destruct Hnd as [Hnotin Hnd'].
  unfold flash_free_allocate_body. rewrite Hout.
  destruct (erase drv x (dev g)) as [st0 dev1] eqn:He.
  pose proof (Herase _ _ _ _ He) as Hcont.
  destruct (is_success st0) eqn:Es.
  - (* the erase succeeds: the block leaves the free list *)
    cbn [flash_free_blocks flash_blocks out in_ count dev flash_bad_blocks
         flash_error_count flash_used_block_count].
    rewrite ?Hout.
    intros H. injection H as <- <- <-.
    split.
    { constructor; cbn [flash_blocks flash_free_blocks out].
      - exact Hchain.
      - exact Hnd'.
      - intros Hin. apply Hcur. right. exact Hin.
      - intros t Ht. destruct (Hbad t Ht) as [Hn Hc].
        split; [|exact Hc]. intros Hin. apply Hn. right. exact Hin.
      - intros b Hb. apply Hgeom. right. exact Hb. }
    split; [intros b q Hb; apply Hcont; exact Hb|].
    split; [reflexivity|]. split; [reflexivity|].
    split; [auto|intros H; congruence].
  - (* the erase fails: the block moves to the bad list *)
    pose proof (list_add_facts (flash_bad_blocks g) (flash_blocks g) x)
      as (Hin & Hnonempty & Hmaxp & Hnextp).
    destruct (flash_block_list_add (flash_bad_blocks g) (flash_blocks g) x)
      as [l bs1].
    cbn [fst snd] in Hin, Hnonempty, Hmaxp, Hnextp.
    cbn [flash_free_blocks flash_blocks out in_ count dev flash_bad_blocks
         flash_error_count flash_used_block_count].
    rewrite ?Hout.
    intros H. injection H as <- <- <-.
    assert (Hnext : forall b, bad_tail g <> Some b ->
                              next_block (bs1 b) = next_block (flash_blocks g b)).
    { intros b Hb. apply Hnextp. unfold bad_tail in Hb.
      destruct (out (flash_bad_blocks g) =? BP_FLASH_INVALID_INDEX); [left; reflexivity|].
      right. intros ->. apply Hb. reflexivity. }
    assert (Hmember : forall y, In y (x :: F') -> bad_tail g <> Some y).
    { intros y Hy Ht. destruct (Hbad y Ht) as [Hn _]. apply Hn. exact Hy. }
    assert (Htail : bad_tail (mk_globals dev1 bs1
                      (mk_list (next_block (bs1 x)) (in_ (flash_free_blocks g))
                               (count (flash_free_blocks g) - 1))
                      l (flash_error_count g + 1) (flash_used_block_count g))
                    = Some x).
    { unfold bad_tail. cbn [flash_bad_blocks].
      specialize (Hnonempty Hx). apply Z.eqb_neq in Hnonempty.
      rewrite Hnonempty, Hin. reflexivity. }
    split.
    { constructor; cbn [flash_blocks flash_free_blocks out].
      - rewrite Hnext by (apply Hmember; left; reflexivity).
        apply free_chain_ext with (bs := flash_blocks g); [|exact Hchain].
        intros y Hy. apply Hnext, Hmember. right. exact Hy.
      - exact Hnd'.
      - intros Hin'. apply Hcur. right. exact Hin'.
      - intros t Ht. rewrite Htail in Ht. injection Ht as <-.
        split; [exact Hnotin|]. intros ->. apply Hcur. left. reflexivity.
      - intros b Hb. rewrite Hmaxp. apply Hgeom. right. exact Hb. }
    split; [intros b q Hb; apply Hcont; exact Hb|].
    split; [exact Hmaxp|]. split; [exact Hnext|].
    split; [intros H; congruence|]. intros _. split; [reflexivity|exact Htail].
Qed.

Lemma allocate_loop_chain (F : list Z) :
  erase_law drv content ->
  forall fuel status blk cur (g : flash_globals D) st' blk' g',
    registry_ok drv g cur F ->
    is_success status = false ->
    flash_free_allocate_loop drv fuel status blk g = Some (st', blk', g') ->
    is_success st' = true ->
    exists F1 F2,
      F = F1 ++ blk' :: F2
      /\ registry_ok drv g' cur F2
      /\ (forall b q, ~ In b F -> content (dev g') b q = content (dev g) b q)
      /\ (forall b, max_pages (flash_blocks g' b) = max_pages (flash_blocks g b))
      /\ (forall b, ~ In b F -> bad_tail g <> Some b ->
                    next_block (flash_blocks g' b) = next_block (flash_blocks g b))
      /\ (forall t, bad_tail g' = Some t -> bad_tail g = Some t \/ In t F1).
Proof.
  intros Herase.
  induction F as [|x F' IH]; intros fuel status blk cur g st' blk' g' Hok Hst Hrun Hst'.
  - destruct Hok as [Hchain _ _ _ _]. cbn [free_chain] in Hchain.
    destruct fuel; cbn [flash_free_allocate_loop] in Hrun;
      rewrite Hst, Hchain, Z.eqb_refl in Hrun; cbn [negb andb] in Hrun;
      injection Hrun as <- _ _; congruence.
  - pose proof Hok as [Hchain Hnd _ _ _]. cbn [free_chain] in Hchain.
    destruct Hchain as (Hout & Hx & _).
    apply NoDup_cons_iff in Hnd. destruct Hnd as [Hnotin Hnd'].
    assert (Hcond : negb (is_success status)
                    && negb (out (flash_free_blocks g) =? BP_FLASH_INVALID_INDEX)
                    = true).
    { rewrite Hst, Hout. apply Z.eqb_neq in Hx. rewrite Hx. reflexivity. }
    destruct fuel as [|fuel]; cbn [flash_free_allocate_loop] in Hrun;
      rewrite Hcond in Hrun; [discriminate|].
    destruct (flash_free_allocate_body drv blk g) as [[st1 blk1] g1] eqn:Hbody.
    destruct (allocate_body_facts blk Herase Hok Hbody)
      as (Hok1 & Hc1 & Hm1 & Hn1 & Hs1 & Hf1).
    destruct (is_success st1) eqn:Es1.
    + (* allocated *)
      assert (Hdone : Some (st1, blk1, g1) = Some (st', blk', g')).
      { destruct fuel; cbn [flash_free_allocate_loop] in Hrun;
          rewrite Es1 in Hrun; cbn [negb andb] in Hrun; exact Hrun. }
      injection Hdone as <- <- <-.
      destruct (Hs1 eq_refl) as [Hblk Htail].
      exists [], F'. split; [rewrite Hblk; reflexivity|]. split; [exact Hok1|].
      split; [intros b q Hb; apply Hc1; intros ->; apply Hb; left; reflexivity|].
      split; [exact Hm1|]. split; [intros b _ Hb; apply Hn1; exact Hb|].
      intros t Ht. left. rewrite <- Htail. exact Ht.
    + destruct (Hf1 eq_refl) as [Hblk Htail].
      destruct (IH _ _ _ _ _ _ _ _ Hok1 Es1 Hrun Hst')
        as (F1 & F2 & HF & Hok2 & Hc2 & Hm2 & Hn2 & Ht2).
      exists (x :: F1), F2.
      split; [rewrite HF; reflexivity|]. split; [exact Hok2|].
      split.
      { intros b q Hb. rewrite Hc2 by (intros Hin; apply Hb; right; exact Hin).
        apply Hc1. intros ->. apply Hb. left. reflexivity. }
      split; [intros b; rewrite Hm2; apply Hm1|].
      split.
      { intros b Hb Hbt. rewrite Hn2.
        - apply Hn1. exact Hbt.
        - intros Hin. apply Hb. right. exact Hin.
        - rewrite Htail. intros H. injection H as ->. apply Hb. left. reflexivity. }
      intros t Ht. destruct (Ht2 t Ht) as [H|H].
      * rewrite Htail in H. injection H as <-. right. left. reflexivity.
      * right. right. exact H.
Qed.

Lemma laid_pages (k : nat) cont bs :
  forall a data idx left,
    laid drv k cont bs a data idx left -> Forall (page_ok bs) (chain_pages bs k a).
Proof.
  induction k as [|k IH]; intros a data idx left H; cbn [chain_pages]; [constructor|].
  cbn [laid] in H. destruct H as (_ & Hok & _ & Hrest).
  constructor; [exact Hok|]. eapply IH. exact Hrest.
Qed.

Lemma laid_read_pages (k : nat) cont bs :
  0 < page_size drv ->
  forall a data idx left,
    (Z.of_nat k - 1) * page_size drv < left <= Z.of_nat k * page_size drv ->
    0 <= idx ->
    laid drv k cont bs a data idx left ->
    read_pages drv k cont bs a left = slice data idx left.
Proof.
  intros Hps. induction k as [|k IH]; intros a data idx left Hk Hidx H.
  - cbn [read_pages]. unfold slice. replace (Z.to_nat left) with 0%nat by lia.
    reflexivity.
  - destruct (pages_step k Hps Hk) as [Hleft Hk'].
    pose proof (bytes_to_copy_range Hps Hleft) as Hn.
    cbn [laid] in H. destruct H as (Hc & _ & _ & Hrest).
    cbn [read_pages]. rewrite Hc.
    rewrite (IH _ data (idx + bytes_to_copy drv left) _ Hk'); [|lia|exact Hrest].
    rewrite slice_app by lia. f_equal. lia.
Qed.

Lemma registry_ok_set_dev (g : flash_globals D) (d : D) cur F :
  registry_ok drv g cur F -> registry_ok drv (set_dev g d) cur F.
Proof. intros [H1 H2 H3 H4 H5]. constructor; assumption. Qed.

Lemma link_behind_facts (g : flash_globals D) (cur nwb : Z) :
  cur <> nwb ->
  next_block (flash_blocks (link_behind g cur nwb) cur) = nwb
  /\ (forall b, max_pages (flash_blocks (link_behind g cur nwb) b)
                = max_pages (flash_blocks g b))
  /\ (forall b, b <> cur ->
                next_block (flash_blocks (link_behind g cur nwb) b)
                = next_block (flash_blocks g b))
  /\ dev (link_behind g cur nwb) = dev g
  /\ bad_tail (link_behind g cur nwb) = bad_tail g
  /\ flash_free_blocks (link_behind g cur nwb) = flash_free_blocks g.
Proof.
  intros Hne. unfold link_behind. cbn [flash_blocks set_blocks].
  split.
  { rewrite upd_other by exact Hne. rewrite upd_same. reflexivity. }
  split.
  { intros b. unfold upd. destruct (b =? nwb) eqn:E1.
    - apply Z.eqb_eq in E1. subst b. cbn [max_pages set_prev_block].
      destruct (nwb =? cur) eqn:E2; [|reflexivity].
      apply Z.eqb_eq in E2. congruence.
    - destruct (b =? cur) eqn:E2; [|reflexivity].
      apply Z.eqb_eq in E2. subst b. reflexivity. }
  split.
  { intros b Hb. unfold upd. apply Z.eqb_neq in Hb.
    destruct (b =? nwb) eqn:E1.
    - apply Z.eqb_eq in E1. subst b. cbn [next_block set_prev_block].
      rewrite Hb. reflexivity.
    - rewrite Hb. reflexivity. }
  repeat split.
Qed.

Lemma registry_ok_link (g : flash_globals D) (cur nwb : Z) (F1 F2 : list Z) :
  NoDup (F1 ++ nwb :: F2) ->
  ~ In cur (F1 ++ nwb :: F2) ->
  registry_ok drv g cur F2 ->
  (forall t, bad_tail g = Some t -> t <> nwb) ->
  registry_ok drv (link_behind g cur nwb) nwb F2.
Proof.
  intros Hnd Hcur [Hchain Hnd2 _ Hbad Hgeom] Htail.
  assert (Hne : cur <> nwb).
  { intros ->. apply Hcur. apply in_or_app. right. left. reflexivity. }
  assert (Hnwb : ~ In nwb F2).
  { apply NoDup_remove_2 in Hnd. intros Hin. apply Hnd.
    apply in_or_app. right. exact Hin. }
  assert (Hcur2 : ~ In cur F2).
  { intros Hin. apply Hcur. apply in_or_app. right. right. exact Hin. }
  destruct (link_behind_facts g Hne) as (_ & Hmax & Hnext & _ & Hbt & Hfree).
  constructor.
  - rewrite Hfree. apply free_chain_ext with (bs := flash_blocks g); [|exact Hchain].
    intros y Hy. apply Hnext. intros ->. contradiction.
  - exact Hnd2.
  - exact Hnwb.
  - intros t Ht. rewrite Hbt in Ht. split; [apply (Hbad t Ht)|apply (Htail t Ht)].
  - intros b Hb. rewrite Hmax. apply Hgeom. exact Hb.
Qed.

(** A write without page failure lays its bytes on the chain pages it
    walks, and leaves alone what is behind it. *)
Lemma write_loop_laid (k : nat) :
  write_law drv content -> erase_law drv content ->
  (forall a bytes d, fst (write drv a bytes d) = BP_SUCCESS) ->
  0 < page_size drv ->
  num_blocks drv < index_modulus ->
  forall fuel a data idx left (g : flash_globals D) F a' g',
    (Z.of_nat k - 1) * page_size drv < left <= Z.of_nat k * page_size drv ->
    0 <= idx -> idx + left <= Z.of_nat (length data) ->
    registry_ok drv g (block a) F ->
    (forall b, b = block a \/ In b F ->
               max_pages (flash_blocks g b) < index_modulus) ->
    0 <= page a < max_pages (flash_blocks g (block a)) ->
    block a < num_blocks drv ->
    flash_data_write_loop drv fuel a data idx left g = Some (BP_SUCCESS, a', g') ->
    laid drv k (content (dev g')) (flash_blocks g') a data idx left
    /\ a' = chain_end (flash_blocks g') k a
    /\ (forall b q, ~ In b F -> (b <> block a \/ q < page a) ->
                    content (dev g') b q = content (dev g) b q)
    /\ (forall b, max_pages (flash_blocks g' b) = max_pages (flash_blocks g b))
    /\ (forall b, ~ In b F -> b <> block a -> bad_tail g <> Some b ->
                  next_block (flash_blocks g' b) = next_block (flash_blocks g b)).
Proof.
  intros Hwrite Herase Hwok Hps Hnb.
  induction k as [|k IH];
    intros fuel a data idx left g F a' g' Hk Hidx Hlen Hok Hmaxok Hpg Hblk Hrun.
  - assert (Hle : (left >? 0) = false) by (rewrite Z.gtb_ltb; apply Z.ltb_ge; lia).
    destruct fuel; cbn [flash_data_write_loop] in Hrun; rewrite Hle in Hrun;
      injection Hrun as <- <-; cbn [laid chain_end]; auto.
  - destruct (pages_step k Hps Hk) as [Hleft Hk'].
    pose proof (bytes_to_copy_range Hps Hleft) as Hn.
    assert (Hgt : (left >? 0) = true) by (apply Z.gtb_lt; lia).
    destruct fuel as [|fuel]; cbn [flash_data_write_loop] in Hrun; rewrite Hgt in Hrun;
      [discriminate|].
    set (n := bytes_to_copy drv left) in *.
    pose proof (Hwok a (slice data idx n) (dev g)) as Hst.
    destruct (write drv a (slice data idx n) (dev g)) as [st dev1] eqn:Hw.
    cbn [fst] in Hst. subst st. cbn [is_success bp_status_eqb] in Hrun.
    destruct (Hwrite _ _ _ _ Hw) as [Hprefix Hothers].
    assert (Hslen : length (slice data idx n) = Z.to_nat n)
      by (apply slice_length; lia).
    rewrite Hslen in Hprefix.
    cbn [block page flash_blocks set_dev] in Hrun.
    rewrite (@to_index_small (page a + 1)) in Hrun
      by (pose proof (Hmaxok (block a) (or_introl eq_refl)); lia).
    pose proof (registry_ok_set_dev dev1 Hok) as Hok1.
    destruct (page a + 1 =? max_pages (flash_blocks g (block a))) eqn:Eend.
    + (* the block is full: a fresh block is chained behind it *)
      apply Z.eqb_eq in Eend.
      destruct (flash_free_allocate drv fuel BP_FLASH_INVALID_INDEX (set_dev g dev1))
        as [[[st2 nwb] g2]|] eqn:Ha; [|discriminate].
      destruct (is_success st2) eqn:Es2.
      2:{ injection Hrun as -> _ _. discriminate Es2. }
      unfold flash_free_allocate in Ha.
      assert (Hfs : is_success BP_FAILEDSTORE = false) by reflexivity.
      destruct (allocate_loop_chain Herase _ _ _ Hok1 Hfs Ha Es2)
        as (F1 & F2 & HF & Hok2 & Hc2 & Hm2 & Hn2 & Ht2).
      pose proof Hok as [_ HndF HcurF HbadF HgeomF].
      assert (HinF : In nwb F) by (rewrite HF; apply in_or_app; right; left; reflexivity).
      assert (Hne : block a <> nwb) by (intros E; apply HcurF; rewrite E; exact HinF).
      assert (Hsub : forall y, In y F2 -> In y F)
        by (intros y Hy; rewrite HF; apply in_or_app; right; right; exact Hy).
      assert (Htail2 : forall t, bad_tail g2 = Some t -> t <> nwb /\ t <> block a).
      { intros t Ht. destruct (Ht2 t Ht) as [H|H].
        - destruct (HbadF t H) as [Hnin Hc]. split; [|exact Hc].
          intros ->. contradiction.
        - split.
          + rewrite HF in HndF. apply NoDup_remove_2 in HndF. intros ->.
            apply HndF. apply in_or_app. left. exact H.
          + intros ->. apply HcurF. rewrite HF. apply in_or_app. left. exact H. }
      change (set_blocks g2 _) with (link_behind g2 (block a) nwb) in Hrun.
      destruct (link_behind_facts g2 Hne) as (Hl1 & Hl2 & Hl3 & Hl4 & Hl5 & _).
      assert (Hok3 : registry_ok drv (link_behind g2 (block a) nwb) nwb F2).
      { apply registry_ok_link with (F1 := F1).
        - rewrite <- HF. exact HndF.
        - rewrite <- HF. exact HcurF.
        - exact Hok2.
        - intros t Ht. apply (Htail2 t Ht). }
      destruct (HgeomF nwb HinF) as [Hnwb Hroom].
      apply IH with (F := F2) in Hrun; try assumption; try lia.
      * destruct Hrun as (Hlaid & Ha' & Hc & Hm & Hnx).
        cbn [block page] in Hc, Hnx.
        assert (Hmax' : forall b, max_pages (flash_blocks g' b)
                                  = max_pages (flash_blocks g b)).
        { intros b. rewrite Hm, Hl2, Hm2. reflexivity. }
        assert (Hnext' : next_block (flash_blocks g' (block a)) = nwb).
        { rewrite Hnx; [exact Hl1| | |].
          - intros Hin. apply HcurF. apply Hsub. exact Hin.
          - exact Hne.
          - rewrite Hl5. intros Ht. apply (Htail2 _ Ht). reflexivity. }
        assert (Hcn : chain_next (flash_blocks g') a = mk_addr nwb 0).
        { unfold chain_next. rewrite Hmax', Hnext'.
          replace (page a + 1 =? max_pages (flash_blocks g (block a))) with true
            by (symmetry; apply Z.eqb_eq; exact Eend).
          reflexivity. }
        split.
        { cbn [laid]. fold n. rewrite Hcn. split; [|split; [|split]].
          - rewrite Hc, Hl4, Hc2; [exact Hprefix|exact HcurF| |].
            + intros Hin. apply HcurF. apply Hsub. exact Hin.
            + left. exact Hne.
          - unfold page_ok. rewrite Hmax', Hnext'. split; [exact Hpg|].
            split; [apply Hmaxok; left; reflexivity|]. intros _.
            unfold BP_FLASH_INVALID_INDEX, index_modulus in *. lia.
          - exact Hblk.
          - exact Hlaid. }
        split; [cbn [chain_end]; rewrite Hcn; exact Ha'|].
        split.
        { intros b q Hb Hbq. rewrite Hc, Hl4, Hc2.
          - apply Hothers. lia.
          - exact Hb.
          - intros Hin. apply Hb. apply Hsub. exact Hin.
          - left. intros ->. contradiction. }
        split; [exact Hmax'|].
        intros b Hb Hbc Hbt. rewrite Hnx, Hl3, Hn2.
        -- reflexivity.
        -- exact Hb.
        -- exact Hbt.
        -- exact Hbc.
        -- intros Hin. apply Hb. apply Hsub. exact Hin.
        -- intros ->. contradiction.
        -- rewrite Hl5. intros Ht. destruct (Ht2 _ Ht) as [H|H].
           ++ apply Hbt. exact H.
           ++ apply Hb. rewrite HF. apply in_or_app. left. exact H.
      * intros b Hb. cbn [block] in Hb. rewrite Hl2, Hm2. apply Hmaxok. right.
        destruct Hb as [->|Hb]; [exact HinF|apply Hsub; exact Hb].
      * cbn [block page]. rewrite Hl2, Hm2. cbn [flash_blocks set_dev]. lia.
      * cbn [block]. lia.
    + (* the next page of the same block *)
      apply Z.eqb_neq in Eend.
      apply IH with (F := F) in Hrun; try assumption; try lia.
      * destruct Hrun as (Hlaid & Ha' & Hc & Hm & Hnx).
        cbn [block page flash_blocks dev set_dev] in Hc, Hm, Hnx.
        assert (Hcn : chain_next (flash_blocks g') a = mk_addr (block a) (page a + 1)).
        { unfold chain_next. rewrite Hm.
          replace (page a + 1 =? max_pages (flash_blocks g (block a))) with false
            by (symmetry; apply Z.eqb_neq; exact Eend).
          reflexivity. }
        pose proof Hok as [_ _ HcurF _ _].
        split.
        { cbn [laid]. fold n. rewrite Hcn. split; [|split; [|split]].
          - rewrite Hc; [exact Hprefix|exact HcurF|right; lia].
          - unfold page_ok. rewrite Hm. split; [exact Hpg|].
            split; [apply Hmaxok; left; reflexivity|]. intros E. contradiction.
          - exact Hblk.
          - exact Hlaid. }
        split; [cbn [chain_end]; rewrite Hcn; exact Ha'|].
        split.
        { intros b q Hb Hbq. rewrite Hc by (try assumption; lia).
          apply Hothers. lia. }
        split; [exact Hm|]. exact Hnx.
      * cbn [block page flash_blocks set_dev]. lia.
Qed.

Lemma poke_after (X T Y : list Z) :
  poke (X ++ T) (Z.of_nat (length X)) Y = X ++ Y ++ skipn (length Y) T.
Proof.
  unfold poke. rewrite Nat2Z.id.
  rewrite (@firstn_app_exact _ X T) by reflexivity.
  rewrite (@skipn_app_exact _ X T _ (length Y)) by reflexivity.
  reflexivity.
Qed.

Lemma slice_all (d : list Z) : slice d 0 (Z.of_nat (length d)) = d.
Proof. unfold slice. rewrite Nat2Z.id. cbn [Z.to_nat skipn]. apply firstn_all. Qed.

(** The write stage after the header and the two buffers were copied. *)
Lemma stage_image (ws d1 d2 : list Z) (h : flash_object_hdr_t) :
  exists tail,
    memcpy_opt (memcpy_opt (poke ws 0 (encode_hdr h)) hdr_size (Some d1)
                           (Z.of_nat (length d1)))
               (hdr_size + Z.of_nat (length d1)) (Some d2) (Z.of_nat (length d2))
    = encode_hdr h ++ d1 ++ d2 ++ tail.
Proof.
  unfold memcpy_opt. rewrite !slice_all.
  pose proof (encode_hdr_length h) as Hl.
  change (poke ws 0 (encode_hdr h))
    with (poke ([] ++ ws) (Z.of_nat (length (@nil Z))) (encode_hdr h)).
  rewrite poke_after. cbn [app].
  replace hdr_size with (Z.of_nat (length (encode_hdr h))) by (rewrite Hl; reflexivity).
  rewrite poke_after.
  rewrite <- Nat2Z.inj_add, <- length_app, app_assoc, poke_after.
  rewrite <- app_assoc. eexists. reflexivity.
Qed.

Lemma prefix_decode (buf : list Z) (ts hdl sz osid : Z) :
  0 <= ts < ulong_modulus -> 0 <= hdl < 2 ^ 31 -> 0 <= sz < 2 ^ 31 ->
  0 <= osid < ulong_modulus ->
  firstn 32 buf = encode_hdr (mk_hdr FLASH_OBJECT_SYNC ts (mk_object hdl sz osid)) ->
  decode_hdr buf = mk_hdr FLASH_OBJECT_SYNC ts (mk_object hdl sz osid).
Proof.
  intros Hts Hh Hsz Hsid Hpre.
  rewrite <- (firstn_skipn 32 buf), Hpre. apply decode_encode_hdr; assumption.
Qed.

Lemma firstn_firstn_le {A : Type} (n m : nat) (l : list A) :
  (n <= m)%nat -> firstn n (firstn m l) = firstn n l.
Proof. intros H. rewrite firstn_firstn. f_equal. lia. Qed.

(** A stage that starts with a header image and the payload shows that
    header and that payload. *)
Lemma stage_view (buf d : list Z) (ts hdl osid : Z) :
  0 <= ts < ulong_modulus -> 0 <= hdl < 2 ^ 31 ->
  Z.of_nat (length d) < 2 ^ 31 ->
  0 <= osid < ulong_modulus ->
  firstn (32 + length d) buf
  = encode_hdr (mk_hdr FLASH_OBJECT_SYNC ts
                       (mk_object hdl (Z.of_nat (length d)) osid)) ++ d ->
  decode_hdr buf
  = mk_hdr FLASH_OBJECT_SYNC ts (mk_object hdl (Z.of_nat (length d)) osid)
  /\ object_data buf = d.
Proof.
  intros Hts Hh Hsz Hsid Hpre.
  set (h := mk_hdr _ _ _) in *.
  pose proof (encode_hdr_length h) as Hel.
  assert (Hbuf : buf = encode_hdr h ++ d ++ skipn (32 + length d) buf).
  { rewrite app_assoc, <- Hpre. symmetry. apply firstn_skipn. }
  assert (Hdec : decode_hdr buf = h).
  { rewrite Hbuf. apply decode_encode_hdr; try assumption. lia. }
  split; [exact Hdec|].
  unfold object_data. rewrite Hdec. unfold h at 1. cbn [object size].
  unfold slice. rewrite Nat2Z.id. change (Z.to_nat hdr_size) with 32%nat.
  rewrite Hbuf.
  rewrite (@skipn_app_exact _ (encode_hdr h) _ 32 0) by (rewrite Hel; reflexivity).
  cbn [skipn]. apply firstn_app_exact. reflexivity.
Qed.

Lemma object_round_trip (fuel fuel' : nat) (fs fsr fs' fsr' : flash_store_t)
    (hdl : Z) (d1 d2 : list Z) (sysnow : Z) (g g2 g3 : flash_globals D)
    (F : list Z) (addr' : bp_flash_addr_t) (obj : option (bp_object_t * list Z)) :
  read_law drv content -> write_law drv content -> erase_law drv content ->
  (forall a bytes d, fst (write drv a bytes d) = BP_SUCCESS) ->
  hdr_size <= page_size drv < 2 ^ 31 ->
  num_blocks drv < index_modulus ->
  0 <= hdl < 2 ^ 31 ->
  hdr_size + Z.of_nat (length d1) + Z.of_nat (length d2) < 2 ^ 31 ->
  0 <= page (write_addr fs) ->
  (forall b, b = block (write_addr fs) \/ In b F ->
             max_pages (flash_blocks g b) < index_modulus) ->
  registry_ok drv g (block (write_addr fs)) F ->
  flash_object_write drv fuel fs hdl (Some d1) (Z.of_nat (length d1))
                     (Some d2) (Z.of_nat (length d2)) sysnow g
  = Some (BP_SUCCESS, fs', g2) ->
  flash_object_read drv fuel' fsr hdl (write_addr fs) g2
  = Some (BP_SUCCESS, addr', obj, fsr', g3) ->
  obj = Some (mk_object hdl (Z.of_nat (length d1) + Z.of_nat (length d2))
                        (to_ulong (FLASH_GET_SID drv (write_addr fs))),
              d1 ++ d2).
Proof.
  intros Hread Hwrite Herase Hwok Hps Hnb Hhdl Hsize Hpg0 Hmaxok Hok Hw Hr.
  assert (Hhs : hdr_size = 32) by reflexivity.
  unfold flash_object_write in Hw.
  set (n1 := Z.of_nat (length d1)) in *. set (n2 := Z.of_nat (length d2)) in *.
  set (N := hdr_size + n1 + n2) in *.
  assert (Hn1 : 0 <= n1) by (unfold n1; lia).
  assert (Hn2 : 0 <= n2) by (unfold n2; lia).
  set (a0 := write_addr fs) in *.
  set (h := mk_hdr FLASH_OBJECT_SYNC (to_ulong sysnow)
                   (mk_object hdl (n1 + n2) (to_ulong (FLASH_GET_SID drv a0)))).
  assert (Hum : ulong_modulus = 2 ^ 64) by reflexivity.
  assert (Hts : 0 <= to_ulong sysnow < ulong_modulus)
    by (apply Z.mod_pos_bound; rewrite Hum; lia).
  assert (Hsid : 0 <= to_ulong (FLASH_GET_SID drv a0) < ulong_modulus)
    by (apply Z.mod_pos_bound; rewrite Hum; lia).
  (* the write *)
  rewrite (@to_ulong_small N) in Hw by lia.
  rewrite (@to_int_small N) in Hw by lia.
  rewrite (@to_int_small (n1 + n2)) in Hw by lia.
  destruct (_ && _) in Hw; [|discriminate].
  fold a0 in Hw. fold h in Hw.
  destruct (stage_image (write_stage fs) d1 d2 h) as [tail Hstage].
  fold n1 n2 in Hstage. rewrite Hstage in Hw.
  set (stage3 := encode_hdr h ++ d1 ++ d2 ++ tail) in *.
  pose proof (encode_hdr_length h) as Hel.
  assert (Hlen3 : N <= Z.of_nat (length stage3)).
  { unfold stage3. rewrite !length_app, Hel. unfold N, n1, n2. lia. }
  destruct (flash_data_write drv fuel a0 stage3 N g) as [[[st a'] gw]|] eqn:Hdw;
    [|discriminate].
  injection Hw as -> _ ->.
  unfold flash_data_write in Hdw.
  destruct (addr_invalid drv a0 g) eqn:Hinv; [discriminate|].
  unfold addr_invalid in Hinv. apply orb_false_iff in Hinv.
  destruct Hinv as [Hpg Hblk].
  rewrite Z.geb_leb in Hpg, Hblk. apply Z.leb_gt in Hpg, Hblk.
  assert (Hps0 : 0 < page_size drv) by lia.
  pose proof (ceil_pages N Hps0) as Hceil.
  set (k := pages_for (page_size drv) N).
  assert (Hk : Z.of_nat k = (N + page_size drv - 1) / page_size drv).
  { unfold k, pages_for. apply Z2Nat.id. apply Z.div_pos; lia. }
  rewrite <- Hk in Hceil.
  destruct (@write_loop_laid k Hwrite Herase Hwok Hps0 Hnb fuel a0 stage3 0 N g F a' g2)
    as (Hlaid & _ & _ & Hmax2 & _); try assumption; try lia.
  (* the read *)
  assert (Hk1 : (1 <= k)%nat) by nia.
  destruct k as [|k0]; [lia|].
  destruct (pages_step k0 Hps0 Hceil) as [HN Hk0].
  pose proof (bytes_to_copy_range Hps0 HN) as Hn0.
  cbn [laid] in Hlaid. destruct Hlaid as (Hc0 & Hok0 & _ & Hrest).
  set (n0 := bytes_to_copy drv N) in *.
  unfold flash_object_read in Hr.
  destruct (negb (stage_locked fsr)); [|discriminate].
  destruct (flash_data_read drv fuel' a0 (read_stage fsr) 0 (page_size drv) g2)
    as [[[[st1 addr1] stage1] gr]|] eqn:Hr1; [|discriminate].
  destruct (is_success st1) eqn:Est1.
  2:{ rewrite Est1 in Hr. injection Hr as -> _ _ _ _. discriminate Est1. }
  apply is_success_true in Est1. subst st1.
  pose proof Hr1 as Hreg. apply data_read_registry in Hreg.
  destruct Hreg as (Hblocks & _).
  unfold flash_data_read in Hr1.
  destruct (addr_invalid drv a0 g2); [discriminate|].
  destruct (@read_loop_pages 1 Hread Hps0 fuel' a0 (read_stage fsr) 0 (page_size drv)
              g2 addr1 stage1 gr)
    as (Haddr1 & Hstage1 & Hcont1 & Hlen1); try assumption; try lia.
  { cbn [chain_pages]. constructor; [exact Hok0|constructor]. }
  cbn [chain_end read_pages] in Haddr1, Hstage1, Hlen1.
  rewrite app_nil_r in Hstage1, Hlen1.
  assert (Hbps : bytes_to_copy drv (page_size drv) = page_size drv).
  { unfold bytes_to_copy. rewrite Z.ltb_irrefl. reflexivity. }
  rewrite Hbps in Hstage1, Hlen1.
  set (P := firstn (Z.to_nat (page_size drv)) (content (dev g2) (block a0) (page a0)))
    in *.
  rewrite poke_zero_prefix in Hstage1.
  assert (Hfull : slice stage3 0 N = encode_hdr h ++ d1 ++ d2).
  { unfold slice, stage3. cbn [Z.to_nat skipn].
    rewrite !app_assoc. apply firstn_app_exact.
    rewrite length_app. rewrite length_app. rewrite Hel. unfold N, n1, n2. lia. }
  assert (Hview : forall buf,
             firstn (Z.to_nat N) buf = slice stage3 0 N ->
             Some (object (decode_hdr buf), object_data buf)
             = Some (mk_object hdl (n1 + n2) (to_ulong (FLASH_GET_SID drv a0)),
                     d1 ++ d2)).
  { intros buf Hbuf. rewrite Hfull in Hbuf.
    assert (Hsz : n1 + n2 = Z.of_nat (length (d1 ++ d2)))
      by (rewrite length_app; unfold n1, n2; lia).
    destruct (@stage_view buf (d1 ++ d2) (to_ulong sysnow) hdl
                (to_ulong (FLASH_GET_SID drv a0))) as [Hdec Hdata];
      try assumption; try lia.
    - rewrite <- Hsz. fold h. rewrite <- Hbuf. f_equal. lia.
    - rewrite Hdec, Hdata, <- Hsz. reflexivity. }
  assert (Hpre1 : firstn (Z.to_nat n0) stage1 = slice stage3 0 n0).
  { rewrite Hstage1, firstn_app.
    replace (Z.to_nat n0 - length P)%nat with 0%nat by lia.
    cbn [firstn]. rewrite app_nil_r. unfold P.
    rewrite firstn_firstn_le by lia. exact Hc0. }
  assert (Hdec1 : decode_hdr stage1 = h).
  { apply prefix_decode; try assumption; try lia.
    assert (H32 : (32 <= Z.to_nat n0)%nat).
    { unfold n0, bytes_to_copy. destruct (N <? page_size drv); lia. }
    rewrite <- (firstn_firstn_le stage1 H32), Hpre1.
    unfold slice. cbn [Z.to_nat skipn]. rewrite firstn_firstn_le by exact H32.
    unfold stage3. apply firstn_app_exact. symmetry. apply encode_hdr_length. }
  rewrite Hdec1 in Hr. unfold h in Hr. cbn [object size handle sync] in Hr.
  rewrite (@to_ulong_small (page_size drv - hdr_size)) in Hr by lia.
  rewrite (@to_int_small (page_size drv - hdr_size)) in Hr by lia.
  destruct (_ && _) in Hr; [|discriminate].
  destruct (n1 + n2 - (page_size drv - hdr_size) >? 0) eqn:Erem.
  - (* the object goes on beyond its first page *)
    apply Z.gtb_lt in Erem.
    assert (Hn0ps : n0 = page_size drv).
    { unfold n0, bytes_to_copy. destruct (N <? page_size drv) eqn:E; [|reflexivity].
      apply Z.ltb_lt in E. unfold N in E. lia. }
    replace (n1 + n2 - (page_size drv - hdr_size)) with (N - n0) in Hr
      by (unfold N; lia).
    destruct (flash_data_read drv fuel' addr1 stage1 (page_size drv) (N - n0) gr)
      as [[[[st2 addr2] stage2] gr2]|] eqn:Hr2; [|discriminate Hr].
    destruct (is_success st2) eqn:Est2; [|injection Hr as -> _ _ _ _; discriminate Est2].
    apply is_success_true in Est2. subst st2.
    injection Hr as _ <- _ _.
    unfold flash_data_read in Hr2.
    destruct (addr_invalid drv addr1 gr); [discriminate|].
    destruct (@read_loop_pages k0 Hread Hps0 fuel' addr1 stage1 (page_size drv)
                (N - n0) gr addr2 stage2 gr2)
      as (_ & Hstage2 & _ & Hlen2); try assumption; try lia.
    { rewrite Hstage1, length_app. lia. }
    { rewrite Hblocks, Haddr1. eapply laid_pages. exact Hrest. }
    rewrite Hblocks, Haddr1 in Hstage2, Hlen2.
    rewrite (@read_pages_ext k0 _ _ (flash_blocks g2) Hcont1) in Hstage2, Hlen2.
    rewrite (@laid_read_pages k0 _ _ Hps0 _ stage3 (0 + n0) (N - n0) Hk0) in Hstage2, Hlen2;
      try lia; try exact Hrest.
    apply Hview.
    rewrite Hstage2, Hstage1.
    replace (page_size drv) with (Z.of_nat (length P)) at 1 by lia.
    rewrite poke_after, app_assoc.
    assert (HP : P = slice stage3 0 n0).
    { rewrite <- Hc0. unfold P. rewrite Hn0ps. reflexivity. }
    rewrite HP at 1. rewrite slice_app by lia.
    replace (n0 + (N - n0)) with N by lia.
    apply firstn_app_exact. symmetry. apply slice_length; lia.
  - (* the object fits its first page *)
    rewrite Z.gtb_ltb in Erem. apply Z.ltb_ge in Erem.
    cbn [is_success bp_status_eqb] in Hr. injection Hr as _ <- _ _.
    assert (Hn0N : n0 = N).
    { unfold n0, bytes_to_copy. destruct (N <? page_size drv) eqn:E; [reflexivity|].
      apply Z.ltb_ge in E. unfold N in *. lia. }
    apply Hview. rewrite <- Hn0N. exact Hpre1.
Qed.

Lemma object_write_read_addr fuel fs hdl d1 n1 d2 n2 now (g : flash_globals D)
    st fs' g' :
  flash_object_write drv fuel fs hdl d1 n1 d2 n2 now g = Some (st, fs', g') ->
  read_addr fs' = read_addr fs.
Proof.
  unfold flash_object_write. destruct (_ && _).
  - destruct (flash_data_write drv fuel _ _ _ g) as [[[st0 a] g0]|]; [|discriminate].
    intros H. injection H as _ <- _. reflexivity.
  - intros H. injection H as _ <- _. reflexivity.
Qed.

Lemma registry_ok_switch (g : flash_globals D) (cur blk : Z) (F2 : list Z) :
  registry_ok drv g cur F2 ->
  ~ In blk F2 ->
  (forall t, bad_tail g = Some t -> t <> blk) ->
  registry_ok drv g blk F2.
Proof.
  intros [H1 H2 H3 H4 H5] Hblk Htail. constructor; try assumption.
  intros t Ht. split; [apply (H4 t Ht)|apply (Htail t Ht)].
Qed.

(** C1, amended.  Take a store whose queue is empty (read cursor equal to
    write cursor), a driver that keeps the laws above and whose page writes
    succeed, and a well-formed free list that holds neither the store's
    write block nor the tail of the bad list.  If an enqueue of the payload
    [d1 ++ d2] succeeds and the dequeue that follows succeeds, the object
    handed back holds exactly the bytes [d1 ++ d2]; its header carries their
    length as size, the handle of the store, and the SID of the address the
    object starts at. *)
Theorem enqueue_dequeue_round_trip (fuel fuel' : nat) (hdl : Z) (d1 d2 : list Z)
    (sysnow : Z) (s s1 s2 : flash_state D) (F : list Z)
    (obj : option (bp_object_t * list Z)) :
  read_law drv content -> write_law drv content -> erase_law drv content ->
  (forall a bytes d, fst (write drv a bytes d) = BP_SUCCESS) ->
  hdr_size <= page_size drv < 2 ^ 31 ->
  num_blocks drv < index_modulus ->
  0 <= hdl < 2 ^ 31 ->
  hdr_size + Z.of_nat (length d1) + Z.of_nat (length d2) < 2 ^ 31 ->
  read_addr (flash_stores s hdl) = write_addr (flash_stores s hdl) ->
  0 <= page (write_addr (flash_stores s hdl)) ->
  (forall b, b = block (write_addr (flash_stores s hdl)) \/ In b F ->
             max_pages (flash_blocks (glob s) b) < index_modulus) ->
  registry_ok drv (glob s) (block (write_addr (flash_stores s hdl))) F ->
  bplib_store_flash_enqueue drv fuel hdl (Some d1) (Z.of_nat (length d1))
                            (Some d2) (Z.of_nat (length d2)) sysnow s
  = Some (BP_SUCCESS, s1) ->
  bplib_store_flash_dequeue drv fuel' hdl s1 = Some (BP_SUCCESS, obj, s2) ->
  obj = Some (mk_object hdl (Z.of_nat (length d1) + Z.of_nat (length d2))
                        (to_ulong (FLASH_GET_SID drv
                                     (read_addr (flash_stores s1 hdl)))),
              d1 ++ d2).
Proof.
  intros Hread Hwrite Herase Hwok Hps Hnb Hhdl Hsize Hempty Hpg0 Hmaxok Hok Henq Hdeq.
  unfold bplib_store_flash_enqueue in Henq.
  set (fs := flash_stores s hdl) in *.
  (* the store and the globals when the object is written *)
  assert (Hstart : exists fs2 g1 F',
    read_addr fs2 = write_addr fs2
    /\ 0 <= page (write_addr fs2)
    /\ (forall b, b = block (write_addr fs2) \/ In b F' ->
                  max_pages (flash_blocks g1 b) < index_modulus)
    /\ registry_ok drv g1 (block (write_addr fs2)) F'
    /\ match flash_object_write drv fuel fs2 hdl (Some d1) (Z.of_nat (length d1))
                               (Some d2) (Z.of_nat (length d2)) sysnow g1 with
       | Some (status2, fs3, g2) =>
           Some (status2,
                 put_store s g2 hdl
                   (if is_success status2
                    then set_object_count fs3 (object_count fs3 + 1) else fs3))
       | None => None
       end = Some (BP_SUCCESS, s1)).
  { destruct (block (write_addr fs) =? BP_FLASH_INVALID_INDEX) eqn:Einv.
    - destruct (flash_free_allocate drv fuel (block (write_addr fs)) (glob s))
        as [[[st blk] g1]|] eqn:Ha; [|discriminate].
      destruct (is_success st) eqn:Est; cbn [negb] in Henq; [|discriminate].
      unfold flash_free_allocate in Ha.
      assert (Hfs : is_success BP_FAILEDSTORE = false) by reflexivity.
      destruct (allocate_loop_chain Herase _ _ _ Hok Hfs Ha Est)
        as (F1 & F2 & HF & Hok2 & _ & Hm2 & _ & Ht2).
      pose proof Hok as [_ HndF _ HbadF _].
      cbn [read_addr set_write_addr] in Henq.
      rewrite Hempty, Einv in Henq.
      exists (set_read_addr (set_write_addr fs (mk_addr blk (page (write_addr fs))))
                            (mk_addr blk (page (write_addr fs)))), g1, F2.
      split; [reflexivity|]. split; [exact Hpg0|].
      split.
      { intros b Hb. cbn [write_addr set_read_addr set_write_addr block] in Hb.
        rewrite Hm2. apply Hmaxok. right. rewrite HF. apply in_or_app. right.
        destruct Hb as [->|Hb]; [left; reflexivity|right; exact Hb]. }
      split; [|exact Henq].
      cbn [write_addr set_read_addr set_write_addr block].
      rewrite HF in HndF. apply NoDup_remove_2 in HndF.
      apply registry_ok_switch with (cur := block (write_addr fs)); [exact Hok2| |].
      + intros Hin. apply HndF. apply in_or_app. right. exact Hin.
      + intros t Ht. destruct (Ht2 t Ht) as [H|H].
        * destruct (HbadF t H) as [Hnin _]. intros ->. apply Hnin.
          rewrite HF. apply in_or_app. right. left. reflexivity.
        * intros ->. apply HndF. apply in_or_app. left. exact H.
    - cbn [is_success bp_status_eqb negb] in Henq.
      rewrite Hempty, Einv in Henq.
      exists fs, (glob s), F. auto. }
  clear Henq. destruct Hstart as (fs2 & g1 & F' & Hrw & Hpg & Hmax1 & Hok1 & Henq).
  destruct (flash_object_write drv fuel fs2 hdl (Some d1) (Z.of_nat (length d1))
                               (Some d2) (Z.of_nat (length d2)) sysnow g1)
    as [[[st2 fs3] g2]|] eqn:Hw; [|discriminate].
  injection Henq as -> <-.
  pose proof (object_write_read_addr _ _ _ _ _ _ _ _ _ Hw) as Hra.
  cbn [is_success bp_status_eqb] in Hdeq |- *.
  unfold bplib_store_flash_dequeue in Hdeq.
  unfold put_store in Hdeq |- *. cbn [flash_stores glob] in Hdeq |- *.
  rewrite upd_same in Hdeq |- *.
  cbn [read_addr write_addr set_object_count] in Hdeq |- *.
  rewrite Hra, Hrw in Hdeq |- *.
  destruct (_ || _) in Hdeq; [|discriminate].
  match type of Hdeq with
  | context [flash_object_read drv fuel' ?fsr hdl (write_addr fs2) g2] =>
      destruct (flash_object_read drv fuel' fsr hdl (write_addr fs2) g2)
        as [[[[[st addr1] obj'] fsr1] g3]|] eqn:Hr; [|discriminate]
  end.
  destruct (is_success st) eqn:Est; cbn [negb] in Hdeq.
  - apply is_success_true in Est. subst st. injection Hdeq as <- _.
    eapply object_round_trip; eauto.
  - destruct (flash_object_scan drv fuel' _ g3) as [[[st3 addr3] g4]|]; [|discriminate].
    injection Hdeq as -> _ _. discriminate Est.
Qed.

End RoundTrip.

(** * The free list as a queue *)

Section FreeList.
Variable D : Type.
Variable drv : bp_flash_driver_t D.

Lemma last_in (l : list Z) (d : Z) : l <> [] -> In (last l d) l.
Proof.
  induction l as [|x l IH]; intros H; [congruence|].
  destruct l as [|y l']; [left; reflexivity|].
  right. apply IH. discriminate.
Qed.

Lemma free_chain_snoc bs bs' (F : list Z) (b : Z) :
  b <> BP_FLASH_INVALID_INDEX ->
  ~ In b F ->
  NoDup F ->
  (forall y, In y F -> y <> last F BP_FLASH_INVALID_INDEX ->
             next_block (bs' y) = next_block (bs y)) ->
  (F <> [] -> next_block (bs' (last F BP_FLASH_INVALID_INDEX)) = b) ->
  next_block (bs' b) = BP_FLASH_INVALID_INDEX ->
  forall o, free_chain bs o F ->
            free_chain bs' (if o =? BP_FLASH_INVALID_INDEX then b else o) (F ++ [b]).
Proof.
  intros Hb. induction F as [|x F IH]; intros Hnin Hnd Hsame Hlast Hnext o Hc.
  - cbn [free_chain] in Hc. subst o. cbn. repeat split; auto.
  - cbn [free_chain] in Hc. destruct Hc as (-> & Hx & Hc).
    apply Z.eqb_neq in Hx. rewrite Hx. apply Z.eqb_neq in Hx.
    apply NoDup_cons_iff in Hnd. destruct Hnd as [HxF Hnd].
    cbn [app free_chain]. split; [reflexivity|]. split; [exact Hx|].
    destruct F as [|y F'].
    + cbn [free_chain] in Hc. cbn [app free_chain].
      cbn [last] in Hlast. rewrite Hlast by discriminate.
      repeat split; auto.
    + assert (Hlx : last (x :: y :: F') BP_FLASH_INVALID_INDEX
                    = last (y :: F') BP_FLASH_INVALID_INDEX) by reflexivity.
      assert (Hxl : x <> last (y :: F') BP_FLASH_INVALID_INDEX).
      { intros E. apply HxF. rewrite E. apply last_in. discriminate. }
      rewrite Hlx in Hsame, Hlast.
      rewrite (Hsame x) by (auto using in_eq).
      pose proof Hc as Hc'. cbn [free_chain] in Hc'. destruct Hc' as (Hy & Hyi & _).
      specialize (IH (fun H => Hnin (or_intror H)) Hnd
                     (fun z Hz => Hsame z (or_intror Hz))
                     (fun _ => Hlast ltac:(discriminate)) Hnext _ Hc).
      rewrite Hy in IH |- *. apply Z.eqb_neq in Hyi. rewrite Hyi in IH.
      exact IH.
Qed.

Lemma free_chain_not_invalid bs (F : list Z) :
  forall o, free_chain bs o F -> ~ In BP_FLASH_INVALID_INDEX F.
Proof.
  induction F as [|x F IH]; intros o Hc; [intros []|].
  cbn [free_chain] in Hc. destruct Hc as (_ & Hx & Hc).
  intros [E|Hin]; [congruence|]. exact (IH _ Hc Hin).
Qed.

Lemma free_chain_out bs (F : list Z) (o : Z) :
  free_chain bs o F -> (o =? BP_FLASH_INVALID_INDEX) = true <-> F = [].
Proof.
  destruct F as [|x F]; cbn [free_chain].
  - intros ->. split; reflexivity.
  - intros (-> & Hx & _). split; [|discriminate].
    intros E. apply Z.eqb_eq in E. contradiction.
Qed.

(** [flash_free_reclaim] of a block the driver finds good. *)
Lemma reclaim_good (g : flash_globals D) (F : list Z) (b : Z) :
  free_list_ok g F ->
  b <> BP_FLASH_INVALID_INDEX ->
  ~ In b F ->
  bad_tail g <> Some b ->
  isbad drv b (dev g) = false ->
  fst (flash_free_reclaim drv b g) = BP_SUCCESS
  /\ free_list_ok (snd (flash_free_reclaim drv b g)) (F ++ [b])
  /\ flash_bad_blocks (snd (flash_free_reclaim drv b g)) = flash_bad_blocks g
  /\ flash_used_block_count (snd (flash_free_reclaim drv b g))
     = flash_used_block_count g - 1
  /\ flash_error_count (snd (flash_free_reclaim drv b g)) = flash_error_count g
  /\ dev (snd (flash_free_reclaim drv b g)) = dev g
  /\ max_pages (flash_blocks (snd (flash_free_reclaim drv b g)) b)
     = pages_per_block drv
  /\ (forall i, page_use (flash_blocks (snd (flash_free_reclaim drv b g)) b) i = 255).
Proof.
  intros [Hchain Hnd Hcount Hin Hbad] Hb Hnin Hbt Hgood.
  unfold flash_free_reclaim. rewrite Hgood. cbn [negb].
  unfold flash_block_list_add.
  pose proof (free_chain_out _ _ _ Hchain) as Hout.
  destruct (out (flash_free_blocks g) =? BP_FLASH_INVALID_INDEX) eqn:Eo.
  - (* the list was empty *)
    assert (HF : F = []) by (apply Hout; reflexivity). subst F.
    cbn [fst snd]. split; [reflexivity|].
    split.
    { constructor; cbn [flash_blocks flash_free_blocks out in_ count app length].
      - cbn [free_chain]. rewrite upd_same. cbn [set_prev_block next_block].
        rewrite upd_same. cbn. auto.
      - repeat constructor. intros [].
      - rewrite Hcount. reflexivity.
      - intros _. reflexivity.
      - unfold bad_tail. cbn [flash_bad_blocks]. intros t Ht [E|[]]. subst t.
        apply Hbt. exact Ht. }
    cbn [flash_bad_blocks flash_used_block_count flash_error_count dev flash_blocks].
    rewrite !upd_same. cbn. repeat split; reflexivity.
  - assert (HF : F <> []).
    { intros E. apply Hout in E. congruence. }
    specialize (Hin HF).
    assert (HlF : In (in_ (flash_free_blocks g)) F) by (rewrite Hin; apply last_in; exact HF).
    assert (Hlb : in_ (flash_free_blocks g) <> b) by (intros E; apply Hnin; rewrite <- E; exact HlF).
    cbn [fst snd]. split; [reflexivity|].
    split.
    { constructor; cbn [flash_blocks flash_free_blocks out in_ count].
      - match goal with
        | |- free_chain ?bs' _ _ =>
            pose proof (fun H1 H2 H3 =>
                          @free_chain_snoc (flash_blocks g) bs' F b Hb Hnin Hnd
                                           H1 H2 H3 _ Hchain) as S
        end.
        rewrite Eo in S. apply S.
        + intros y Hy Hyl. rewrite <- Hin in Hyl.
          rewrite upd_other by (intros ->; contradiction).
          rewrite upd_other by exact Hyl.
          rewrite upd_other by (intros ->; contradiction). reflexivity.
        + intros _. rewrite <- Hin.
          rewrite upd_other by exact Hlb. rewrite upd_same. reflexivity.
        + rewrite upd_same. cbn [set_prev_block next_block].
          rewrite upd_other by congruence. rewrite upd_same. reflexivity.
      - apply NoDup_app; [exact Hnd|repeat constructor; intros []|].
        intros y Hy [<-|[]]. contradiction.
      - rewrite Hcount, length_app. cbn [length]. lia.
      - intros _. symmetry. apply last_last.
      - unfold bad_tail. cbn [flash_bad_blocks]. intros t Ht Hi.
        apply in_app_or in Hi. destruct Hi as [Hi|[<-|[]]].
        + exact (Hbad t Ht Hi).
        + apply Hbt. exact Ht. }
    cbn [flash_bad_blocks flash_used_block_count flash_error_count dev flash_blocks].
    rewrite !upd_same. cbn [set_prev_block max_pages page_use].
    rewrite upd_other by congruence. rewrite upd_same. cbn. repeat split; reflexivity.
Qed.

(** [flash_free_reclaim] of a block the driver reports bad. *)
Lemma reclaim_bad (g : flash_globals D) (F : list Z) (b : Z) :
  free_list_ok g F ->
  b <> BP_FLASH_INVALID_INDEX ->
  ~ In b F ->
  isbad drv b (dev g) = true ->
  fst (flash_free_reclaim drv b g) = BP_ERROR
  /\ free_list_ok (snd (flash_free_reclaim drv b g)) F
  /\ bad_tail (snd (flash_free_reclaim drv b g)) = Some b
  /\ count (flash_bad_blocks (snd (flash_free_reclaim drv b g)))
     = count (flash_bad_blocks g) + 1
  /\ flash_used_block_count (snd (flash_free_reclaim drv b g))
     = flash_used_block_count g - 1
  /\ flash_error_count (snd (flash_free_reclaim drv b g)) = flash_error_count g
  /\ dev (snd (flash_free_reclaim drv b g)) = dev g.
Proof.
  intros [Hchain Hnd Hcount Hin Hbad] Hb Hnin Hisbad.
  unfold flash_free_reclaim. rewrite Hisbad. cbn [negb].
  destruct (flash_block_list_add (flash_bad_blocks g) _ b) as [l bs2] eqn:Hadd.
  cbn [fst snd]. split; [reflexivity|].
  pose proof (list_add_facts (flash_bad_blocks g)
                (upd (flash_blocks g) b
                   (mk_block BP_FLASH_INVALID_INDEX BP_FLASH_INVALID_INDEX
                             (pages_per_block drv) (fun _ => 255))) b) as Hf.
  rewrite Hadd in Hf. cbn [fst snd] in Hf. destruct Hf as (Hi & Ho & _ & Hn).
  assert (Hl : count l = count (flash_bad_blocks g) + 1).
  { unfold flash_block_list_add in Hadd.
    destruct (out (flash_bad_blocks g) =? BP_FLASH_INVALID_INDEX);
      injection Hadd as <- _; reflexivity. }
  split.
  { constructor; cbn [flash_blocks flash_free_blocks]; try assumption.
    - apply free_chain_ext with (bs := flash_blocks g); [|exact Hchain].
      intros y Hy. rewrite Hn.
      + apply f_equal. apply upd_other. intros ->. contradiction.
      + destruct (out (flash_bad_blocks g) =? BP_FLASH_INVALID_INDEX) eqn:Eo;
          [left; reflexivity|right].
        intros ->. apply (Hbad (in_ (flash_bad_blocks g))); [|exact Hy].
        unfold bad_tail. rewrite Eo. reflexivity.
    - unfold bad_tail. cbn [flash_bad_blocks]. intros t Ht.
      specialize (Ho Hb). apply Z.eqb_neq in Ho. rewrite Ho, Hi in Ht.
      injection Ht as <-. exact Hnin. }
  cbn [flash_bad_blocks flash_used_block_count flash_error_count dev].
  split.
  { unfold bad_tail. cbn [flash_bad_blocks]. specialize (Ho Hb).
    apply Z.eqb_neq in Ho. rewrite Ho, Hi. reflexivity. }
  repeat split; try reflexivity. exact Hl.
Qed.

(** One pass of the erase loop on the head of the free list. *)
Lemma allocate_body_free_list (blk x : Z) (F : list Z) (g : flash_globals D) :
  free_list_ok g (x :: F) ->
  forall st blk1 g1,
    flash_free_allocate_body drv blk g = (st, blk1, g1) ->
    st = fst (erase drv x (dev g))
    /\ dev g1 = snd (erase drv x (dev g))
    /\ free_list_ok g1 F
    /\ (is_success st = true ->
        blk1 = x
        /\ flash_blocks g1 = flash_blocks g
        /\ flash_bad_blocks g1 = flash_bad_blocks g
        /\ flash_error_count g1 = flash_error_count g
        /\ flash_used_block_count g1 = flash_used_block_count g + 1)
    /\ (is_success st = false ->
        blk1 = blk
        /\ count (flash_bad_blocks g1) = count (flash_bad_blocks g) + 1
        /\ flash_error_count g1 = flash_error_count g + 1
        /\ flash_used_block_count g1 = flash_used_block_count g).
Proof.
  intros [Hchain Hnd Hcount Hin Hbad] st blk1 g1 Hbody.
  cbn [free_chain] in Hchain. destruct Hchain as (Hout & Hx & Hchain).
  apply NoDup_cons_iff in Hnd. destruct Hnd as [HxF Hnd].
  unfold flash_free_allocate_body in Hbody. rewrite Hout in Hbody.
  destruct (erase drv x (dev g)) as [status dev1] eqn:He.
  assert (Hin' : F <> [] -> in_ (flash_free_blocks g) = last F BP_FLASH_INVALID_INDEX).
  { intros HF. rewrite Hin by discriminate. destruct F; [congruence|reflexivity]. }
  assert (Hcount' : count (flash_free_blocks g) - 1 = Z.of_nat (length F)).
  { rewrite Hcount. cbn [length]. lia. }
  destruct (is_success status) eqn:Es.
  - injection Hbody as <- <- <-.
    cbn [flash_free_blocks flash_blocks out in_ count dev flash_bad_blocks
         flash_error_count flash_used_block_count fst snd].
    rewrite Hout. split; [reflexivity|]. split; [reflexivity|]. split.
    + constructor; cbn [flash_free_blocks flash_blocks out in_ count]; auto.
      intros t Ht Hi. apply (Hbad t); [exact Ht|right; exact Hi].
    + split; [intros _; repeat split; reflexivity|intros H; congruence].
  - destruct (flash_block_list_add (flash_bad_blocks g) (flash_blocks g) x)
      as [l bs1] eqn:Hadd.
    pose proof (list_add_facts (flash_bad_blocks g) (flash_blocks g) x) as Hf.
    rewrite Hadd in Hf. cbn [fst snd] in Hf. destruct Hf as (Hi & Ho & _ & Hn).
    assert (Hl : count l = count (flash_bad_blocks g) + 1).
    { unfold flash_block_list_add in Hadd.
      destruct (out (flash_bad_blocks g) =? BP_FLASH_INVALID_INDEX);
        injection Hadd as <- _; reflexivity. }
    assert (Hkeep : forall y, In y (x :: F) -> next_block (bs1 y) = next_block (flash_blocks g y)).
    { intros y Hy. apply Hn.
      destruct (out (flash_bad_blocks g) =? BP_FLASH_INVALID_INDEX) eqn:Eo;
        [left; reflexivity|right].
      intros ->. apply (Hbad (in_ (flash_bad_blocks g))); [|exact Hy].
      unfold bad_tail. rewrite Eo. reflexivity. }
    injection Hbody as <- <- <-.
    cbn [flash_free_blocks flash_blocks out in_ count dev flash_bad_blocks
         flash_error_count flash_used_block_count fst snd].
    rewrite Hout. split; [reflexivity|]. split; [reflexivity|]. split.
    + constructor; cbn [flash_free_blocks flash_blocks out in_ count]; auto.
      * rewrite Hkeep by (left; reflexivity).
        apply free_chain_ext with (bs := flash_blocks g); [|exact Hchain].
        intros y Hy. apply Hkeep. right. exact Hy.
      * unfold bad_tail. cbn [flash_bad_blocks]. intros t Ht.
        specialize (Ho Hx). apply Z.eqb_neq in Ho. rewrite Ho, Hi in Ht.
        injection Ht as <-. exact HxF.
    + split; [intros H; congruence|]. intros _. repeat split; try reflexivity. exact Hl.
Qed.

Lemma not_success (st : bp_status) : is_success st = false -> st <> BP_SUCCESS.
Proof. intros H ->. discriminate H. Qed.

Lemma allocate_loop_free_list (F : list Z) :
  forall fuel status blk (g : flash_globals D),
    free_list_ok g F ->
    is_success status = false ->
    (length F <= fuel)%nat ->
    exists st blk' g' F1 F2,
      flash_free_allocate_loop drv fuel status blk g = Some (st, blk', g')
      /\ free_list_ok g' F2
      /\ erase_fails drv F1 (dev g)
      /\ count (flash_bad_blocks g')
         = count (flash_bad_blocks g) + Z.of_nat (length F1)
      /\ flash_error_count g' = flash_error_count g + Z.of_nat (length F1)
      /\ ((is_success st = true /\ F = F1 ++ blk' :: F2
           /\ erase drv blk' (erase_each drv F1 (dev g)) = (st, dev g')
           /\ flash_used_block_count g' = flash_used_block_count g + 1)
          \/ (is_success st = false /\ F1 = F /\ F2 = [] /\ blk' = blk
              /\ dev g' = erase_each drv F (dev g)
              /\ flash_used_block_count g' = flash_used_block_count g
              /\ (F = [] -> st = status /\ g' = g))).
Proof.
  induction F as [|x F IH]; intros fuel status blk g Hok Hst Hfuel.
  - pose proof Hok as [Hchain _ _ _ _]. cbn [free_chain] in Hchain.
    exists status, blk, g, [], []. split.
    { destruct fuel; cbn [flash_free_allocate_loop];
        rewrite Hst, Hchain, Z.eqb_refl; reflexivity. }
    split; [exact Hok|]. split; [exact I|]. cbn [length]. split; [lia|]. split; [lia|].
    right. repeat split; auto.
  - pose proof Hok as [Hchain _ _ _ _]. cbn [free_chain] in Hchain.
    destruct Hchain as (Hout & Hx & _).
    destruct fuel as [|fuel]; [cbn [length] in Hfuel; lia|].
    cbn [flash_free_allocate_loop]. rewrite Hst, Hout.
    apply Z.eqb_neq in Hx. rewrite Hx. cbn [negb andb].
    destruct (flash_free_allocate_body drv blk g) as [[st1 blk1] g1] eqn:Hbody.
    destruct (allocate_body_free_list blk Hok Hbody) as (Hst1 & Hd1 & Hok1 & Hs & Hf).
    destruct (is_success st1) eqn:Es1.
    + destruct (Hs eq_refl) as (-> & _ & Hb1 & He1 & Hu1).
      exists st1, x, g1, [], F. split.
      { destruct fuel; cbn [flash_free_allocate_loop]; rewrite Es1; reflexivity. }
      split; [exact Hok1|]. split; [exact I|]. cbn [length]. rewrite Hb1, He1.
      split; [lia|]. split; [lia|]. left.
      split; [exact Es1|]. split; [reflexivity|]. split; [|exact Hu1].
      cbn [erase_each]. rewrite Hd1. rewrite Hst1 at 1. apply surjective_pairing.
    + destruct (Hf eq_refl) as (-> & Hb1 & He1 & Hu1).
      cbn [length] in Hfuel.
      destruct (IH fuel st1 blk g1 Hok1 Es1 ltac:(lia))
        as (st & blk' & g' & F1 & F2 & Hrun & Hok' & Hfail & Hb & He & Hcase).
      exists st, blk', g', (x :: F1), F2. split; [exact Hrun|].
      split; [exact Hok'|].
      split.
      { cbn [erase_fails]. rewrite <- Hst1, <- Hd1.
        split; [apply not_success; exact Es1|exact Hfail]. }
      cbn [length]. rewrite Hb, He, Hb1, He1.
      split; [lia|]. split; [lia|].
      destruct Hcase as [(Hs' & HF & Her & Hu)|(Hs' & HF & HF2 & Hblk & Hdev & Hu & _)].
      * left. split; [exact Hs'|]. split; [rewrite HF; reflexivity|].
        split; [|lia]. cbn [erase_each]. rewrite <- Hd1. exact Her.
      * right. split; [exact Hs'|]. split; [rewrite HF; reflexivity|].
        split; [exact HF2|]. split; [exact Hblk|].
        split; [cbn [erase_each]; rewrite <- Hd1; exact Hdev|].
        split; [lia|]. discriminate.
Qed.

Lemma format_blocks_free_list (n : nat) :
  forall b r (g : flash_globals D) F,
    free_list_ok g F ->
    (forall y, In y F -> y < b) ->
    (forall t, bad_tail g = Some t -> t < b) ->
    0 <= b -> b + Z.of_nat n < index_modulus ->
    let good := filter (fun y => negb (isbad drv y (dev g)))
                       (map Z.of_nat (seq (Z.to_nat b) n)) in
    free_list_ok (snd (format_blocks drv n b r g)) (F ++ good)
    /\ fst (format_blocks drv n b r g) = r + Z.of_nat (length good)
    /\ count (flash_bad_blocks (snd (format_blocks drv n b r g)))
       = count (flash_bad_blocks g) + Z.of_nat n - Z.of_nat (length good)
    /\ flash_used_block_count (snd (format_blocks drv n b r g))
       = flash_used_block_count g - Z.of_nat n
    /\ flash_error_count (snd (format_blocks drv n b r g)) = flash_error_count g
    /\ dev (snd (format_blocks drv n b r g)) = dev g.
Proof.
  induction n as [|n IH]; intros b r g F Hok HF Hbt Hb0 Hbn good.
  - subst good. cbn [format_blocks seq map filter length fst snd].
    rewrite app_nil_r. split; [exact Hok|]. repeat split; lia.
  - assert (Hbi : b <> BP_FLASH_INVALID_INDEX)
      by (unfold BP_FLASH_INVALID_INDEX, index_modulus in *; lia).
    assert (HbF : ~ In b F) by (intros H; apply HF in H; lia).
    assert (Hbb : bad_tail g <> Some b) by (intros H; apply Hbt in H; lia).
    assert (Hnext : to_index (b + 1) = b + 1)
      by (apply to_index_small; unfold index_modulus in *; lia).
    assert (Hseq : Z.to_nat (b + 1) = S (Z.to_nat b)) by lia.
    cbn [format_blocks].
    destruct (flash_free_reclaim drv b g) as [st g1] eqn:Hr.
    subst good. cbn [seq map filter]. rewrite Z2Nat.id by exact Hb0.
    rewrite Hnext.
    destruct (isbad drv b (dev g)) eqn:Ebad; cbn [negb].
    + destruct (reclaim_bad Hok Hbi HbF Ebad) as (Hst & Hok1 & Ht1 & Hc1 & Hu1 & He1 & Hd1).
      rewrite Hr in Hst, Hok1, Ht1, Hc1, Hu1, He1, Hd1. cbn [fst snd] in *.
      subst st. cbn [is_success bp_status_eqb].
      specialize (IH (b + 1) r g1 F Hok1).
      rewrite Hd1, Hseq in IH.
      destruct IH as (I1 & I2 & I3 & I4 & I5 & I6).
      * intros y Hy. apply HF in Hy. lia.
      * intros t Ht. rewrite Ht1 in Ht. injection Ht as <-. lia.
      * lia.
      * lia.
      * split; [exact I1|]. repeat split; try assumption; lia.
    + destruct (reclaim_good Hok Hbi HbF Hbb Ebad)
        as (Hst & Hok1 & Hb1 & Hu1 & He1 & Hd1 & _).
      rewrite Hr in Hst, Hok1, Hb1, Hu1, He1, Hd1. cbn [fst snd] in *.
      subst st. cbn [is_success bp_status_eqb].
      specialize (IH (b + 1) (r + 1) g1 (F ++ [b]) Hok1).
      rewrite Hd1, Hseq in IH.
      destruct IH as (I1 & I2 & I3 & I4 & I5 & I6).
      * intros y Hy. apply in_app_or in Hy. destruct Hy as [Hy|[<-|[]]]; [|lia].
        apply HF in Hy. lia.
      * intros t Ht. unfold bad_tail in Ht. rewrite Hb1 in Ht.
        apply (Hbt t) in Ht. lia.
      * lia.
      * lia.
      * rewrite <- app_assoc in I1. cbn [app] in I1.
        cbn [length]. rewrite Hb1 in I3.
        split; [exact I1|]. repeat split; try assumption; lia.
Qed.

(** X1. A format builds the free list from the blocks the driver finds
    good, in ascending order, and counts the others bad. *)
Theorem format_builds_free_list (lock : Z) (blocks : Z -> flash_block_control_t)
    (s : flash_state D) :
  0 <= lock ->
  0 <= num_blocks drv < index_modulus ->
  let r := bplib_store_flash_init drv BP_FLASH_INIT_FORMAT lock (Some blocks) s in
  let F := good_blocks drv (Z.to_nat (num_blocks drv)) (dev (glob s)) in
  fst r = inr (Z.of_nat (length F))
  /\ free_list_ok (glob (snd r)) F
  /\ count (flash_bad_blocks (glob (snd r))) = num_blocks drv - Z.of_nat (length F)
  /\ flash_used_block_count (glob (snd r)) = 0
  /\ flash_error_count (glob (snd r)) = 0
  /\ (forall h, in_use (flash_stores (snd r) h) = false).
Proof.
  intros Hlock Hnb r F. subst r. unfold bplib_store_flash_init.
  assert (Hl : (lock <? 0) = false) by (apply Z.ltb_ge; exact Hlock).
  rewrite Hl.
  set (g1 := mk_globals (dev (glob s)) blocks
                        (mk_list BP_FLASH_INVALID_INDEX BP_FLASH_INVALID_INDEX 0)
                        (mk_list BP_FLASH_INVALID_INDEX BP_FLASH_INVALID_INDEX 0)
                        (flash_error_count (glob s))
                        (flash_used_block_count (glob s))).
  assert (Hok : free_list_ok g1 []).
  { constructor; cbn; try reflexivity; try constructor; congruence. }
  destruct (@format_blocks_free_list (Z.to_nat (num_blocks drv)) 0 0 g1 [] Hok)
    as (H1 & H2 & H3 & _ & _ & _).
  - intros y [].
  - intros t Ht. discriminate Ht.
  - lia.
  - rewrite Z2Nat.id; lia.
  - destruct (format_blocks drv (Z.to_nat (num_blocks drv)) 0 0 g1) as [rb g2].
    cbn [fst snd app] in H1, H2, H3 |- *.
    change (filter (fun y => negb (isbad drv y (dev g1)))
                   (map Z.of_nat (seq (Z.to_nat 0) (Z.to_nat (num_blocks drv)))))
      with F in H1, H2, H3.
    cbn [glob flash_stores flash_bad_blocks flash_used_block_count
         flash_error_count].
    split; [rewrite H2; reflexivity|].
    split.
    { destruct H1 as [A B C E G]. constructor; assumption. }
    split; [rewrite H3, Z2Nat.id by lia; unfold g1; cbn [flash_bad_blocks count]; lia|].
    auto.
Qed.

(** X2. A reclaimed block joins the free list at its tail when the driver
    finds it good, and the bad list otherwise. *)
Theorem reclaim_queues_block (g : flash_globals D) (F : list Z) (b : Z) :
  free_list_ok g F ->
  b <> BP_FLASH_INVALID_INDEX ->
  ~ In b F ->
  bad_tail g <> Some b ->
  let r := flash_free_reclaim drv b g in
  fst r = (if isbad drv b (dev g) then BP_ERROR else BP_SUCCESS)
  /\ free_list_ok (snd r) (if isbad drv b (dev g) then F else F ++ [b])
  /\ count (flash_bad_blocks (snd r))
     = count (flash_bad_blocks g) + (if isbad drv b (dev g) then 1 else 0)
  /\ flash_used_block_count (snd r) = flash_used_block_count g - 1.
Proof.
  intros Hok Hb Hnin Hbt r. subst r.
  destruct (isbad drv b (dev g)) eqn:Ebad.
  - destruct (reclaim_bad Hok Hb Hnin Ebad) as (H1 & H2 & _ & H3 & H4 & _).
    auto.
  - destruct (reclaim_good Hok Hb Hnin Hbt Ebad) as (H1 & H2 & H3 & H4 & _).
    rewrite H3. split; [exact H1|]. split; [exact H2|]. split; [lia|exact H4].
Qed.

(** X3. With fuel for the length of the free list, [flash_free_allocate]
    returns.  It hands out the first block of the list whose erase succeeds:
    every block [F1] before it has failed to erase, each on the device the
    erases before it left, and has gone to the bad list with one error
    counted; the block handed out has erased, and the free list goes on
    behind it.  It fails only with the free list used up, every block of it
    having failed to erase, and then leaves the caller's block alone. *)
Theorem allocate_first_erasable (fuel : nat) (blk : Z) (g : flash_globals D)
    (F : list Z) :
  free_list_ok g F ->
  (length F <= fuel)%nat ->
  exists st blk' g' F1 F2,
    flash_free_allocate drv fuel blk g = Some (st, blk', g')
    /\ free_list_ok g' F2
    /\ erase_fails drv F1 (dev g)
    /\ count (flash_bad_blocks g')
       = count (flash_bad_blocks g) + Z.of_nat (length F1)
    /\ flash_error_count g' = flash_error_count g + Z.of_nat (length F1)
    /\ ((st = BP_SUCCESS /\ F = F1 ++ blk' :: F2
         /\ erase drv blk' (erase_each drv F1 (dev g)) = (BP_SUCCESS, dev g')
         /\ flash_used_block_count g' = flash_used_block_count g + 1)
        \/ (st <> BP_SUCCESS /\ F1 = F /\ F2 = [] /\ blk' = blk
            /\ dev g' = erase_each drv F (dev g)
            /\ flash_used_block_count g' = flash_used_block_count g
            /\ (F = [] -> st = BP_FAILEDSTORE /\ g' = g))).
Proof.
  intros Hok Hfuel. unfold flash_free_allocate.
  destruct (@allocate_loop_free_list F fuel BP_FAILEDSTORE blk g Hok eq_refl Hfuel)
    as (st & blk' & g' & F1 & F2 & Hrun & Hok' & Hfail & Hb & He & Hcase).
  exists st, blk', g', F1, F2. repeat (split; [assumption|]).
  destruct Hcase as [(Hs & HF & Her & Hu)|(Hs & H)].
  - left. apply is_success_true in Hs. subst st. auto.
  - right. split; [|exact H]. intros ->. discriminate Hs.
Qed.

(** X4. When the block at the head of the free list erases, it is the
    block handed out, and the list goes on behind it. *)
Theorem allocate_takes_head (fuel : nat) (blk x : Z) (F : list Z)
    (g : flash_globals D) :
  free_list_ok g (x :: F) ->
  fst (erase drv x (dev g)) = BP_SUCCESS ->
  exists g',
    flash_free_allocate drv (S fuel) blk g = Some (BP_SUCCESS, x, g')
    /\ free_list_ok g' F
    /\ dev g' = snd (erase drv x (dev g))
    /\ flash_blocks g' = flash_blocks g
    /\ flash_bad_blocks g' = flash_bad_blocks g
    /\ flash_error_count g' = flash_error_count g
    /\ flash_used_block_count g' = flash_used_block_count g + 1.
Proof.
  intros Hok He. unfold flash_free_allocate.
  pose proof Hok as [Hchain _ _ _ _]. cbn [free_chain] in Hchain.
  destruct Hchain as (Hout & Hx & _).
  cbn [flash_free_allocate_loop is_success bp_status_eqb negb andb].
  rewrite Hout. apply Z.eqb_neq in Hx. rewrite Hx. cbn [negb].
  destruct (flash_free_allocate_body drv blk g) as [[st1 blk1] g1] eqn:Hbody.
  destruct (allocate_body_free_list blk Hok Hbody) as (Hst & Hd & Hok1 & Hs & _).
  rewrite He in Hst. subst st1.
  destruct (Hs eq_refl) as (-> & H1 & H2 & H3 & H4).
  exists g1. split.
  { destruct fuel; reflexivity. }
  auto 10.
Qed.

End FreeList.

(** * The table of stores *)

Section Stores.
Variable D : Type.
Variable drv : bp_flash_driver_t D.

Lemma first_unused_least (stores : Z -> flash_store_t) (n : nat) :
  forall s0 h,
    s0 <= h < s0 + Z.of_nat n ->
    in_use (stores h) = false ->
    (forall j, s0 <= j < h -> in_use (stores j) = true) ->
    first_unused stores n s0 = Some h.
Proof.
  induction n as [|n IH]; intros s0 h Hh Hfree Hused; [lia|].
  cbn [first_unused].
  destruct (Z.eq_dec s0 h) as [->|Hne].
  - rewrite Hfree. reflexivity.
  - rewrite (Hused s0) by lia. cbn [negb]. apply IH; [lia|exact Hfree|].
    intros j Hj. apply Hused. lia.
Qed.

Lemma first_unused_none (stores : Z -> flash_store_t) (n : nat) :
  forall s0,
    (forall j, s0 <= j < s0 + Z.of_nat n -> in_use (stores j) = true) ->
    first_unused stores n s0 = None.
Proof.
  induction n as [|n IH]; intros s0 Hused; [reflexivity|].
  cbn [first_unused]. rewrite (Hused s0) by lia. cbn [negb].
  apply IH. intros j Hj. apply Hused. lia.
Qed.

Lemma first_unused_some (stores : Z -> flash_store_t) (n : nat) :
  forall s0 h,
    first_unused stores n s0 = Some h ->
    s0 <= h < s0 + Z.of_nat n
    /\ in_use (stores h) = false
    /\ (forall j, s0 <= j < h -> in_use (stores j) = true).
Proof.
  induction n as [|n IH]; intros s0 h H; [discriminate|].
  cbn [first_unused] in H.
  destruct (in_use (stores s0)) eqn:E; cbn [negb] in H.
  - apply IH in H. destruct H as (H1 & H2 & H3).
    split; [lia|]. split; [exact H2|].
    intros j Hj. destruct (Z.eq_dec j s0) as [->|Hne]; [exact E|].
    apply H3. lia.
  - injection H as <-. split; [lia|]. split; [exact E|]. intros j Hj. lia.
Qed.

Lemma create_at (parm : option bp_flash_attr_t) (s : flash_state D) (h : Z) :
  attr_ok drv parm ->
  first_unused (flash_stores s) (Z.to_nat FLASH_MAX_STORES) 0 = Some h ->
  bplib_store_flash_create drv parm true s
  = (inr h,
     mk_state (glob s)
       (upd (flash_stores s) h
            (mk_store true (mk_attr (stage_size drv parm))
                      (mk_addr BP_FLASH_INVALID_INDEX 0)
                      (mk_addr BP_FLASH_INVALID_INDEX 0)
                      (repeat 0 (Z.to_nat (stage_size drv parm)))
                      (repeat 0 (Z.to_nat (stage_size drv parm))) false 0))).
Proof.
  intros Hattr Hfirst. unfold bplib_store_flash_create. rewrite Hfirst.
  destruct parm as [attr|]; cbn [attr_ok] in Hattr.
  - assert (E : (max_data_size attr <? page_size drv) = false)
      by (apply Z.ltb_ge; exact Hattr).
    rewrite E. reflexivity.
  - reflexivity.
Qed.

(** X5. With attributes it accepts and memory for the stages,
    [bplib_store_flash_create] returns the handle [h] exactly when [h] is the
    lowest of the sixteen handles that is not in use. *)
Theorem create_lowest_unused (parm : option bp_flash_attr_t) (s : flash_state D)
    (h : Z) :
  attr_ok drv parm ->
  fst (bplib_store_flash_create drv parm true s) = inr h
  <-> (0 <= h < FLASH_MAX_STORES
       /\ in_use (flash_stores s h) = false
       /\ (forall j, 0 <= j < h -> in_use (flash_stores s j) = true)).
Proof.
  intros Hattr. split.
  - unfold bplib_store_flash_create.
    destruct (first_unused (flash_stores s) (Z.to_nat FLASH_MAX_STORES) 0)
      as [h'|] eqn:Hfirst; [|discriminate].
    apply first_unused_some in Hfirst.
    destruct parm as [attr|]; cbn [attr_ok] in Hattr.
    + assert (E : (max_data_size attr <? page_size drv) = false)
        by (apply Z.ltb_ge; exact Hattr).
      rewrite E. cbn [fst]. intros H. injection H as <-. exact Hfirst.
    + cbn [fst]. intros H. injection H as <-. exact Hfirst.
  - intros (Hh & Hfree & Hused).
    rewrite (@create_at parm s h Hattr); [reflexivity|].
    apply first_unused_least; assumption.
Qed.

(** X6. [bplib_store_flash_create] answers [BP_INVALID_HANDLE] when the
    sixteen stores are all in use, when the attributes ask for less than a
    page, and when there is no memory for the stages; no store comes into
    use then, no object count changes, and the globals are as before. *)
Theorem create_refuses (parm : option bp_flash_attr_t) (mem : bool)
    (s : flash_state D) :
  (forall j, 0 <= j < FLASH_MAX_STORES -> in_use (flash_stores s j) = true)
  \/ ~ attr_ok drv parm
  \/ mem = false ->
  fst (bplib_store_flash_create drv parm mem s) = inl BP_INVALID_HANDLE
  /\ glob (snd (bplib_store_flash_create drv parm mem s)) = glob s
  /\ (forall j,
        in_use (flash_stores (snd (bplib_store_flash_create drv parm mem s)) j)
        = in_use (flash_stores s j)
        /\ object_count
             (flash_stores (snd (bplib_store_flash_create drv parm mem s)) j)
           = object_count (flash_stores s j)).
Proof.
  intros Hcase. unfold bplib_store_flash_create.
  destruct (first_unused (flash_stores s) (Z.to_nat FLASH_MAX_STORES) 0)
    as [h|] eqn:Hfirst; [|auto].
  destruct Hcase as [Hfull|[Hattr|Hmem]].
  - apply first_unused_some in Hfirst. destruct Hfirst as (Hh & Hfree & _).
    rewrite Hfull in Hfree by (unfold FLASH_MAX_STORES in *; lia). discriminate.
  - destruct parm as [attr|]; cbn [attr_ok] in Hattr; [|tauto].
    assert (E : (max_data_size attr <? page_size drv) = true)
      by (apply Z.ltb_lt; lia).
    rewrite E. auto.
  - subst mem.
    destruct (match parm with
              | Some attr => max_data_size attr <? page_size drv
              | None => false
              end); [auto|].
    cbn [fst snd glob flash_stores]. split; [reflexivity|].
    split; [reflexivity|]. intros j. unfold upd.
    destruct (j =? h) eqn:E; [|auto].
    apply Z.eqb_eq in E. subst j. cbn [in_use object_count]. auto.
Qed.

(** X7. A destroyed handle is handed out again: after the destroy of [h],
    with the handles below it in use, the next create returns [h].  The
    destroy itself leaves the globals alone, so the blocks the store wrote
    stay used. *)
Theorem destroy_frees_handle (parm : option bp_flash_attr_t) (s : flash_state D)
    (h : Z) :
  attr_ok drv parm ->
  0 <= h < FLASH_MAX_STORES ->
  (forall j, 0 <= j < h -> in_use (flash_stores s j) = true) ->
  fst (bplib_store_flash_destroy h s) = BP_SUCCESS
  /\ glob (snd (bplib_store_flash_destroy h s)) = glob s
  /\ fst (bplib_store_flash_create drv parm true
            (snd (bplib_store_flash_destroy h s))) = inr h.
Proof.
  intros Hattr Hh Hused. split; [reflexivity|]. split; [reflexivity|].
  rewrite (@create_at parm _ h Hattr); [reflexivity|].
  apply first_unused_least.
  - unfold FLASH_MAX_STORES in *. lia.
  - cbn [bplib_store_flash_destroy snd flash_stores]. rewrite upd_same. reflexivity.
  - intros j Hj. cbn [bplib_store_flash_destroy snd flash_stores].
    rewrite upd_other by lia. apply Hused. exact Hj.
Qed.

(** X8. The recover mode of [bplib_store_flash_init] builds no free list:
    the first store created after it has handle 0, and every enqueue on it
    answers [BP_FAILEDSTORE] and counts no object. *)
Theorem recover_mode_cannot_enqueue (lock : Z) (blocks : Z -> flash_block_control_t)
    (parm : option bp_flash_attr_t) (s : flash_state D) (fuel : nat)
    (data1 data2 : option (list Z)) (n1 n2 sysnow : Z) :
  0 <= lock ->
  attr_ok drv parm ->
  let s1 := snd (bplib_store_flash_init drv BP_FLASH_INIT_RECOVER lock
                                        (Some blocks) s) in
  let r := bplib_store_flash_create drv parm true s1 in
  fst r = inr 0
  /\ count (flash_free_blocks (glob (snd r))) = 0
  /\ exists s3,
       bplib_store_flash_enqueue drv fuel 0 data1 n1 data2 n2 sysnow (snd r)
       = Some (BP_FAILEDSTORE, s3)
       /\ bplib_store_flash_getcount 0 s3 = 0
       /\ glob s3 = glob (snd r).
Proof.
  intros Hlock Hattr s1 r. subst r s1. unfold bplib_store_flash_init.
  assert (Hl : (lock <? 0) = false) by (apply Z.ltb_ge; exact Hlock).
  rewrite Hl. cbn [snd].
  rewrite (@create_at parm _ 0 Hattr) by reflexivity.
  cbn [fst snd glob flash_free_blocks count]. split; [reflexivity|].
  split; [reflexivity|].
  unfold bplib_store_flash_enqueue. cbn [flash_stores glob].
  rewrite upd_same. cbn [write_addr block].
  rewrite Z.eqb_refl. unfold flash_free_allocate.
  eexists. split.
  - destruct fuel; cbn [flash_free_allocate_loop is_success bp_status_eqb negb
                        flash_free_blocks out andb];
      rewrite Z.eqb_refl; cbn [negb andb is_success bp_status_eqb]; reflexivity.
  - unfold bplib_store_flash_getcount, put_store. cbn [flash_stores glob].
    rewrite upd_same. split; reflexivity.
Qed.

End Stores.

(** * The read stage and its lock *)

Section Protocol.
Variable D : Type.
Variable drv : bp_flash_driver_t D.

(** What [flash_object_read] does to the store it is given: the read stage
    and its lock only. *)
Lemma object_read_store fuel fs hdl addr (g : flash_globals D)
    st addr' obj fs' g' :
  flash_object_read drv fuel fs hdl addr g = Some (st, addr', obj, fs', g') ->
  in_use fs' = in_use fs
  /\ attributes fs' = attributes fs
  /\ write_addr fs' = write_addr fs
  /\ read_addr fs' = read_addr fs
  /\ write_stage fs' = write_stage fs
  /\ object_count fs' = object_count fs
  /\ (is_success st = true ->
      stage_locked fs = false
      /\ stage_locked fs' = true
      /\ obj = Some (object (decode_hdr (read_stage fs')), object_data (read_stage fs')))
  /\ (is_success st = false -> obj = None /\ stage_locked fs' = stage_locked fs).
Proof.
  unfold flash_object_read. destruct (stage_locked fs) eqn:El; cbn [negb].
  - intros H. injection H as <- _ <- <- _. rewrite El.
    repeat split; try reflexivity; discriminate.
  - destruct (flash_data_read drv fuel addr _ 0 _ g)
      as [[[[status addr1] stage1] g1]|]; [|discriminate].
    match goal with
    | |- match ?rest with _ => _ end = _ -> _ =>
        destruct rest as [[[[status2 addr2] stage2] g2]|]; [|discriminate]
    end.
    destruct (is_success status2) eqn:Es; intros H; injection H as <- _ <- <- _;
      cbn; rewrite ?Es, ?El; repeat split; try reflexivity; discriminate.
Qed.

Lemma object_read_locked fuel fs hdl addr (g : flash_globals D) :
  stage_locked fs = true ->
  flash_object_read drv fuel fs hdl addr g = Some (BP_FAILEDSTORE, addr, None, fs, g).
Proof. intros H. unfold flash_object_read. rewrite H. reflexivity. Qed.

(** X9. While the read stage is locked a dequeue hands out no object: it
    never answers success, and it leaves the stage, its lock, the write
    cursor, the object count and the block registry as they are. *)
Theorem dequeue_locked_refused (fuel : nat) (hdl : Z) (s s' : flash_state D)
    (st : bp_status) (obj : option (bp_object_t * list Z)) :
  stage_locked (flash_stores s hdl) = true ->
  bplib_store_flash_dequeue drv fuel hdl s = Some (st, obj, s') ->
  st <> BP_SUCCESS
  /\ obj = None
  /\ stage_locked (flash_stores s' hdl) = true
  /\ read_stage (flash_stores s' hdl) = read_stage (flash_stores s hdl)
  /\ write_addr (flash_stores s' hdl) = write_addr (flash_stores s hdl)
  /\ object_count (flash_stores s' hdl) = object_count (flash_stores s hdl)
  /\ same_registry (glob s) (glob s').
Proof.
  intros Hl. unfold bplib_store_flash_dequeue.
  destruct (_ || _).
  - rewrite object_read_locked by exact Hl. cbn [is_success bp_status_eqb negb].
    destruct (flash_object_scan drv fuel _ (glob s)) as [[[st3 addr3] g3]|] eqn:Hs;
      [|discriminate].
    intros H. injection H as <- <- <-.
    unfold flash_object_scan in Hs. apply object_scan_loop_registry in Hs.
    unfold put_store. cbn [flash_stores glob]. rewrite upd_same. cbn.
    repeat split; try assumption; try discriminate.
    all: destruct Hs as (H1 & H2 & H3 & H4); assumption.
  - intros H. injection H as <- <- <-.
    repeat split; try assumption; try discriminate. 
Qed.

(** X10. A successful dequeue hands out an object and locks the read
    stage; the release of the SID of that object succeeds, unlocks the stage
    and leaves both cursors and the object count alone. *)
Theorem dequeue_then_release (fuel : nat) (hdl : Z) (s s1 : flash_state D)
    (obj : option (bp_object_t * list Z)) :
  bplib_store_flash_dequeue drv fuel hdl s = Some (BP_SUCCESS, obj, s1) ->
  exists o d,
    obj = Some (o, d)
    /\ stage_locked (flash_stores s hdl) = false
    /\ stage_locked (flash_stores s1 hdl) = true
    /\ fst (bplib_store_flash_release hdl (sid o) s1) = BP_SUCCESS
    /\ let s2 := snd (bplib_store_flash_release hdl (sid o) s1) in
       stage_locked (flash_stores s2 hdl) = false
       /\ read_addr (flash_stores s2 hdl) = read_addr (flash_stores s1 hdl)
       /\ write_addr (flash_stores s2 hdl) = write_addr (flash_stores s hdl)
       /\ object_count (flash_stores s2 hdl) = object_count (flash_stores s hdl).
Proof.
  unfold bplib_store_flash_dequeue.
  destruct (_ || _); [|discriminate].
  destruct (flash_object_read drv fuel _ hdl _ (glob s))
    as [[[[[st addr1] obj'] fs1] g1]|] eqn:Hr; [|discriminate].
  destruct (object_read_store _ _ _ _ _ Hr)
    as (_ & _ & Hw & _ & _ & Hc & Hs & _).
  destruct (is_success st) eqn:Es; cbn [negb].
  - intros H. injection H as -> <- <-.
    destruct (Hs eq_refl) as (Hl0 & Hl & ->).
    eexists _, _. split; [reflexivity|]. split; [exact Hl0|].
    unfold put_store, bplib_store_flash_release. cbn [flash_stores glob].
    rewrite upd_same. cbn [stage_locked set_read_addr read_stage sid].
    rewrite Z.eqb_refl. cbn [negb fst snd].
    unfold put_store. cbn [flash_stores]. rewrite upd_same. cbn.
    repeat split; assumption.
  - destruct (flash_object_scan drv fuel _ g1) as [[[st3 addr3] g3]|]; [|discriminate].
    intros H. injection H as -> _ _. discriminate Es.
Qed.

(** X13. A retrieve reads beside the queue: whatever it answers, both
    cursors, the object count and the block registry are as before, and so
    are the other stores; when it succeeds it holds the read stage locked. *)
Theorem retrieve_keeps_queue (fuel : nat) (hdl osid : Z) (s s' : flash_state D)
    (st : bp_status) (obj : option (bp_object_t * list Z)) :
  bplib_store_flash_retrieve drv fuel hdl osid s = Some (st, obj, s') ->
  read_addr (flash_stores s' hdl) = read_addr (flash_stores s hdl)
  /\ write_addr (flash_stores s' hdl) = write_addr (flash_stores s hdl)
  /\ object_count (flash_stores s' hdl) = object_count (flash_stores s hdl)
  /\ (forall h, h <> hdl -> flash_stores s' h = flash_stores s h)
  /\ same_registry (glob s) (glob s')
  /\ (st = BP_SUCCESS -> stage_locked (flash_stores s' hdl) = true)
  /\ (st <> BP_SUCCESS -> obj = None).
Proof.
  unfold bplib_store_flash_retrieve.
  destruct (flash_object_read drv fuel _ hdl _ (glob s))
    as [[[[[st1 addr1] obj1] fs1] g1]|] eqn:Hr; [|discriminate].
  intros H. injection H as <- <- <-.
  destruct (object_read_store _ _ _ _ _ Hr)
    as (_ & _ & Hw & Hra & _ & Hc & Hs & Hf).
  apply object_read_registry in Hr.
  unfold put_store. cbn [flash_stores glob]. rewrite upd_same.
  split; [exact Hra|]. split; [exact Hw|]. split; [exact Hc|].
  split; [intros h Hh; apply upd_other; exact Hh|].
  split; [exact Hr|]. split.
  - intros ->. apply (Hs eq_refl).
  - intros Hne. apply Hf. destruct st1; try reflexivity. congruence.
Qed.

End Protocol.

(** * Reading back by address *)

Section ReadBack.
Variable D : Type.
Variable drv : bp_flash_driver_t D.
Variable content : D -> Z -> Z -> list Z.

Lemma sid_addr_get_sid (a : bp_flash_addr_t) :
  num_blocks drv < index_modulus ->
  pages_per_block drv < index_modulus ->
  0 <= block a < num_blocks drv ->
  0 <= page a < pages_per_block drv ->
  sid_addr drv (to_ulong (FLASH_GET_SID drv a)) = a.
Proof.
  intros Hnb Hppb Hblk Hpg. destruct a as [blk pg]. cbn [block page] in *.
  pose proof index_below_ulong as Hbig.
  unfold sid_addr, FLASH_GET_BLOCK, FLASH_GET_PAGE, FLASH_GET_SID.
  cbn [block page].
  set (ppb := pages_per_block drv) in *.
  assert (Hrange : 0 <= blk * ppb + pg < ulong_modulus) by nia.
  assert (Hsid : 0 <= blk * ppb + pg + 1 < ulong_modulus) by nia.
  rewrite !(to_ulong_small Hsid).
  replace (blk * ppb + pg + 1 - 1) with (blk * ppb + pg) by lia.
  rewrite (to_ulong_small Hrange).
  assert (Hdiv : (blk * ppb + pg) / ppb = blk).
  { rewrite Z.div_add_l by lia. rewrite (Z.div_small pg ppb) by lia. lia. }
  assert (Hmod : (blk * ppb + pg) mod ppb = pg).
  { rewrite Z.add_comm, Z.mod_add by lia. apply Z.mod_small. lia. }
  rewrite Hdiv, Hmod.
  rewrite !to_index_small by (unfold index_modulus in *; lia). reflexivity.
Qed.

Lemma object_write_success_addr fuel fs hdl d1 n1 d2 n2 now (g : flash_globals D)
    fs' g' :
  flash_object_write drv fuel fs hdl d1 n1 d2 n2 now g = Some (BP_SUCCESS, fs', g') ->
  addr_invalid drv (write_addr fs) g = false.
Proof.
  unfold flash_object_write. destruct (_ && _); [|discriminate].
  unfold flash_data_write.
  destruct (addr_invalid drv (write_addr fs) g); [discriminate|reflexivity].
Qed.

(** X12. An object can be read back by its SID whatever the queue holds:
    on a store that has its write block, after a successful enqueue of
    [d1 ++ d2] a successful retrieve of the SID of the address the object
    was written at hands back exactly these bytes, with their length and
    the handle in the header. *)
Theorem enqueue_retrieve_round_trip (fuel fuel' : nat) (hdl : Z) (d1 d2 : list Z)
    (sysnow : Z) (s s1 s2 : flash_state D) (F : list Z)
    (obj : option (bp_object_t * list Z)) :
  read_law drv content -> write_law drv content -> erase_law drv content ->
  (forall a bytes d, fst (write drv a bytes d) = BP_SUCCESS) ->
  hdr_size <= page_size drv < 2 ^ 31 ->
  num_blocks drv < index_modulus ->
  pages_per_block drv < index_modulus ->
  0 <= hdl < 2 ^ 31 ->
  hdr_size + Z.of_nat (length d1) + Z.of_nat (length d2) < 2 ^ 31 ->
  let w := write_addr (flash_stores s hdl) in
  block w <> BP_FLASH_INVALID_INDEX ->
  0 <= block w -> 0 <= page w ->
  max_pages (flash_blocks (glob s) (block w)) <= pages_per_block drv ->
  (forall b, In b F -> max_pages (flash_blocks (glob s) b) < index_modulus) ->
  registry_ok drv (glob s) (block w) F ->
  bplib_store_flash_enqueue drv fuel hdl (Some d1) (Z.of_nat (length d1))
                            (Some d2) (Z.of_nat (length d2)) sysnow s
  = Some (BP_SUCCESS, s1) ->
  bplib_store_flash_retrieve drv fuel' hdl (to_ulong (FLASH_GET_SID drv w)) s1
  = Some (BP_SUCCESS, obj, s2) ->
  obj = Some (mk_object hdl (Z.of_nat (length d1) + Z.of_nat (length d2))
                        (to_ulong (FLASH_GET_SID drv w)),
              d1 ++ d2).
Proof.
  intros Hread Hwrite Herase Hwok Hps Hnb Hppb Hhdl Hsize w Hblk Hb0 Hpg0 Hmax
         HmaxF Hok Henq Hret.
  unfold bplib_store_flash_enqueue in Henq.
  assert (Einv : (block w =? BP_FLASH_INVALID_INDEX) = false)
    by (apply Z.eqb_neq; exact Hblk).
  fold w in Henq. rewrite Einv in Henq.
  cbn [is_success bp_status_eqb negb] in Henq.
  set (fs2 := if block (read_addr (flash_stores s hdl)) =? BP_FLASH_INVALID_INDEX
              then set_read_addr (flash_stores s hdl) (write_addr (flash_stores s hdl))
              else flash_stores s hdl) in Henq.
  assert (Hw2 : write_addr fs2 = w).
  { unfold fs2. destruct (_ =? _); reflexivity. }
  destruct (flash_object_write drv fuel fs2 hdl (Some d1) (Z.of_nat (length d1))
                               (Some d2) (Z.of_nat (length d2)) sysnow (glob s))
    as [[[st2 fs3] g2]|] eqn:Hw; [|discriminate].
  injection Henq as -> <-.
  pose proof Hw as Hvalid. apply object_write_success_addr in Hvalid.
  rewrite Hw2 in Hvalid. unfold addr_invalid in Hvalid.
  apply orb_false_elim in Hvalid. destruct Hvalid as [Hv1 Hv2].
  rewrite Z.geb_leb in Hv1, Hv2. apply Z.leb_gt in Hv1. apply Z.leb_gt in Hv2.
  unfold bplib_store_flash_retrieve in Hret.
  rewrite sid_addr_get_sid in Hret by (try assumption; lia).
  unfold put_store in Hret. cbn [flash_stores glob] in Hret.
  rewrite upd_same in Hret.
  destruct (flash_object_read drv fuel' _ hdl w g2)
    as [[[[[st addr1] obj1] fsr1] g3]|] eqn:Hr; [|discriminate].
  injection Hret as -> <- _.
  rewrite <- Hw2. rewrite <- Hw2 in Hr.
  eapply (@object_round_trip _ drv content fuel fuel' fs2); eauto.
  - rewrite Hw2. exact Hpg0.
  - rewrite Hw2. intros b [->|Hb]; [|apply HmaxF; exact Hb].
    unfold index_modulus in *. lia.
  - rewrite Hw2. exact Hok.
Qed.

(** A successful read of no more than a page ends on the next chain page. *)
Lemma data_read_one_page fuel a buf off n (g : flash_globals D) a' buf' g' :
  read_law drv content ->
  0 < n <= page_size drv ->
  0 <= off -> (Z.to_nat off <= length buf)%nat ->
  page_ok (flash_blocks g) a ->
  flash_data_read drv fuel a buf off n g = Some (BP_SUCCESS, a', buf', g') ->
  a' = chain_next (flash_blocks g) a.
Proof.
  intros Hread Hn Hoff Hlen Hpage Hrun. unfold flash_data_read in Hrun.
  destruct (addr_invalid drv a g); [discriminate|].
  assert (Hps : 0 < page_size drv) by lia.
  assert (Hk : (Z.of_nat 1 - 1) * page_size drv < n <= Z.of_nat 1 * page_size drv)
    by (change (Z.of_nat 1) with 1; lia).
  assert (Hpages : Forall (page_ok (flash_blocks g)) (chain_pages (flash_blocks g) 1 a))
    by (cbn [chain_pages]; constructor; [exact Hpage|constructor]).
  destruct (@read_loop_pages _ drv content 1 Hread Hps fuel a buf off n g a' buf' g'
              Hk Hoff Hlen Hpages Hrun) as (H & _).
  exact H.
Qed.

(** X11. A dequeue while the read stage is locked loses the object at the
    read cursor: with a header there that carries the sync word, the
    dequeue answers [BP_FAILEDSTORE] and leaves the read cursor one page
    further, behind that header. *)
Theorem dequeue_locked_skips_header (fuel : nat) (hdl : Z) (s : flash_state D)
    (a1 : bp_flash_addr_t) (buf : list Z) (g1 : flash_globals D) :
  read_law drv content ->
  hdr_size <= page_size drv ->
  let fs := flash_stores s hdl in
  stage_locked fs = true ->
  read_addr fs <> write_addr fs ->
  block (read_addr fs) <> BP_FLASH_INVALID_INDEX ->
  page_ok (flash_blocks (glob s)) (read_addr fs) ->
  flash_data_read drv fuel (read_addr fs) (repeat 0 (Z.to_nat hdr_size)) 0 hdr_size
                  (glob s)
  = Some (BP_SUCCESS, a1, buf, g1) ->
  sync (decode_hdr buf) = FLASH_OBJECT_SYNC ->
  exists s',
    bplib_store_flash_dequeue drv (S fuel) hdl s = Some (BP_FAILEDSTORE, None, s')
    /\ read_addr (flash_stores s' hdl)
       = chain_next (flash_blocks (glob s)) (read_addr fs)
    /\ stage_locked (flash_stores s' hdl) = true.
Proof.
  intros Hread Hps fs Hl Hne Hblk Hpage Hrun Hsync.
  assert (Ha1 : a1 = chain_next (flash_blocks (glob s)) (read_addr fs)).
  { apply (@data_read_one_page fuel (read_addr fs) (repeat 0 (Z.to_nat hdr_size)) 0
             hdr_size (glob s) a1 buf g1); try assumption.
    - unfold hdr_size in *. lia.
    - lia.
    - cbn. lia. }
  unfold bplib_store_flash_dequeue. fold fs.
  assert (Hcond : negb (block (read_addr fs) =? block (write_addr fs))
                  || negb (page (read_addr fs) =? page (write_addr fs)) = true).
  { destruct (block (read_addr fs) =? block (write_addr fs)) eqn:Eb; [|reflexivity].
    destruct (page (read_addr fs) =? page (write_addr fs)) eqn:Ep; [|reflexivity].
    apply Z.eqb_eq in Eb, Ep. exfalso. apply Hne.
    destruct (read_addr fs), (write_addr fs). cbn in Eb, Ep. congruence. }
  rewrite Hcond.
  pose proof (@object_read_locked _ drv (S fuel) fs hdl (read_addr fs) (glob s) Hl) as Hr.
  rewrite Hr.
  cbn [is_success bp_status_eqb negb read_addr set_read_addr].
  unfold flash_object_scan. cbn [flash_object_scan_loop].
  apply Z.eqb_neq in Hblk. rewrite Hblk.
  cbn [negb andb is_success bp_status_eqb].
  rewrite Hrun. cbn [is_success bp_status_eqb andb].
  rewrite Hsync, Z.eqb_refl.
  assert (Hdone : flash_object_scan_loop drv fuel BP_SUCCESS a1 g1
                  = Some (BP_SUCCESS, a1, g1)).
  { destruct fuel; cbn [flash_object_scan_loop is_success bp_status_eqb negb];
      rewrite andb_false_r; reflexivity. }
  rewrite Hdone. eexists. split; [reflexivity|].
  unfold put_store. cbn [flash_stores]. rewrite upd_same.
  cbn [read_addr set_read_addr stage_locked]. split; [exact Ha1|exact Hl].
Qed.

End ReadBack.

(** * Writing and reading data *)

Section DataLevel.
Variable D : Type.
Variable drv : bp_flash_driver_t D.
Variable content : D -> Z -> Z -> list Z.

Lemma pages_for_range (sz : Z) :
  0 < page_size drv -> 0 <= sz ->
  (Z.of_nat (pages_for (page_size drv) sz) - 1) * page_size drv < sz
  <= Z.of_nat (pages_for (page_size drv) sz) * page_size drv.
Proof.
  intros Hps Hsz. unfold pages_for.
  assert (H0 : 0 <= (sz + page_size drv - 1) / page_size drv)
    by (apply Z.div_pos; lia).
  rewrite Z2Nat.id by exact H0. apply ceil_pages. exact Hps.
Qed.


(** A pass of the read loop counts an error exactly when the driver fails. *)
Lemma data_read_loop_bounded (k : nat) :
  0 < page_size drv ->
  forall fuel a buf off left (g : flash_globals D),
    (k <= fuel)%nat ->
    left <= Z.of_nat k * page_size drv ->
    0 <= block a < num_blocks drv ->
    (forall b, 0 <= b < num_blocks drv ->
               next_block (flash_blocks g b) <> BP_FLASH_INVALID_INDEX ->
               0 <= next_block (flash_blocks g b) < num_blocks drv) ->
    exists st a' buf' g',
      flash_data_read_loop drv fuel a buf off left g = Some (st, a', buf', g')
      /\ flash_error_count g <= flash_error_count g' <= flash_error_count g + 1
      /\ (st = BP_SUCCESS -> flash_error_count g' = flash_error_count g)
      /\ 0 <= block a' < num_blocks drv.
Proof.
  intros Hps. induction k as [|k IH]; intros fuel a buf off left g Hfuel Hleft Hblk Hlinks.
  - assert (Hle : (left >? 0) = false) by (rewrite Z.gtb_ltb; apply Z.ltb_ge; lia).
    exists BP_SUCCESS, a, buf, g.
    split; [destruct fuel; cbn [flash_data_read_loop]; rewrite Hle; reflexivity|].
    split; [lia|]. split; [reflexivity|exact Hblk].
  - destruct (left >? 0) eqn:Egt.
    2:{ exists BP_SUCCESS, a, buf, g.
        split; [destruct fuel; cbn [flash_data_read_loop]; rewrite Egt; reflexivity|].
        split; [lia|]. split; [reflexivity|exact Hblk]. }
    apply Z.gtb_lt in Egt.
    destruct fuel as [|fuel]; [lia|].
    cbn [flash_data_read_loop].
    replace (left >? 0) with true by (symmetry; apply Z.gtb_lt; lia).
    pose proof (bytes_to_copy_range drv Hps Egt) as Hn.
    destruct (read drv a (bytes_to_copy drv left) (dev g)) as [[status bytes] dev1].
    destruct (is_success status) eqn:Es.
    + assert (Hrest : forall addr1,
                0 <= block addr1 < num_blocks drv ->
                exists st a' buf' g',
                  flash_data_read_loop drv fuel addr1
                    (poke buf off bytes) (off + bytes_to_copy drv left)
                    (left - bytes_to_copy drv left) (set_dev g dev1)
                  = Some (st, a', buf', g')
                  /\ flash_error_count g <= flash_error_count g'
                     <= flash_error_count g + 1
                  /\ (st = BP_SUCCESS -> flash_error_count g' = flash_error_count g)
                  /\ 0 <= block a' < num_blocks drv).
      { intros addr1 Hb1.
        destruct (IH fuel addr1 (poke buf off bytes) (off + bytes_to_copy drv left)
                     (left - bytes_to_copy drv left) (set_dev g dev1))
          as (st & a' & buf' & g' & Hrun & Herr); [lia| |exact Hb1|exact Hlinks|].
        { unfold bytes_to_copy.
          destruct (left <? page_size drv) eqn:El;
            [apply Z.ltb_lt in El|apply Z.ltb_ge in El]; nia. }
        exists st, a', buf', g'. split; [exact Hrun|exact Herr]. }
      cbn [block page flash_blocks set_dev].
      destruct (_ =? max_pages _).
      * destruct (next_block (flash_blocks g (block a)) =? BP_FLASH_INVALID_INDEX)
          eqn:Enext.
        -- eexists _, _, _, _. split; [reflexivity|].
           cbn [flash_error_count set_dev block]. split; [lia|].
           split; [reflexivity|exact Hblk].
        -- apply Hrest. cbn [block]. apply Hlinks; [exact Hblk|].
           apply Z.eqb_neq. exact Enext.
      * apply Hrest. exact Hblk.
    + eexists _, _, _, _. split; [reflexivity|].
      cbn [flash_error_count set_error_count set_dev]. split; [lia|].
      split; [intros ->; discriminate Es|exact Hblk].
Qed.

(** X15. From an address in a block of the device, on a block array whose
    links lead to blocks of the device, [flash_data_read] always returns,
    after no more page reads than the size calls for, at an address in a
    block of the device; it leaves the block registry and both lists alone,
    and counts one error at most, and none when it succeeds. *)
Theorem data_read_returns (fuel : nat) (a : bp_flash_addr_t) (buf : list Z)
    (off size : Z) (g : flash_globals D) :
  0 < page_size drv ->
  0 <= block a < num_blocks drv ->
  (forall b, 0 <= b < num_blocks drv ->
             next_block (flash_blocks g b) <> BP_FLASH_INVALID_INDEX ->
             0 <= next_block (flash_blocks g b) < num_blocks drv) ->
  (pages_for (page_size drv) size <= fuel)%nat ->
  exists st a' buf' g',
    flash_data_read drv fuel a buf off size g = Some (st, a', buf', g')
    /\ 0 <= block a' < num_blocks drv
    /\ same_registry g g'
    /\ flash_error_count g <= flash_error_count g' <= flash_error_count g + 1
    /\ (st = BP_SUCCESS -> flash_error_count g' = flash_error_count g).
Proof.
  intros Hps Hblk Hlinks Hfuel.
  assert (Hex : exists st a' buf' g',
             flash_data_read drv fuel a buf off size g = Some (st, a', buf', g')
             /\ flash_error_count g <= flash_error_count g' <= flash_error_count g + 1
             /\ (st = BP_SUCCESS -> flash_error_count g' = flash_error_count g)
             /\ 0 <= block a' < num_blocks drv).
  { unfold flash_data_read. destruct (addr_invalid drv a g).
    - eexists _, _, _, _. split; [reflexivity|]. split; [lia|].
      split; [reflexivity|exact Hblk].
    - destruct (Z_le_gt_dec size 0) as [Hle|Hgt].
      + apply (@data_read_loop_bounded 0 Hps); [lia|cbn; lia|exact Hblk|exact Hlinks].
      + apply (@data_read_loop_bounded (pages_for (page_size drv) size) Hps);
          [exact Hfuel| |exact Hblk|exact Hlinks].
        apply pages_for_range; lia. }
  destruct Hex as (st & a' & buf' & g' & Hrun & Herr & Hst & Hb').
  exists st, a', buf', g'. split; [exact Hrun|]. split; [exact Hb'|].
  split; [|split; [exact Herr|exact Hst]].
  apply (@data_read_registry _ drv fuel a buf off size g st a' buf' g' Hrun).
Qed.

(** X16. [flash_data_write] does not give up on a block whose first page
    cannot be written: the block is reclaimed and the next free block taken,
    which may be the same block again.  On a device whose writes to page 0
    fail, whose erases succeed and that reports no block bad, the write loop
    never returns, whatever the fuel. *)
Theorem data_write_first_page_failure_loops (fuel : nat) :
  (forall b bytes d, fst (write drv (mk_addr b 0) bytes d) <> BP_SUCCESS) ->
  (forall b d, fst (erase drv b d) = BP_SUCCESS) ->
  (forall b d, isbad drv b d = false) ->
  forall (a : bp_flash_addr_t) (data : list Z) (idx left : Z) (g : flash_globals D),
    page a = 0 ->
    block a <> BP_FLASH_INVALID_INDEX ->
    0 < left ->
    flash_data_write_loop drv fuel a data idx left g = None.
Proof.
  intros Hwf Her Hgood. induction fuel as [|fuel IH];
    intros a data idx left g Hpg Hblk Hleft;
    cbn [flash_data_write_loop];
    replace (left >? 0) with true by (symmetry; apply Z.gtb_lt; lia);
    [reflexivity|].
  destruct a as [b p]. cbn [page block] in *. subst p.
  pose proof (Hwf b (slice data idx (bytes_to_copy drv left)) (dev g)) as Hst.
  destruct (write drv (mk_addr b 0) _ (dev g)) as [status dev1].
  cbn [fst] in Hst.
  assert (Es : is_success status = false).
  { destruct status; try reflexivity. congruence. }
  rewrite Es. cbn [page block]. change (0 >? 0) with false. cbn iota.
  set (g2 := set_error_count (set_dev g dev1) _).
  pose proof (list_add_facts (flash_free_blocks g2)
                (upd (flash_blocks g2) b
                   (mk_block BP_FLASH_INVALID_INDEX BP_FLASH_INVALID_INDEX
                             (pages_per_block drv) (fun _ => 255))) b)
    as (_ & Hout & _).
  specialize (Hout Hblk).
  assert (Hg3 : out (flash_free_blocks (snd (flash_free_reclaim drv b g2)))
                <> BP_FLASH_INVALID_INDEX).
  { unfold flash_free_reclaim. rewrite Hgood. cbn [negb].
    destruct (flash_block_list_add _ _ b) as [l bs2]. cbn [fst snd] in *.
    exact Hout. }
  set (g3 := snd (flash_free_reclaim drv b g2)) in *.
  unfold flash_free_allocate.
  destruct fuel as [|fuel'].
  { cbn [flash_free_allocate_loop is_success bp_status_eqb negb andb].
    apply Z.eqb_neq in Hg3. rewrite Hg3. reflexivity. }
  cbn [flash_free_allocate_loop is_success bp_status_eqb negb andb].
  pose proof Hg3 as Hg3'. apply Z.eqb_neq in Hg3'. rewrite Hg3'. cbn [negb].
  unfold flash_free_allocate_body.
  pose proof (Her (out (flash_free_blocks g3)) (dev g3)) as Hes.
  destruct (erase drv (out (flash_free_blocks g3)) (dev g3)) as [st dev2].
  cbn [fst] in Hes. subst st. cbn [is_success bp_status_eqb].
  match goal with
  | |- match flash_free_allocate_loop drv fuel' BP_SUCCESS ?blk ?gg with _ => _ end = _ =>
      assert (Hdone : flash_free_allocate_loop drv fuel' BP_SUCCESS blk gg
                      = Some (BP_SUCCESS, blk, gg))
        by (destruct fuel'; reflexivity);
      rewrite Hdone
  end.
  cbn [is_success bp_status_eqb].
  apply IH; [reflexivity|exact Hg3|exact Hleft].
Qed.

End DataLevel.

(** * Giving objects up *)

Section Relinquish.
Variable D : Type.
Variable drv : bp_flash_driver_t D.

(** X17. A relinquish deletes nothing unless the header at the address of
    its SID carries that SID.  Let the SID name a block of the device, on a
    device whose pages hold a header: when the header read there fails or
    holds another SID, the call answers an error, and the object count, the
    page bitmaps and the block lists are as before. *)
Theorem relinquish_checks_sid (fuel : nat) (hdl osid : Z) (s : flash_state D)
    (st : bp_status) (a1 : bp_flash_addr_t) (buf : list Z) (g1 : flash_globals D) :
  0 <= block (sid_addr drv osid) < num_blocks drv ->
  hdr_size <= page_size drv ->
  flash_data_read drv fuel (sid_addr drv osid) (repeat 0 (Z.to_nat hdr_size)) 0
                  hdr_size (glob s) = Some (st, a1, buf, g1) ->
  st <> BP_SUCCESS \/ sid (object (decode_hdr buf)) <> osid ->
  exists st' s',
    bplib_store_flash_relinquish drv fuel hdl osid s = Some (st', s')
    /\ st' <> BP_SUCCESS
    /\ object_count (flash_stores s' hdl) = object_count (flash_stores s hdl)
    /\ same_registry (glob s) (glob s').
Proof.
  intros _ _ Hread Hcase.
  assert (Hdel : exists st' g',
             flash_object_delete drv fuel osid (glob s) = Some (st', g')
             /\ st' <> BP_SUCCESS /\ same_registry (glob s) g').
  { unfold flash_object_delete.
    destruct (addr_invalid drv (sid_addr drv osid) (glob s)).
    - eexists _, _. split; [reflexivity|]. split; [discriminate|].
      apply same_registry_refl.
    - rewrite Hread. pose proof Hread as Hreg.
      apply data_read_registry in Hreg.
      destruct (is_success st) eqn:Es; cbn [negb].
      + apply is_success_true in Es.
        destruct Hcase as [Hne|Hne]; [contradiction|].
        apply Z.eqb_neq in Hne. rewrite Hne. cbn [negb].
        eexists _, _. split; [reflexivity|]. split; [discriminate|exact Hreg].
      + eexists _, _. split; [reflexivity|]. split; [|exact Hreg].
        intros ->. discriminate Es. }
  destruct Hdel as (st' & g' & Hrun & Hst & Hreg).
  unfold bplib_store_flash_relinquish. rewrite Hrun.
  eexists _, _. split; [reflexivity|]. split; [exact Hst|].
  unfold put_store. cbn [flash_stores glob]. rewrite upd_same.
  assert (Es : is_success st' = false) by (destruct st'; try reflexivity; congruence).
  rewrite Es. split; [reflexivity|exact Hreg].
Qed.



End Relinquish.

(** * The order of the queue *)

Section Queue.
Variable D : Type.
Variable drv : bp_flash_driver_t D.
Variable content : D -> Z -> Z -> list Z.

(** Where a write without page failure leaves the registry: the free list
    is a part of the one before, the cursor is a page of its block, and the
    pages written lie behind the cursor, in blocks that are free no more. *)
Lemma write_loop_trace (k : nat) :
  write_law drv content -> erase_law drv content ->
  (forall a bytes d, fst (write drv a bytes d) = BP_SUCCESS) ->
  0 < page_size drv ->
  num_blocks drv < index_modulus ->
  forall fuel a data idx left (g : flash_globals D) F a' g',
    (Z.of_nat k - 1) * page_size drv < left <= Z.of_nat k * page_size drv ->
    0 <= idx -> idx + left <= Z.of_nat (length data) ->
    registry_ok drv g (block a) F ->
    (forall b, b = block a \/ In b F ->
               max_pages (flash_blocks g b) < index_modulus) ->
    0 <= page a < max_pages (flash_blocks g (block a)) ->
    block a < num_blocks drv ->
    flash_data_write_loop drv fuel a data idx left g = Some (BP_SUCCESS, a', g') ->
    exists F',
      registry_ok drv g' (block a') F'
      /\ (forall b, In b F' -> In b F)
      /\ ((block a' = block a /\ page a <= page a') \/ In (block a') F)
      /\ 0 <= page a' < max_pages (flash_blocks g' (block a'))
      /\ block a' < num_blocks drv
      /\ (forall t, bad_tail g' = Some t -> bad_tail g = Some t \/ In t F)
      /\ Forall (fun p => (block p = block a \/ In (block p) F)
                          /\ ~ In (block p) F'
                          /\ (block p <> block a' \/ page p < page a')
                          /\ bad_tail g' <> Some (block p))
                (chain_pages (flash_blocks g') k a).
Proof.
  intros Hwrite Herase Hwok Hps Hnb.
  induction k as [|k IH];
    intros fuel a data idx left g F a' g' Hk Hidx Hlen Hok Hmaxok Hpg Hblk Hrun.
  - assert (Hle : (left >? 0) = false) by (rewrite Z.gtb_ltb; apply Z.ltb_ge; lia).
    destruct fuel; cbn [flash_data_write_loop] in Hrun; rewrite Hle in Hrun;
      injection Hrun as <- <-; exists F; cbn [chain_pages];
      (split; [exact Hok|]); (split; [auto|]); (split; [left; split; [reflexivity|lia]|]);
      (split; [exact Hpg|]); (split; [exact Hblk|]); (split; [auto|constructor]).
  - pose proof Hrun as Hrun0.
    destruct (@write_loop_laid _ drv content (S k) Hwrite Herase Hwok Hps Hnb fuel a
                data idx left g F a' g' Hk Hidx Hlen Hok Hmaxok Hpg Hblk Hrun0)
      as (_ & _ & _ & Hmax' & Hnext').
    destruct (pages_step drv k Hps Hk) as [Hleft Hk'].
    pose proof (bytes_to_copy_range drv Hps Hleft) as Hn.
    assert (Hgt : (left >? 0) = true) by (apply Z.gtb_lt; lia).
    destruct fuel as [|fuel]; cbn [flash_data_write_loop] in Hrun; rewrite Hgt in Hrun;
      [discriminate|].
    set (n := bytes_to_copy drv left) in *.
    pose proof (Hwok a (slice data idx n) (dev g)) as Hst.
    destruct (write drv a (slice data idx n) (dev g)) as [st dev1] eqn:Hw.
    cbn [fst] in Hst. subst st. cbn [is_success bp_status_eqb] in Hrun.
    cbn [block page flash_blocks set_dev] in Hrun.
    rewrite (@to_index_small (page a + 1)) in Hrun
      by (pose proof (Hmaxok (block a) (or_introl eq_refl)); lia).
    pose proof (registry_ok_set_dev dev1 Hok) as Hok1.
    pose proof Hok as [_ HndF HcurF HbadF HgeomF].
    destruct (page a + 1 =? max_pages (flash_blocks g (block a))) eqn:Eend.
    + (* the block is full *)
      apply Z.eqb_eq in Eend.
      destruct (flash_free_allocate drv fuel BP_FLASH_INVALID_INDEX (set_dev g dev1))
        as [[[st2 nwb] g2]|] eqn:Ha; [|discriminate].
      destruct (is_success st2) eqn:Es2.
      2:{ injection Hrun as -> _ _. discriminate Es2. }
      unfold flash_free_allocate in Ha.
      assert (Hfs : is_success BP_FAILEDSTORE = false) by reflexivity.
      destruct (allocate_loop_chain Herase _ _ _ Hok1 Hfs Ha Es2)
        as (F1 & F2 & HF & Hok2 & Hc2 & Hm2 & Hn2 & Ht2).
      assert (HinF : In nwb F) by (rewrite HF; apply in_or_app; right; left; reflexivity).
      assert (Hne : block a <> nwb) by (intros E; apply HcurF; rewrite E; exact HinF).
      assert (Hsub : forall y, In y F2 -> In y F)
        by (intros y Hy; rewrite HF; apply in_or_app; right; right; exact Hy).
      assert (HnwbF2 : ~ In nwb F2).
      { rewrite HF in HndF. apply NoDup_remove_2 in HndF. intros H. apply HndF.
        apply in_or_app. right. exact H. }
      assert (Htail2 : forall t, bad_tail g2 = Some t -> t <> nwb /\ t <> block a).
      { intros t Ht. destruct (Ht2 t Ht) as [H|H].
        - destruct (HbadF t H) as [Hnin Hc]. split; [|exact Hc].
          intros ->. contradiction.
        - split.
          + rewrite HF in HndF. apply NoDup_remove_2 in HndF. intros ->.
            apply HndF. apply in_or_app. left. exact H.
          + intros ->. apply HcurF. rewrite HF. apply in_or_app. left. exact H. }
      change (set_blocks g2 _) with (link_behind g2 (block a) nwb) in Hrun.
      destruct (link_behind_facts g2 Hne) as (Hl1 & Hl2 & Hl3 & Hl4 & Hl5 & _).
      assert (Hok3 : registry_ok drv (link_behind g2 (block a) nwb) nwb F2).
      { apply registry_ok_link with (F1 := F1).
        - rewrite <- HF. exact HndF.
        - rewrite <- HF. exact HcurF.
        - exact Hok2.
        - intros t Ht. apply (Htail2 t Ht). }
      destruct (HgeomF nwb HinF) as [Hnwb Hroom].
      assert (HmaxF2 : forall b, b = block (mk_addr nwb 0) \/ In b F2 ->
                max_pages (flash_blocks (link_behind g2 (block a) nwb) b)
                < index_modulus).
      { intros b Hb. cbn [block] in Hb. rewrite Hl2, Hm2. apply Hmaxok. right.
        destruct Hb as [->|Hb]; [exact HinF|apply Hsub; exact Hb]. }
      assert (Hpg2 : 0 <= page (mk_addr nwb 0)
                     < max_pages (flash_blocks (link_behind g2 (block a) nwb)
                                               (block (mk_addr nwb 0)))).
      { cbn [block page]. rewrite Hl2, Hm2. cbn [flash_blocks set_dev]. lia. }
      assert (Hblk2 : block (mk_addr nwb 0) < num_blocks drv) by (cbn [block]; lia).
      assert (Hk2 : (Z.of_nat k - 1) * page_size drv < left - n
                    <= Z.of_nat k * page_size drv) by exact Hk'.
      assert (Hlen2 : idx + n + (left - n) <= Z.of_nat (length data)) by lia.
      assert (Hidx2 : 0 <= idx + n) by lia.
      destruct (@write_loop_laid _ drv content k Hwrite Herase Hwok Hps Hnb fuel
                  (mk_addr nwb 0) data (idx + n) (left - n)
                  (link_behind g2 (block a) nwb) F2 a' g'
                  Hk2 Hidx2 Hlen2 Hok3 HmaxF2 Hpg2 Hblk2 Hrun)
        as (_ & _ & _ & _ & Hnx).
      destruct (IH fuel (mk_addr nwb 0) data (idx + n) (left - n)
                   (link_behind g2 (block a) nwb) F2 a' g'
                   Hk2 Hidx2 Hlen2 Hok3 HmaxF2 Hpg2 Hblk2 Hrun)
        as (F' & Hok' & Hsub' & Hwhere & Hpg' & Hblk' & Hbt' & Hall).
      cbn [block page] in Hwhere, Hall, Hnx.
      assert (Ha'F : In (block a') F).
      { destruct Hwhere as [[E _]|H]; [rewrite E; exact HinF|apply Hsub; exact H]. }
      assert (Hcn : chain_next (flash_blocks g') a = mk_addr nwb 0).
      { unfold chain_next. rewrite Hmax'.
        replace (page a + 1 =? max_pages (flash_blocks g (block a))) with true
          by (symmetry; apply Z.eqb_eq; exact Eend).
        f_equal. rewrite Hnx; [exact Hl1| | |].
        - intros Hin. apply HcurF. apply Hsub. exact Hin.
        - exact Hne.
        - rewrite Hl5. intros Ht. apply (Htail2 _ Ht). reflexivity. }
      exists F'. split; [exact Hok'|].
      split; [intros b Hb; apply Hsub; apply Hsub'; exact Hb|].
      split; [right; exact Ha'F|].
      split; [exact Hpg'|]. split; [exact Hblk'|].
      split.
      { intros t Ht. destruct (Hbt' t Ht) as [H|H].
        - rewrite Hl5 in H. destruct (Ht2 t H) as [H'|H'].
          + left. exact H'.
          + right. rewrite HF. apply in_or_app. left. exact H'.
        - right. apply Hsub. exact H. }
      cbn [chain_pages]. rewrite Hcn. constructor.
      { split; [left; reflexivity|].
        split; [intros H; apply HcurF; apply Hsub; apply Hsub'; exact H|].
        split; [left; intros E; apply HcurF; rewrite E; exact Ha'F|].
        intros Ht. destruct (Hbt' _ Ht) as [H|H].
        - rewrite Hl5 in H. apply (Htail2 _ H). reflexivity.
        - apply HcurF. apply Hsub. exact H. }
      eapply Forall_impl; [|exact Hall].
      intros p (Hp1 & Hp2 & Hp3). split; [|exact (conj Hp2 Hp3)].
      right. destruct Hp1 as [->|Hp1]; [exact HinF|apply Hsub; exact Hp1].
    + (* the next page of the same block *)
      apply Z.eqb_neq in Eend.
      apply IH with (F := F) in Hrun; try assumption; try lia.
      * destruct Hrun as (F' & Hok' & Hsub' & Hwhere & Hpg' & Hblk' & Hbt' & Hall).
        cbn [block page flash_blocks dev set_dev] in Hwhere, Hall, Hbt'.
        assert (Hcn : chain_next (flash_blocks g') a = mk_addr (block a) (page a + 1)).
        { unfold chain_next. rewrite Hmax'.
          replace (page a + 1 =? max_pages (flash_blocks g (block a))) with false
            by (symmetry; apply Z.eqb_neq; exact Eend).
          reflexivity. }
        exists F'. split; [exact Hok'|]. split; [exact Hsub'|].
        split.
        { destruct Hwhere as [[E Hle]|H]; [left; split; [exact E|lia]|right; exact H]. }
        split; [exact Hpg'|]. split; [exact Hblk'|]. split; [exact Hbt'|].
        cbn [chain_pages]. rewrite Hcn. constructor; [|exact Hall].
        split; [left; reflexivity|].
        split; [intros H; apply HcurF; apply Hsub'; exact H|].
        split.
        { destruct Hwhere as [[E Hle]|H]; [right; lia|].
          left. intros E. apply HcurF. rewrite E. exact H. }
        intros Ht. destruct (Hbt' _ Ht) as [H|H].
        -- apply (HbadF _ H). reflexivity.
        -- apply HcurF. exact H.
      * cbn [block page flash_blocks set_dev]. lia.
Qed.

(** Data laid on chain pages stays laid when the pages keep their content
    and the blocks their size and, at a block end, their successor. *)
Lemma laid_preserved (k : nat) cont cont' bs bs' :
  (forall b, max_pages (bs' b) = max_pages (bs b)) ->
  forall a data idx left,
    laid drv k cont bs a data idx left ->
    Forall (fun p => cont' (block p) (page p) = cont (block p) (page p)
                     /\ (page p + 1 = max_pages (bs (block p)) ->
                         next_block (bs' (block p)) = next_block (bs (block p))))
           (chain_pages bs k a) ->
    laid drv k cont' bs' a data idx left
    /\ chain_end bs' k a = chain_end bs k a.
Proof.
  intros Hmax. induction k as [|k IH]; intros a data idx left Hlaid Hall.
  - cbn [laid chain_end]. auto.
  - cbn [laid chain_pages chain_end] in *.
    destruct Hlaid as (Hc & Hok & Hblk & Hrest).
    apply Forall_cons_iff in Hall. destruct Hall as [[Hca Hna] Hall].
    assert (Hcn : chain_next bs' a = chain_next bs a).
    { unfold chain_next. rewrite Hmax.
      destruct (page a + 1 =? max_pages (bs (block a))) eqn:E; [|reflexivity].
      apply Z.eqb_eq in E. rewrite (Hna E). reflexivity. }
    rewrite Hcn. destruct (IH _ _ _ _ Hrest Hall) as [IH1 IH2].
    split; [|exact IH2].
    split; [rewrite Hca; exact Hc|]. split; [|split; [exact Hblk|exact IH1]].
    destruct Hok as (H1 & H2 & H3). unfold page_ok. rewrite Hmax.
    split; [exact H1|]. split; [exact H2|].
    intros E. rewrite (Hna E). apply H3. exact E.
Qed.

(** What is laid as an object is read as that object. *)
Lemma object_read_laid (fuel' : nat) (fsr fsr' : flash_store_t) (hdl : Z)
    (d1 d2 tail : list Z) (ts osid : Z) (w addr' : bp_flash_addr_t)
    (g g3 : flash_globals D) (obj : option (bp_object_t * list Z)) :
  read_law drv content ->
  hdr_size <= page_size drv < 2 ^ 31 ->
  0 <= hdl < 2 ^ 31 ->
  hdr_size + Z.of_nat (length d1) + Z.of_nat (length d2) < 2 ^ 31 ->
  0 <= ts < ulong_modulus -> 0 <= osid < ulong_modulus ->
  let N := hdr_size + Z.of_nat (length d1) + Z.of_nat (length d2) in
  let h := mk_hdr FLASH_OBJECT_SYNC ts
                  (mk_object hdl (Z.of_nat (length d1) + Z.of_nat (length d2)) osid) in
  laid drv (pages_for (page_size drv) N) (content (dev g)) (flash_blocks g) w
       (encode_hdr h ++ d1 ++ d2 ++ tail) 0 N ->
  flash_object_read drv fuel' fsr hdl w g = Some (BP_SUCCESS, addr', obj, fsr', g3) ->
  obj = Some (mk_object hdl (Z.of_nat (length d1) + Z.of_nat (length d2)) osid,
              d1 ++ d2)
  /\ addr' = chain_end (flash_blocks g) (pages_for (page_size drv) N) w
  /\ (forall b q, content (dev g3) b q = content (dev g) b q)
  /\ flash_blocks g3 = flash_blocks g.
Proof.
  intros Hread Hps Hhdl Hsize Hts Hsid N h Hlaid Hr.
  assert (Hhs : hdr_size = 32) by reflexivity.
  set (n1 := Z.of_nat (length d1)) in *. set (n2 := Z.of_nat (length d2)) in *.
  assert (Hn1 : 0 <= n1) by (unfold n1; lia).
  assert (Hn2 : 0 <= n2) by (unfold n2; lia).
  set (stage3 := encode_hdr h ++ d1 ++ d2 ++ tail) in *.
  pose proof (encode_hdr_length h) as Hel.
  assert (Hlen3 : N <= Z.of_nat (length stage3)).
  { unfold stage3. rewrite !length_app, Hel. unfold N, n1, n2. lia. }
  assert (Hps0 : 0 < page_size drv) by lia.
  pose proof (ceil_pages N Hps0) as Hceil.
  set (k := pages_for (page_size drv) N) in *.
  assert (Hk : Z.of_nat k = (N + page_size drv - 1) / page_size drv).
  { unfold k, pages_for. apply Z2Nat.id. apply Z.div_pos; unfold N; lia. }
  rewrite <- Hk in Hceil.
  assert (HN0 : 0 < N) by (unfold N; lia).
  assert (Hk1 : (1 <= k)%nat) by nia.
  destruct k as [|k0]; [lia|].
  destruct (pages_step drv k0 Hps0 Hceil) as [HN Hk0].
  pose proof (bytes_to_copy_range drv Hps0 HN) as Hn0.
  cbn [laid] in Hlaid. destruct Hlaid as (Hc0 & Hok0 & _ & Hrest).
  set (n0 := bytes_to_copy drv N) in *.
  pose proof Hr as Hreg3. apply object_read_registry in Hreg3.
  destruct Hreg3 as (Hblocks3 & _).
  unfold flash_object_read in Hr.
  destruct (negb (stage_locked fsr)); [|discriminate].
  destruct (flash_data_read drv fuel' w (read_stage fsr) 0 (page_size drv) g)
    as [[[[st1 addr1] stage1] gr]|] eqn:Hr1; [|discriminate].
  destruct (is_success st1) eqn:Est1.
  2:{ rewrite Est1 in Hr. injection Hr as E _ _ _ _. rewrite E in Est1.
      discriminate Est1. }
  apply is_success_true in Est1. subst st1.
  pose proof Hr1 as Hreg. apply data_read_registry in Hreg.
  destruct Hreg as (Hblocks & _).
  unfold flash_data_read in Hr1.
  destruct (addr_invalid drv w g); [discriminate|].
  assert (Hone : (Z.of_nat 1 - 1) * page_size drv < page_size drv
                 <= Z.of_nat 1 * page_size drv) by (change (Z.of_nat 1) with 1; lia).
  assert (Hpages1 : Forall (page_ok (flash_blocks g)) (chain_pages (flash_blocks g) 1 w)).
  { cbn [chain_pages]. constructor; [exact Hok0|constructor]. }
  destruct (@read_loop_pages _ drv content 1 Hread Hps0 fuel' w (read_stage fsr) 0
              (page_size drv) g addr1 stage1 gr Hone ltac:(lia) ltac:(cbn; lia)
              Hpages1 Hr1)
    as (Haddr1 & Hstage1 & Hcont1 & Hlen1).
  cbn [chain_end read_pages] in Haddr1, Hstage1, Hlen1.
  rewrite app_nil_r in Hstage1, Hlen1.
  assert (Hbps : bytes_to_copy drv (page_size drv) = page_size drv).
  { unfold bytes_to_copy. rewrite Z.ltb_irrefl. reflexivity. }
  rewrite Hbps in Hstage1, Hlen1.
  set (P := firstn (Z.to_nat (page_size drv)) (content (dev g) (block w) (page w)))
    in *.
  rewrite poke_zero_prefix in Hstage1.
  assert (Hfull : slice stage3 0 N = encode_hdr h ++ d1 ++ d2).
  { unfold slice, stage3. cbn [Z.to_nat skipn].
    rewrite !app_assoc. apply firstn_app_exact.
    rewrite length_app. rewrite length_app. rewrite Hel. unfold N, n1, n2. lia. }
  assert (Hview : forall buf,
             firstn (Z.to_nat N) buf = slice stage3 0 N ->
             Some (object (decode_hdr buf), object_data buf)
             = Some (mk_object hdl (n1 + n2) osid, d1 ++ d2)).
  { intros buf Hbuf. rewrite Hfull in Hbuf.
    assert (Hsz : n1 + n2 = Z.of_nat (length (d1 ++ d2)))
      by (rewrite length_app; unfold n1, n2; lia).
    destruct (@stage_view buf (d1 ++ d2) ts hdl osid) as [Hdec Hdata];
      try assumption; try lia.
    - rewrite <- Hsz. fold h. rewrite <- Hbuf. f_equal. unfold N. lia.
    - rewrite Hdec, Hdata, <- Hsz. reflexivity. }
  assert (Hpre1 : firstn (Z.to_nat n0) stage1 = slice stage3 0 n0).
  { rewrite Hstage1, firstn_app.
    replace (Z.to_nat n0 - length P)%nat with 0%nat by lia.
    cbn [firstn]. rewrite app_nil_r. unfold P.
    rewrite firstn_firstn_le by lia. exact Hc0. }
  assert (Hdec1 : decode_hdr stage1 = h).
  { apply prefix_decode; try assumption; try lia.
    assert (H32 : (32 <= Z.to_nat n0)%nat).
    { unfold n0, bytes_to_copy. destruct (N <? page_size drv); unfold N; lia. }
    rewrite <- (firstn_firstn_le stage1 H32), Hpre1.
    unfold slice. cbn [Z.to_nat skipn]. rewrite firstn_firstn_le by exact H32.
    unfold stage3. apply firstn_app_exact. symmetry. apply encode_hdr_length. }
  rewrite Hdec1 in Hr. unfold h in Hr. cbn [object size handle sync] in Hr.
  rewrite (@to_ulong_small (page_size drv - hdr_size)) in Hr
    by (unfold ulong_modulus; lia).
  rewrite (@to_int_small (page_size drv - hdr_size)) in Hr by lia.
  destruct (_ && _) in Hr; [|discriminate].
  destruct (n1 + n2 - (page_size drv - hdr_size) >? 0) eqn:Erem.
  - (* the object goes on beyond its first page *)
    apply Z.gtb_lt in Erem.
    assert (Hn0ps : n0 = page_size drv).
    { unfold n0, bytes_to_copy. destruct (N <? page_size drv) eqn:E; [|reflexivity].
      apply Z.ltb_lt in E. unfold N in E. lia. }
    replace (n1 + n2 - (page_size drv - hdr_size)) with (N - n0) in Hr
      by (unfold N; lia).
    destruct (flash_data_read drv fuel' addr1 stage1 (page_size drv) (N - n0) gr)
      as [[[[st2 addr2] stage2] gr2]|] eqn:Hr2; [|discriminate Hr].
    destruct (is_success st2) eqn:Est2;
      [|injection Hr as E _ _ _ _; rewrite E in Est2; discriminate Est2].
    apply is_success_true in Est2. subst st2.
    injection Hr as <- <- _ <-.
    unfold flash_data_read in Hr2.
    destruct (addr_invalid drv addr1 gr); [discriminate|].
    assert (Hpages2 : Forall (page_ok (flash_blocks gr))
                             (chain_pages (flash_blocks gr) k0 addr1)).
    { rewrite Hblocks, Haddr1. eapply laid_pages. exact Hrest. }
    assert (Hoff2 : 0 <= page_size drv) by lia.
    assert (Hlen1' : (Z.to_nat (page_size drv) <= length stage1)%nat)
      by (rewrite Hstage1, length_app; lia).
    destruct (@read_loop_pages _ drv content k0 Hread Hps0 fuel' addr1 stage1
                (page_size drv) (N - n0) gr addr2 stage2 gr2
                Hk0 Hoff2 Hlen1' Hpages2 Hr2)
      as (Haddr2 & Hstage2 & Hcont2 & Hlen2).
    rewrite Hblocks, Haddr1 in Hstage2, Hlen2, Haddr2.
    rewrite (@read_pages_ext _ drv k0 _ _ (flash_blocks g) Hcont1) in Hstage2, Hlen2.
    rewrite (@laid_read_pages _ drv k0 _ _ Hps0 _ stage3 (0 + n0) (N - n0) Hk0)
      in Hstage2, Hlen2; try lia; try exact Hrest.
    split.
    { apply Hview.
      rewrite Hstage2, Hstage1.
      replace (page_size drv) with (Z.of_nat (length P)) at 1 by lia.
      rewrite poke_after, app_assoc.
      assert (HP : P = slice stage3 0 n0).
      { rewrite <- Hc0. unfold P. rewrite Hn0ps. reflexivity. }
      rewrite HP at 1. rewrite slice_app by lia.
      replace (n0 + (N - n0)) with N by lia.
      apply firstn_app_exact. symmetry. apply slice_length; lia. }
    split; [cbn [chain_end]; exact Haddr2|].
    split; [intros b q; rewrite Hcont2; apply Hcont1|exact Hblocks3].
  - (* the object fits its first page *)
    rewrite Z.gtb_ltb in Erem. apply Z.ltb_ge in Erem.
    cbn [is_success bp_status_eqb] in Hr. injection Hr as <- <- _ <-.
    assert (Hn0N : n0 = N).
    { unfold n0, bytes_to_copy. destruct (N <? page_size drv) eqn:E; [reflexivity|].
      apply Z.ltb_ge in E. unfold N in *. lia. }
    assert (Hk00 : k0 = O).
    { rewrite Hn0N in Hk0. destruct k0; [reflexivity|]. nia. }
    split; [apply Hview; rewrite <- Hn0N; exact Hpre1|].
    subst k0. cbn [chain_end].
    split; [exact Haddr1|]. split; [exact Hcont1|exact Hblocks3].
Qed.

(** What a successful [flash_object_write] leaves: the object laid from the
    write address on, the write address behind it, and the registry as
    [write_loop_trace] has it. *)
Lemma object_write_laid (fuel : nat) (fs fs' : flash_store_t) (hdl : Z)
    (d1 d2 : list Z) (sysnow : Z) (g g2 : flash_globals D) (F : list Z) :
  write_law drv content -> erase_law drv content ->
  (forall a bytes d, fst (write drv a bytes d) = BP_SUCCESS) ->
  hdr_size <= page_size drv < 2 ^ 31 ->
  num_blocks drv < index_modulus ->
  hdr_size + Z.of_nat (length d1) + Z.of_nat (length d2) < 2 ^ 31 ->
  let w := write_addr fs in
  let N := hdr_size + Z.of_nat (length d1) + Z.of_nat (length d2) in
  let k := pages_for (page_size drv) N in
  let h := mk_hdr FLASH_OBJECT_SYNC (to_ulong sysnow)
                  (mk_object hdl (Z.of_nat (length d1) + Z.of_nat (length d2))
                             (to_ulong (FLASH_GET_SID drv w))) in
  0 <= page w ->
  (forall b, b = block w \/ In b F ->
             max_pages (flash_blocks g b) < index_modulus) ->
  registry_ok drv g (block w) F ->
  flash_object_write drv fuel fs hdl (Some d1) (Z.of_nat (length d1))
                     (Some d2) (Z.of_nat (length d2)) sysnow g
  = Some (BP_SUCCESS, fs', g2) ->
  exists tail F',
    laid drv k (content (dev g2)) (flash_blocks g2) w
         (encode_hdr h ++ d1 ++ d2 ++ tail) 0 N
    /\ write_addr fs' = chain_end (flash_blocks g2) k w
    /\ (read_addr fs' = read_addr fs /\ attributes fs' = attributes fs
        /\ stage_locked fs' = stage_locked fs /\ object_count fs' = object_count fs
        /\ read_stage fs' = read_stage fs)
    /\ (forall b q, ~ In b F -> (b <> block w \/ q < page w) ->
                    content (dev g2) b q = content (dev g) b q)
    /\ (forall b, max_pages (flash_blocks g2 b) = max_pages (flash_blocks g b))
    /\ (forall b, ~ In b F -> b <> block w -> bad_tail g <> Some b ->
                  next_block (flash_blocks g2 b) = next_block (flash_blocks g b))
    /\ registry_ok drv g2 (block (write_addr fs')) F'
    /\ (forall b, In b F' -> In b F)
    /\ ((block (write_addr fs') = block w /\ page w <= page (write_addr fs'))
        \/ In (block (write_addr fs')) F)
    /\ 0 <= page (write_addr fs')
       < max_pages (flash_blocks g2 (block (write_addr fs')))
    /\ block (write_addr fs') < num_blocks drv
    /\ Forall (fun p => (block p = block w \/ In (block p) F)
                        /\ ~ In (block p) F'
                        /\ (block p <> block (write_addr fs')
                            \/ page p < page (write_addr fs'))
                        /\ bad_tail g2 <> Some (block p))
              (chain_pages (flash_blocks g2) k w).
Proof.
  intros Hwrite Herase Hwok Hps Hnb Hsize w N k h Hpg0 Hmaxok Hok Hw.
  assert (Hhs : hdr_size = 32) by reflexivity.
  unfold flash_object_write in Hw.
  set (n1 := Z.of_nat (length d1)) in *. set (n2 := Z.of_nat (length d2)) in *.
  assert (Hn1 : 0 <= n1) by (unfold n1; lia).
  assert (Hn2 : 0 <= n2) by (unfold n2; lia).
  fold N in Hw.
  rewrite (@to_ulong_small N) in Hw by (unfold ulong_modulus, N; lia).
  rewrite (@to_int_small N) in Hw by (unfold N; lia).
  rewrite (@to_int_small (n1 + n2)) in Hw by lia.
  destruct (_ && _) in Hw; [|discriminate].
  fold w in Hw. fold h in Hw.
  destruct (stage_image (write_stage fs) d1 d2 h) as [tail Hstage].
  fold n1 n2 in Hstage. rewrite Hstage in Hw.
  set (stage3 := encode_hdr h ++ d1 ++ d2 ++ tail) in *.
  pose proof (encode_hdr_length h) as Hel.
  assert (Hlen3 : N <= Z.of_nat (length stage3)).
  { unfold stage3. rewrite !length_app, Hel. unfold N, n1, n2. lia. }
  destruct (flash_data_write drv fuel w stage3 N g) as [[[st a'] gw]|] eqn:Hdw;
    [|discriminate].
  injection Hw as -> <- ->.
  unfold flash_data_write in Hdw.
  destruct (addr_invalid drv w g) eqn:Hinv; [discriminate|].
  unfold addr_invalid in Hinv. apply orb_false_iff in Hinv.
  destruct Hinv as [Hpg Hblk].
  rewrite Z.geb_leb in Hpg, Hblk. apply Z.leb_gt in Hpg, Hblk.
  assert (Hps0 : 0 < page_size drv) by lia.
  assert (HN0 : 0 <= N) by (unfold N; lia).
  pose proof (pages_for_range drv Hps0 HN0) as Hk. fold k in Hk.
  assert (Hpgw : 0 <= page w < max_pages (flash_blocks g (block w))) by lia.
  destruct (@write_loop_laid _ drv content k Hwrite Herase Hwok Hps0 Hnb fuel w stage3 0
              N g F a' g2 Hk ltac:(lia) ltac:(lia) Hok Hmaxok Hpgw Hblk Hdw)
    as (Hlaid & Ha' & Hc & Hm & Hnx).
  destruct (@write_loop_trace k Hwrite Herase Hwok Hps0 Hnb fuel w stage3 0
              N g F a' g2 Hk ltac:(lia) ltac:(lia) Hok Hmaxok Hpgw Hblk Hdw)
    as (F' & T1 & T2 & T3 & T4 & T5 & _ & T7).
  exists tail, F'. cbn [write_addr set_write_addr set_write_stage read_addr attributes
                        stage_locked object_count read_stage].
  split; [exact Hlaid|]. split; [exact Ha'|]. split; [repeat split|].
  split; [exact Hc|]. split; [exact Hm|]. split; [exact Hnx|].
  split; [exact T1|]. split; [exact T2|]. split; [exact T3|].
  split; [exact T4|]. split; [exact T5|]. exact T7.
Qed.

Lemma enqueue_on_block (fuel : nat) (hdl : Z) data1 n1 data2 n2 sysnow
    (s : flash_state D) :
  block (write_addr (flash_stores s hdl)) <> BP_FLASH_INVALID_INDEX ->
  block (read_addr (flash_stores s hdl)) <> BP_FLASH_INVALID_INDEX ->
  bplib_store_flash_enqueue drv fuel hdl data1 n1 data2 n2 sysnow s
  = match flash_object_write drv fuel (flash_stores s hdl) hdl data1 n1 data2 n2
                             sysnow (glob s) with
    | Some (st, fs3, g2) =>
        Some (st, put_store s g2 hdl
                    (if is_success st
                     then set_object_count fs3 (object_count fs3 + 1) else fs3))
    | None => None
    end.
Proof.
  intros Hw Hr. unfold bplib_store_flash_enqueue.
  apply Z.eqb_neq in Hw. apply Z.eqb_neq in Hr. rewrite Hw.
  cbn [is_success bp_status_eqb negb]. rewrite Hr. reflexivity.
Qed.

(** X19. The queue is first in, first out.  On a store with an empty queue
    and a write block, two objects are enqueued; the dequeue that follows
    hands back the first, and after the release of its SID the next dequeue
    hands back the second, each with its bytes, its length, the handle and
    the SID of its address. *)
Theorem queue_is_fifo (fuel1 fuel2 fa fb : nat) (hdl : Z) (d1 d2 e1 e2 : list Z)
    (t1 t2 : Z) (s s1 s2 s3 s4 : flash_state D) (F : list Z)
    (o1 o2 : option (bp_object_t * list Z)) :
  read_law drv content -> write_law drv content -> erase_law drv content ->
  (forall a bytes d, fst (write drv a bytes d) = BP_SUCCESS) ->
  hdr_size <= page_size drv < 2 ^ 31 ->
  num_blocks drv < index_modulus ->
  0 <= hdl < 2 ^ 31 ->
  hdr_size + Z.of_nat (length d1) + Z.of_nat (length d2) < 2 ^ 31 ->
  hdr_size + Z.of_nat (length e1) + Z.of_nat (length e2) < 2 ^ 31 ->
  let w := write_addr (flash_stores s hdl) in
  read_addr (flash_stores s hdl) = w ->
  block w <> BP_FLASH_INVALID_INDEX ->
  0 <= page w ->
  (forall b, b = block w \/ In b F ->
             max_pages (flash_blocks (glob s) b) < index_modulus) ->
  registry_ok drv (glob s) (block w) F ->
  bplib_store_flash_enqueue drv fuel1 hdl (Some d1) (Z.of_nat (length d1))
                            (Some d2) (Z.of_nat (length d2)) t1 s
  = Some (BP_SUCCESS, s1) ->
  bplib_store_flash_enqueue drv fuel2 hdl (Some e1) (Z.of_nat (length e1))
                            (Some e2) (Z.of_nat (length e2)) t2 s1
  = Some (BP_SUCCESS, s2) ->
  bplib_store_flash_dequeue drv fa hdl s2 = Some (BP_SUCCESS, o1, s3) ->
  bplib_store_flash_dequeue drv fb hdl
    (snd (bplib_store_flash_release hdl (to_ulong (FLASH_GET_SID drv w)) s3))
  = Some (BP_SUCCESS, o2, s4) ->
  o1 = Some (mk_object hdl (Z.of_nat (length d1) + Z.of_nat (length d2))
                       (to_ulong (FLASH_GET_SID drv w)),
             d1 ++ d2)
  /\ o2 = Some (mk_object hdl (Z.of_nat (length e1) + Z.of_nat (length e2))
                          (to_ulong (FLASH_GET_SID drv
                                       (write_addr (flash_stores s1 hdl)))),
                e1 ++ e2).
Proof.
  intros Hread Hwrite Herase Hwok Hps Hnb Hhdl Hsd Hse w Hempty Hblk Hpg0 Hmaxok Hok
         Henq1 Henq2 Hdeq1 Hdeq2.
  assert (Hum : ulong_modulus = 2 ^ 64) by reflexivity.
  assert (Hrange : forall v, 0 <= to_ulong v < ulong_modulus)
    by (intros v; apply Z.mod_pos_bound; rewrite Hum; lia).
  (* the first enqueue *)
  rewrite enqueue_on_block in Henq1 by (rewrite ?Hempty; exact Hblk).
  destruct (flash_object_write drv fuel1 (flash_stores s hdl) hdl (Some d1) _ (Some d2)
                               _ t1 (glob s)) as [[[st fs3] g1]|] eqn:Hw1;
    [|discriminate].
  injection Henq1 as -> <-. cbn [is_success bp_status_eqb] in *.
  destruct (@object_write_laid fuel1 (flash_stores s hdl) fs3 hdl d1 d2 t1 (glob s) g1 F
              Hwrite Herase Hwok Hps Hnb Hsd Hpg0 Hmaxok Hok Hw1)
    as (tail1 & F1 & L1 & W1 & (Sr1 & Sa1 & Sl1 & Sc1 & Sg1) & C1 & M1 & N1 & R1 & S1
        & Wh1 & P1 & B1 & A1).
  fold w in L1, W1, C1, N1, Wh1, A1.
  set (w1 := write_addr fs3) in *.
  assert (Hblk1 : block w1 <> BP_FLASH_INVALID_INDEX)
    by (unfold BP_FLASH_INVALID_INDEX, index_modulus in *; lia).
  (* the second enqueue *)
  unfold put_store in Henq2.
  rewrite enqueue_on_block in Henq2
    by (cbn [flash_stores]; rewrite upd_same; cbn [write_addr read_addr set_object_count];
        rewrite ?Sr1, ?Hempty; assumption).
  cbn [flash_stores glob] in Henq2. rewrite upd_same in Henq2.
  set (fs4 := set_object_count fs3 (object_count fs3 + 1)) in *.
  destruct (flash_object_write drv fuel2 fs4 hdl (Some e1) _ (Some e2) _ t2 g1)
    as [[[st fs5] g2]|] eqn:Hw2; [|discriminate].
  injection Henq2 as -> <-. cbn [is_success bp_status_eqb] in *.
  assert (Hmax1 : forall b, b = block (write_addr fs4) \/ In b F1 ->
                            max_pages (flash_blocks g1 b) < index_modulus).
  { intros b Hb. rewrite M1. apply Hmaxok.
    destruct Hb as [->|Hb]; [|right; apply S1; exact Hb].
    change (write_addr fs4) with w1.
    destruct Wh1 as [[E _]|H]; [left; exact E|right; exact H]. }
  destruct (@object_write_laid fuel2 fs4 fs5 hdl e1 e2 t2 g1 g2 F1
              Hwrite Herase Hwok Hps Hnb Hse (proj1 P1) Hmax1 R1 Hw2)
    as (tail2 & F2 & L2 & W2 & (Sr2 & Sa2 & Sl2 & Sc2 & Sg2) & C2 & M2 & N2 & _).
  change (write_addr fs4) with w1 in L2, W2, C2, N2.
  (* the first object is still laid *)
  destruct (@laid_preserved _ (content (dev g1)) (content (dev g2))
              (flash_blocks g1) (flash_blocks g2) M2 _ _ _ _ L1) as [L1' E1].
  { eapply Forall_impl; [|exact A1].
    intros p (_ & Hp2 & Hp3 & Hp4). split.
    - apply C2; assumption.
    - intros Hend. apply N2; try assumption.
      destruct Hp3 as [H|H]; [exact H|]. intros E. rewrite E in Hend. lia. }
  rewrite <- W1 in E1.
  (* the first dequeue *)
  unfold bplib_store_flash_dequeue, put_store in Hdeq1.
  cbn [flash_stores glob] in Hdeq1. rewrite upd_same in Hdeq1.
  set (fs6 := set_object_count fs5 (object_count fs5 + 1)) in *.
  assert (Hr6 : read_addr fs6 = w)
    by (cbn [read_addr fs6 set_object_count]; rewrite Sr2; cbn [read_addr fs4 set_object_count];
        rewrite Sr1; exact Hempty).
  rewrite Hr6 in Hdeq1.
  destruct (_ || _) in Hdeq1; [|discriminate].
  destruct (flash_object_read drv fa fs6 hdl w g2)
    as [[[[[st addr1] obj1] fsr1] g3]|] eqn:Hrd1; [|discriminate].
  destruct (is_success st) eqn:Est; cbn [negb] in Hdeq1.
  2:{ destruct (flash_object_scan drv fa _ g3) as [[[st3 addr3] g4]|]; [|discriminate].
      injection Hdeq1 as -> _ _. discriminate Est. }
  apply is_success_true in Est. subst st. injection Hdeq1 as <- <-.
  destruct (@object_read_laid fa fs6 fsr1 hdl d1 d2 tail1 (to_ulong t1)
              (to_ulong (FLASH_GET_SID drv w)) w addr1 g2 g3 obj1
              Hread Hps Hhdl Hsd (Hrange _) (Hrange _) L1' Hrd1)
    as (Ho1 & Haddr1 & Hc3 & Hb3).
  rewrite E1 in Haddr1.
  split; [exact Ho1|].
  (* the release and the second dequeue *)
  pose proof Hrd1 as Hst1. apply object_read_store in Hst1.
  destruct Hst1 as (_ & _ & Hw6 & _ & _ & _ & Hs6 & _).
  destruct (Hs6 eq_refl) as (_ & Hl6 & Hobj6).
  assert (Hsid6 : sid (object (decode_hdr (read_stage fsr1)))
                  = to_ulong (FLASH_GET_SID drv w)).
  { rewrite Ho1 in Hobj6.
    assert (H : forall x y : bp_object_t * list Z,
               Some x = Some y -> sid (fst y) = sid (fst x))
      by (intros x y E; injection E as ->; reflexivity).
    apply H in Hobj6. exact Hobj6. }
  unfold bplib_store_flash_release, put_store in Hdeq2.
  cbn [flash_stores glob] in Hdeq2. rewrite upd_same in Hdeq2.
  cbn [read_stage set_read_addr] in Hdeq2. rewrite Hsid6 in Hdeq2.
  rewrite Z.eqb_refl in Hdeq2. cbn [negb snd] in Hdeq2.
  unfold bplib_store_flash_dequeue, put_store in Hdeq2.
  cbn [flash_stores glob] in Hdeq2. rewrite upd_same in Hdeq2.
  cbn [read_addr write_addr set_read_addr set_stage_locked] in Hdeq2.
  destruct (_ || _) in Hdeq2; [|discriminate].
  match type of Hdeq2 with
  | context [flash_object_read drv fb ?fsr hdl addr1 g3] =>
      destruct (flash_object_read drv fb fsr hdl addr1 g3)
        as [[[[[st addr2] obj2] fsr2] g5]|] eqn:Hrd2; [|discriminate]
  end.
  destruct (is_success st) eqn:Est; cbn [negb] in Hdeq2.
  2:{ destruct (flash_object_scan drv fb _ g5) as [[[st3 addr3] g6]|]; [|discriminate].
      injection Hdeq2 as -> _ _. discriminate Est. }
  apply is_success_true in Est. subst st. injection Hdeq2 as <- _.
  rewrite Haddr1 in Hrd2.
  destruct (@laid_preserved _ (content (dev g2)) (content (dev g3))
              (flash_blocks g2) (flash_blocks g3)
              (fun b => f_equal (fun bs => max_pages (bs b)) Hb3) _ _ _ _ L2)
    as [L2' _].
  { apply Forall_forall. intros p _. split; [apply Hc3|].
    intros _. rewrite Hb3. reflexivity. }
  unfold put_store. cbn [flash_stores]. rewrite upd_same.
  change (write_addr (set_object_count fs3 (object_count fs3 + 1))) with w1.
  destruct (@object_read_laid fb _ fsr2 hdl e1 e2 tail2 (to_ulong t2)
              (to_ulong (FLASH_GET_SID drv w1)) w1 addr2 g3 g5 obj2
              Hread Hps Hhdl Hse (Hrange _) (Hrange _) L2' Hrd2)
    as (Ho2 & _).
  exact Ho2.
Qed.

End Queue.

(** * The write cursor *)

Section Cursor.
Variable D : Type.
Variable drv : bp_flash_driver_t D.
Variable content : D -> Z -> Z -> list Z.


End Cursor.

(** * The device lock around an enqueue *)

Section Locks.
Variable D : Type.
Variable drv : bp_flash_driver_t D.

Lemma enqueue_traced_agrees fuel hdl data1 n1 data2 n2 sysnow (s : flash_state D) :
  option_map fst
    (bplib_store_flash_enqueue_traced drv fuel hdl data1 n1 data2 n2 sysnow s)
  = bplib_store_flash_enqueue drv fuel hdl data1 n1 data2 n2 sysnow s.
Proof.
  unfold bplib_store_flash_enqueue_traced, bplib_store_flash_enqueue.
  destruct (block (write_addr (flash_stores s hdl)) =? BP_FLASH_INVALID_INDEX).
  - destruct (flash_free_allocate drv fuel _ (glob s)) as [[[st blk] g1]|];
      [|reflexivity].
    destruct (negb (is_success st)); [reflexivity|].
    destruct (flash_object_write drv fuel _ hdl data1 n1 data2 n2 sysnow g1)
      as [[[st2 fs3] g2]|]; reflexivity.
  - cbn [is_success bp_status_eqb negb].
    destruct (flash_object_write drv fuel _ hdl data1 n1 data2 n2 sysnow (glob s))
      as [[[st2 fs3] g2]|]; reflexivity.
Qed.

(** A failed allocation leaves the caller's block variable alone. *)
Lemma allocate_loop_failed_blk (fuel : nat) :
  forall status blk (g : flash_globals D) st blk' g',
    flash_free_allocate_loop drv fuel status blk g = Some (st, blk', g') ->
    is_success st = false ->
    blk' = blk.
Proof.
  induction fuel as [|fuel IH]; intros status blk g st blk' g' Hrun Hst;
    cbn [flash_free_allocate_loop] in Hrun;
    destruct (negb (is_success status) && _) eqn:Ec;
    try discriminate; try (injection Hrun as _ <- _; reflexivity).
  destruct (flash_free_allocate_body drv blk g) as [[st1 blk1] g1] eqn:Hbody.
  destruct (is_success st1) eqn:Es1.
  - assert (Hdone : flash_free_allocate_loop drv fuel st1 blk1 g1
                    = Some (st1, blk1, g1))
      by (destruct fuel; cbn [flash_free_allocate_loop]; rewrite Es1; reflexivity).
    rewrite Hdone in Hrun. injection Hrun as <- _ _. congruence.
  - apply IH in Hrun; [|exact Hst]. subst blk'.
    unfold flash_free_allocate_body in Hbody.
    destruct (erase drv _ (dev g)) as [status1 dev1].
    destruct (is_success status1) eqn:Es.
    + injection Hbody as <- _ _. congruence.
    + destruct (flash_block_list_add _ _ _) as [l bs1].
      injection Hbody as _ <- _. reflexivity.
Qed.

(** X21. An enqueue leaves the device lock held when the store has no write
    block and none can be allocated: it then returns [BP_FAILEDSTORE] from
    inside the locked region, with no object counted.  In every other case
    in which it returns, the lock is released. *)
Theorem enqueue_lock_balance (fuel : nat) (hdl : Z) (data1 data2 : option (list Z))
    (n1 n2 sysnow : Z) (s s' : flash_state D) (st : bp_status)
    (ev : list lock_event) :
  bplib_store_flash_enqueue_traced drv fuel hdl data1 n1 data2 n2 sysnow s
  = Some (st, s', ev) ->
  bplib_store_flash_enqueue drv fuel hdl data1 n1 data2 n2 sysnow s = Some (st, s')
  /\ (ev = [Lock; Unlock]
      \/ (ev = [Lock] /\ st = BP_FAILEDSTORE
          /\ block (write_addr (flash_stores s hdl)) = BP_FLASH_INVALID_INDEX
          /\ block (write_addr (flash_stores s' hdl)) = BP_FLASH_INVALID_INDEX
          /\ object_count (flash_stores s' hdl) = object_count (flash_stores s hdl)))
  /\ (block (write_addr (flash_stores s hdl)) = BP_FLASH_INVALID_INDEX ->
      out (flash_free_blocks (glob s)) = BP_FLASH_INVALID_INDEX ->
      ev = [Lock]).
Proof.
  intros H. split.
  { rewrite <- enqueue_traced_agrees, H. reflexivity. }
  unfold bplib_store_flash_enqueue_traced in H.
  destruct (block (write_addr (flash_stores s hdl)) =? BP_FLASH_INVALID_INDEX) eqn:Einv.
  - apply Z.eqb_eq in Einv.
    destruct (flash_free_allocate drv fuel _ (glob s)) as [[[st1 blk] g1]|] eqn:Ha;
      [|discriminate].
    destruct (is_success st1) eqn:Es; cbn [negb] in H.
    + destruct (flash_object_write drv fuel _ hdl data1 n1 data2 n2 sysnow g1)
        as [[[st2 fs3] g2]|]; [|discriminate].
      injection H as <- <- <-. split; [left; reflexivity|].
      intros _ Hout. exfalso.
      unfold flash_free_allocate in Ha.
      destruct fuel; cbn [flash_free_allocate_loop is_success bp_status_eqb negb andb]
        in Ha; rewrite Hout, Z.eqb_refl in Ha; cbn [negb] in Ha;
        injection Ha as <- _ _; discriminate Es.
    + injection H as <- <- <-. split; [|reflexivity].
      right. split; [reflexivity|]. split; [reflexivity|]. split; [exact Einv|].
      unfold put_store. cbn [flash_stores]. rewrite upd_same.
      cbn [write_addr set_write_addr block object_count].
      assert (Hblk : blk = block (write_addr (flash_stores s hdl))).
      { unfold flash_free_allocate in Ha.
        apply (allocate_loop_failed_blk _ _ _ _ Ha Es). }
      rewrite Hblk. split; [exact Einv|reflexivity].
  - cbn [is_success bp_status_eqb negb] in H.
    destruct (flash_object_write drv fuel _ hdl data1 n1 data2 n2 sysnow (glob s))
      as [[[st2 fs3] g2]|]; [|discriminate].
    injection H as <- <- <-. split; [left; reflexivity|].
    intros E. apply Z.eqb_neq in Einv. contradiction.
Qed.

End Locks.

Section FreshDevice.
Variable D : Type.
Variable drv : bp_flash_driver_t D.
Variable content : D -> Z -> Z -> list Z.

(** The size of the blocks and the tail of the bad list over a reclaim. *)
Lemma reclaim_geometry (b : Z) (g : flash_globals D) :
  (forall y, max_pages (flash_blocks (snd (flash_free_reclaim drv b g)) y)
             = if y =? b then pages_per_block drv else max_pages (flash_blocks g y))
  /\ (forall t, bad_tail (snd (flash_free_reclaim drv b g)) = Some t ->
                bad_tail g = Some t \/ t = b).
Proof.
  unfold flash_free_reclaim.
  set (bs1 := upd (flash_blocks g) b _).
  assert (Hbs1 : forall y, max_pages (bs1 y)
                           = if y =? b then pages_per_block drv
                             else max_pages (flash_blocks g y)).
  { intros y. unfold bs1, upd. destruct (y =? b); reflexivity. }
  destruct (negb (isbad drv b (dev g))).
  - pose proof (list_add_facts (flash_free_blocks g) bs1 b) as (_ & _ & Hm & _).
    destruct (flash_block_list_add (flash_free_blocks g) bs1 b) as [l bs2].
    cbn [fst snd flash_blocks] in *. split.
    + intros y. rewrite Hm. apply Hbs1.
    + unfold bad_tail. cbn [flash_bad_blocks]. auto.
  - pose proof (list_add_facts (flash_bad_blocks g) bs1 b) as (Hi & _ & Hm & _).
    destruct (flash_block_list_add (flash_bad_blocks g) bs1 b) as [l bs2].
    cbn [fst snd flash_blocks] in *. split.
    + intros y. rewrite Hm. apply Hbs1.
    + unfold bad_tail at 1. cbn [flash_bad_blocks]. rewrite Hi.
      intros t Ht. destruct (out l =? BP_FLASH_INVALID_INDEX); [discriminate|].
      injection Ht as <-. right. reflexivity.
Qed.

Lemma format_blocks_geometry (n : nat) :
  forall b r (g : flash_globals D),
    0 <= b -> b + Z.of_nat n < index_modulus ->
    (forall y, b <= y < b + Z.of_nat n ->
               max_pages (flash_blocks (snd (format_blocks drv n b r g)) y)
               = pages_per_block drv)
    /\ (forall t, bad_tail (snd (format_blocks drv n b r g)) = Some t ->
                  bad_tail g = Some t \/ b <= t < b + Z.of_nat n)
    /\ (forall y, y < b ->
                  max_pages (flash_blocks (snd (format_blocks drv n b r g)) y)
                  = max_pages (flash_blocks g y)).
Proof.
  induction n as [|n IH]; intros b r g Hb0 Hbn.
  - cbn [format_blocks snd]. split; [intros y Hy; lia|]. split; [auto|reflexivity].
  - cbn [format_blocks].
    pose proof (reclaim_geometry b g) as [Hm Ht].
    destruct (flash_free_reclaim drv b g) as [st g1]. cbn [snd] in Hm, Ht.
    rewrite (@to_index_small (b + 1)) by (unfold index_modulus in *; lia).
    match goal with
    | |- context [format_blocks drv n (b + 1) ?r1 g1] =>
        destruct (IH (b + 1) r1 g1 ltac:(lia) ltac:(lia)) as (I1 & I2 & I3)
    end.
    split; [|split].
    + intros y Hy. destruct (Z.eq_dec y b) as [->|Hne].
      * rewrite I3 by lia. rewrite Hm, Z.eqb_refl. reflexivity.
      * apply I1. lia.
    + intros t H. destruct (I2 t H) as [H'|H']; [|right; lia].
      destruct (Ht t H') as [H''| ->]; [left; exact H''|right; lia].
    + intros y Hy. rewrite I3 by lia. rewrite Hm.
      replace (y =? b) with false by (symmetry; apply Z.eqb_neq; lia). reflexivity.
Qed.

Lemma good_blocks_range (n : nat) (d : D) (b : Z) :
  In b (good_blocks drv n d) -> 0 <= b < Z.of_nat n.
Proof.
  unfold good_blocks. intros H. apply filter_In in H. destruct H as [H _].
  apply in_map_iff in H. destruct H as (i & <- & Hi). apply in_seq in Hi. lia.
Qed.

(** After a format the free list is fit for writing. *)
Lemma format_registry_ok (lock : Z) (blocks : Z -> flash_block_control_t)
    (s : flash_state D) :
  0 <= lock ->
  0 <= num_blocks drv < index_modulus ->
  0 < pages_per_block drv ->
  registry_ok drv
    (glob (snd (bplib_store_flash_init drv BP_FLASH_INIT_FORMAT lock (Some blocks) s)))
    BP_FLASH_INVALID_INDEX
    (good_blocks drv (Z.to_nat (num_blocks drv)) (dev (glob s)))
  /\ (forall b, In b (good_blocks drv (Z.to_nat (num_blocks drv)) (dev (glob s))) ->
        max_pages
          (flash_blocks
             (glob (snd (bplib_store_flash_init drv BP_FLASH_INIT_FORMAT lock
                                                (Some blocks) s))) b)
        = pages_per_block drv)
  /\ (forall h,
        flash_stores (snd (bplib_store_flash_init drv BP_FLASH_INIT_FORMAT lock
                                                  (Some blocks) s)) h
        = zero_store).
Proof.
  intros Hlock Hnb Hppb. unfold bplib_store_flash_init.
  assert (Hl : (lock <? 0) = false) by (apply Z.ltb_ge; exact Hlock).
  rewrite Hl.
  set (g1 := mk_globals (dev (glob s)) blocks
                        (mk_list BP_FLASH_INVALID_INDEX BP_FLASH_INVALID_INDEX 0)
                        (mk_list BP_FLASH_INVALID_INDEX BP_FLASH_INVALID_INDEX 0)
                        (flash_error_count (glob s))
                        (flash_used_block_count (glob s))).
  assert (Hok : free_list_ok g1 []).
  { constructor; cbn; try reflexivity; try constructor; congruence. }
  assert (Hrange : 0 + Z.of_nat (Z.to_nat (num_blocks drv)) < index_modulus)
    by (rewrite Z2Nat.id; lia).
  destruct (@format_blocks_free_list _ drv (Z.to_nat (num_blocks drv)) 0 0 g1 [] Hok)
    as (H1 & _); [intros y []|intros t Ht; discriminate Ht|lia|exact Hrange|].
  destruct (@format_blocks_geometry (Z.to_nat (num_blocks drv)) 0 0 g1 ltac:(lia) Hrange)
    as (G1 & G2 & _).
  destruct (format_blocks drv (Z.to_nat (num_blocks drv)) 0 0 g1) as [rb g2].
  cbn [fst snd app] in H1, G1, G2 |- *.
  change (filter (fun y => negb (isbad drv y (dev g1)))
                 (map Z.of_nat (seq (Z.to_nat 0) (Z.to_nat (num_blocks drv)))))
    with (good_blocks drv (Z.to_nat (num_blocks drv)) (dev (glob s))) in H1.
  set (F := good_blocks drv (Z.to_nat (num_blocks drv)) (dev (glob s))) in *.
  cbn [glob flash_stores flash_blocks].
  assert (HmaxF : forall b, In b F -> max_pages (flash_blocks g2 b) = pages_per_block drv).
  { intros b Hb. apply good_blocks_range in Hb. apply G1. lia. }
  split; [|split; [exact HmaxF|reflexivity]].
  destruct H1 as [A B C E G].
  constructor; cbn [flash_blocks flash_free_blocks flash_bad_blocks]; try assumption.
  - apply (free_chain_not_invalid _ _ _ A).
  - intros t Ht. split.
    + apply G. exact Ht.
    + destruct (G2 t Ht) as [H|H]; [discriminate H|].
      unfold BP_FLASH_INVALID_INDEX, index_modulus in *. lia.
  - intros b Hb. pose proof (good_blocks_range _ _ _ Hb) as Hr.
    rewrite (HmaxF b Hb). lia.
Qed.

(** X22. From a format on: on a device whose driver reads back what it
    wrote and whose page writes succeed, after [bplib_store_flash_init] in
    format mode the first store created has handle 0, and a successful
    enqueue of [d1 ++ d2] on it followed by a successful dequeue hands back
    exactly these bytes, with their length and the handle in the header. *)
Theorem fresh_device_round_trip (lock : Z) (blocks : Z -> flash_block_control_t)
    (parm : option bp_flash_attr_t) (s0 s3 s4 : flash_state D) (fuel fuel' : nat)
    (d1 d2 : list Z) (sysnow : Z) (obj : option (bp_object_t * list Z)) :
  read_law drv content -> write_law drv content -> erase_law drv content ->
  (forall a bytes d, fst (write drv a bytes d) = BP_SUCCESS) ->
  hdr_size <= page_size drv < 2 ^ 31 ->
  0 <= num_blocks drv < index_modulus ->
  0 < pages_per_block drv < index_modulus ->
  0 <= lock ->
  attr_ok drv parm ->
  hdr_size + Z.of_nat (length d1) + Z.of_nat (length d2) < 2 ^ 31 ->
  let s1 := snd (bplib_store_flash_init drv BP_FLASH_INIT_FORMAT lock
                                        (Some blocks) s0) in
  let r := bplib_store_flash_create drv parm true s1 in
  bplib_store_flash_enqueue drv fuel 0 (Some d1) (Z.of_nat (length d1))
                            (Some d2) (Z.of_nat (length d2)) sysnow (snd r)
  = Some (BP_SUCCESS, s3) ->
  bplib_store_flash_dequeue drv fuel' 0 s3 = Some (BP_SUCCESS, obj, s4) ->
  fst r = inr 0
  /\ obj = Some (mk_object 0 (Z.of_nat (length d1) + Z.of_nat (length d2))
                           (to_ulong (FLASH_GET_SID drv
                                        (read_addr (flash_stores s3 0)))),
                 d1 ++ d2).
Proof.
  intros Hread Hwrite Herase Hwok Hps Hnb Hppb Hlock Hattr Hsize s1 r Henq Hdeq.
  destruct (@format_registry_ok lock blocks s0 Hlock Hnb (proj1 Hppb))
    as (Hok & HmaxF & Hstores).
  fold s1 in Hok, HmaxF, Hstores.
  set (F := good_blocks drv (Z.to_nat (num_blocks drv)) (dev (glob s0))) in *.
  assert (Hfirst : first_unused (flash_stores s1) (Z.to_nat FLASH_MAX_STORES) 0 = Some 0).
  { apply first_unused_least.
    - unfold FLASH_MAX_STORES. lia.
    - rewrite Hstores. reflexivity.
    - intros j Hj. lia. }
  subst r. rewrite (@create_at _ drv parm s1 0 Hattr Hfirst) in Henq |- *.
  cbn [fst snd] in Henq |- *. split; [reflexivity|].
  unfold bplib_store_flash_enqueue in Henq.
  cbn [flash_stores glob] in Henq. rewrite upd_same in Henq.
  cbn [write_addr read_addr block page] in Henq. rewrite Z.eqb_refl in Henq.
  destruct (flash_free_allocate drv fuel BP_FLASH_INVALID_INDEX (glob s1))
    as [[[st blk] g1]|] eqn:Ha; [|discriminate].
  destruct (is_success st) eqn:Est; cbn [negb] in Henq; [|discriminate].
  unfold flash_free_allocate in Ha.
  assert (Hfs : is_success BP_FAILEDSTORE = false) by reflexivity.
  destruct (allocate_loop_chain Herase _ _ _ Hok Hfs Ha Est)
    as (F1 & F2 & HF & Hok2 & _ & Hm2 & _ & Ht2).
  pose proof Hok as [_ HndF _ HbadF _].
  cbn [read_addr set_write_addr write_addr block] in Henq.
  rewrite Z.eqb_refl in Henq.
  match type of Henq with
  | context [flash_object_write drv fuel ?fs 0 _ _ _ _ sysnow g1] => set (fs2 := fs) in *
  end.
  assert (Hw2 : write_addr fs2 = mk_addr blk 0) by reflexivity.
  assert (Hr2 : read_addr fs2 = mk_addr blk 0) by reflexivity.
  assert (HblkF : In blk F) by (rewrite HF; apply in_or_app; right; left; reflexivity).
  assert (Hok1 : registry_ok drv g1 (block (write_addr fs2)) F2).
  { rewrite Hw2. cbn [block].
    rewrite HF in HndF. apply NoDup_remove_2 in HndF.
    apply registry_ok_switch with (cur := BP_FLASH_INVALID_INDEX); [exact Hok2| |].
    - intros Hin. apply HndF. apply in_or_app. right. exact Hin.
    - intros t Ht. destruct (Ht2 t Ht) as [H|H].
      + destruct (HbadF t H) as [Hnin _]. intros ->. apply Hnin. exact HblkF.
      + intros ->. apply HndF. apply in_or_app. left. exact H. }
  assert (Hmax1 : forall b, b = block (write_addr fs2) \/ In b F2 ->
                            max_pages (flash_blocks g1 b) < index_modulus).
  { intros b Hb. rewrite Hm2, HmaxF; [lia|].
    rewrite Hw2 in Hb. cbn [block] in Hb.
    destruct Hb as [->|Hb]; [exact HblkF|].
    rewrite HF. apply in_or_app. right. right. exact Hb. }
  destruct (flash_object_write drv fuel fs2 0 (Some d1) _ (Some d2) _ sysnow g1)
    as [[[st2 fs3] g2]|] eqn:Hw; [|discriminate].
  injection Henq as -> <-.
  pose proof Hw as Hra. apply object_write_read_addr in Hra.
  cbn [is_success bp_status_eqb] in Hdeq |- *.
  unfold bplib_store_flash_dequeue in Hdeq.
  unfold put_store in Hdeq |- *. cbn [flash_stores glob] in Hdeq |- *.
  rewrite upd_same in Hdeq |- *.
  cbn [read_addr write_addr set_object_count] in Hdeq |- *.
  rewrite Hra, Hr2 in Hdeq |- *. rewrite <- Hw2 in Hdeq |- *.
  destruct (_ || _) in Hdeq; [|discriminate].
  match type of Hdeq with
  | context [flash_object_read drv fuel' ?fsr 0 (write_addr fs2) g2] =>
      destruct (flash_object_read drv fuel' fsr 0 (write_addr fs2) g2)
        as [[[[[st' addr1] obj'] fsr1] g3]|] eqn:Hr; [|discriminate]
  end.
  destruct (is_success st') eqn:Est'; cbn [negb] in Hdeq.
  - apply is_success_true in Est'. subst st'. injection Hdeq as <- _.
    eapply (@object_round_trip _ drv content fuel fuel' fs2); eauto.
    + lia.
    + lia.
    + rewrite Hw2. cbn [page]. lia.
  - destruct (flash_object_scan drv fuel' _ g3) as [[[st3 addr3] g4]|]; [|discriminate].
    injection Hdeq as -> _ _. discriminate Est'.
Qed.

End FreshDevice.

(** * The properties on the simulated device *)

Ltac crunch :=
  vm_compute; repeat split; try reflexivity; try discriminate; try congruence.

Lemma sid_round_trip_witness :
  FLASH_GET_BLOCK Sim.sim_driver (FLASH_GET_SID Sim.sim_driver (mk_addr 2 5)) = 2
  /\ FLASH_GET_PAGE Sim.sim_driver (FLASH_GET_SID Sim.sim_driver (mk_addr 2 5)) = 5
  /\ 1 <= FLASH_GET_SID Sim.sim_driver (mk_addr 2 5)
  /\ sid_addr Sim.sim_driver (FLASH_GET_SID Sim.sim_driver (mk_addr 2 5))
     = mk_addr 2 5.
Proof. apply (@sid_round_trip _ Sim.sim_driver 2 5); crunch. Defined.

Lemma dequeue_empty_timeout_witness :
  bplib_store_flash_dequeue Sim.sim_driver 0 0 (Sim.ready Sim.no_faults)
  = Some (BP_TIMEOUT, None, Sim.ready Sim.no_faults).
Proof. apply dequeue_empty_timeout. reflexivity. Defined.

Lemma release_checks_sid_witness :
  (bplib_store_flash_release 0 2 Sim.one_dequeued = (BP_FAILEDSTORE, Sim.one_dequeued)
   /\ stage_locked
        (flash_stores (snd (bplib_store_flash_release 0 2 Sim.one_dequeued)) 0) = true)
  /\ (fst (bplib_store_flash_release 0 1 Sim.one_dequeued) = BP_SUCCESS
      /\ stage_locked
           (flash_stores (snd (bplib_store_flash_release 0 1 Sim.one_dequeued)) 0)
         = false).
Proof.
  split.
  - apply (release_checks_sid 0 2 Sim.one_dequeued); crunch.
  - apply (release_checks_sid 0 1 Sim.one_dequeued); crunch.
Defined.

Lemma enqueue_store_full_witness :
  exists s',
    bplib_store_flash_enqueue Sim.sim_driver 64 0 (Some (Sim.payload 100)) 100
                              None 0 7 Sim.one_enqueued = Some (BP_STOREFULL, s')
    /\ flash_stores s' 0 = flash_stores Sim.one_enqueued 0
    /\ glob s' = glob Sim.one_enqueued.
Proof.
  apply enqueue_store_full; try (right; vm_compute; reflexivity); crunch.
Defined.

Lemma block_count_conservation_witness :
  match run (Sim.sim_driver_of Sim.faulty) 64 Sim.sample_ops
            (Sim.formatted Sim.faulty) with
  | Some (_, s') =>
      count (flash_free_blocks (glob s')) + count (flash_bad_blocks (glob s'))
      + flash_used_block_count (glob s') = 4
  | None => False
  end.
Proof.
  destruct (run (Sim.sim_driver_of Sim.faulty) 64 Sim.sample_ops
                (Sim.formatted Sim.faulty))
    as [[log s']|] eqn:E.
  - apply (@block_count_conservation _ (Sim.sim_driver_of Sim.faulty) 0
             (fun _ => Sim.raw_block) Sim.boot 64 Sim.sample_ops log s');
      [lia | crunch | exact E].
  - vm_compute in E. discriminate E.
Defined.

(** C5 (as claimed) fails after an init in recover mode.  That init completes
    and answers 0 reclaimed blocks: it builds neither list, so the free
    count, the bad count and the used count add up to 0 on a device of four
    blocks, and they still do after the calls that follow, here the creation
    of a store, an allocation and an enqueue that find no free block, and a
    dequeue. *)
Lemma recover_init_counts_no_block :
  fst (bplib_store_flash_init Sim.sim_driver BP_FLASH_INIT_RECOVER 0
                              (Some (fun _ => Sim.raw_block)) Sim.boot) = inr 0
  /\ num_blocks Sim.sim_driver = 4
  /\ count (flash_free_blocks (glob Sim.recover_init))
     + count (flash_bad_blocks (glob Sim.recover_init))
     + flash_used_block_count (glob Sim.recover_init) = 0
  /\ match run Sim.sim_driver 64
              [OpAllocate; OpEnqueue 0 (Some (Sim.payload 50)) 50 None 0 7;
               OpDequeue 0]
              Sim.recovered with
     | Some (log, s') =>
         map snd log = [BP_FAILEDSTORE; BP_FAILEDSTORE; BP_TIMEOUT]
         /\ count (flash_free_blocks (glob s')) + count (flash_bad_blocks (glob s'))
            + flash_used_block_count (glob s') <> num_blocks Sim.sim_driver
     | None => False
     end.
Proof. vm_compute. repeat split; discriminate. Qed.

Lemma count_law_witness :
  match run Sim.sim_driver 64 Sim.queue_ops (Sim.ready Sim.no_faults) with
  | Some (log, s') =>
      bplib_store_flash_getcount 0 s' = 1
      /\ count_log (enqueued 0) log = 2 /\ count_log (relinquished 0) log = 1
  | None => False
  end.
Proof.
  destruct (run Sim.sim_driver 64 Sim.queue_ops (Sim.ready Sim.no_faults))
    as [[log s']|] eqn:E.
  - assert (Hc : bplib_store_flash_create Sim.sim_driver None true
                   (Sim.formatted Sim.no_faults) = (inr 0, Sim.ready Sim.no_faults))
      by (vm_compute; reflexivity).
    pose proof (@count_law _ Sim.sim_driver _ _ _ _ _ _ _ _ _ Hc E) as H.
    assert (Hn : count_log (enqueued 0) log = 2 /\ count_log (relinquished 0) log = 1).
    { vm_compute in E. injection E as <- _. vm_compute. split; reflexivity. }
    destruct Hn as [Hn Hk]. rewrite Hn, Hk in H. repeat split; assumption.
  - vm_compute in E. discriminate E.
Defined.

Lemma data_read_block_end_needs_successor_witness :
  exists g',
    flash_data_read Sim.sim_driver 16 (mk_addr 2 6) (repeat 0 600%nat) 0 600
                    (glob (Sim.formatted Sim.no_faults))
    = Some (BP_FAILEDSTORE, mk_addr 3 8, repeat 255 600%nat, g')
    /\ mk_addr 0 0 = mk_addr 0 0
    /\ with_next (set_dev (glob (Sim.formatted Sim.no_faults))
                          (Sim.mk_sim (Sim.sim_mem Sim.sim_blank) 10)) 3 0
       = with_next g' 3 0
    /\ flash_error_count g' = flash_error_count (glob (Sim.formatted Sim.no_faults)).
Proof.
  apply (@data_read_block_end_needs_successor _ Sim.sim_driver 16 (mk_addr 2 6)
           (mk_addr 0 0) (repeat 0 600%nat) (repeat 255 600%nat) 0 600 0
           (glob (Sim.formatted Sim.no_faults))
           (with_next (set_dev (glob (Sim.formatted Sim.no_faults))
                               (Sim.mk_sim (Sim.sim_mem Sim.sim_blank) 10)) 3 0)).
  - reflexivity.
  - reflexivity.
  - vm_compute. repeat constructor; try discriminate; try congruence.
  - vm_compute. discriminate.
  - vm_compute. reflexivity.
  - vm_compute. reflexivity.
  - vm_compute. reflexivity.
  - discriminate.
  - vm_compute. reflexivity.
Defined.

Lemma object_delete_clears_pages_witness :
  exists g',
    flash_object_delete Sim.sim_driver 64 8 Sim.crossing = Some (BP_SUCCESS, g')
    /\ page_in_use (flash_blocks g' 0) 7 = false
    /\ page_in_use (flash_blocks g' 1) 0 = false
    /\ page_in_use (flash_blocks g' 1) 1 = true
    /\ page_in_use (flash_blocks g' 0) 6 = true.
Proof.
  pose proof (fun g1 a1 =>
                @object_delete_clears_pages _ Sim.sim_driver 64 8 Sim.crossing
                  g1 a1 Sim.crossing_hdr) as T.
  edestruct T
    as (g' & Hrun & _ & Hbits & _).
  - crunch.
  - crunch.
  - vm_compute. reflexivity.
  - reflexivity.
  - crunch.
  - vm_compute. lia.
  - vm_compute. repeat constructor; try discriminate; try congruence.
  - vm_compute. repeat constructor.
  - exists g'. split; [exact Hrun|].
    rewrite (Hbits 0 7), (Hbits 1 0), (Hbits 1 1), (Hbits 0 6).
    vm_compute. repeat split.
Defined.

(** C3 (code).  [flash_object_delete] stops short of the pages an object
    takes.  A 50-byte object is written as 82 bytes, header first, on two
    pages of 64 bytes, the header page and one payload page of the claim,
    [ceil (50 / 64) + 1 = 2]; the delete loop counts the 50 bytes of the
    payload alone and clears the bit of the header page only.  Four such
    objects fill block 0; after the relinquish of all four, each answering
    [BP_SUCCESS], the store counts no object, yet the second page of every
    object is still marked in use and block 0 is not reclaimed: two blocks
    stay free and two stay used. *)
Theorem object_delete_misses_last_page :
  size (object (decode_hdr (Sim.sim_mem (dev (glob Sim.one_enqueued)) 0 0))) = 50
  /\ pages_for (page_size Sim.sim_driver) (hdr_size + 50) = 2%nat
  /\ (50 + page_size Sim.sim_driver - 1) / page_size Sim.sim_driver + 1 = 2
  /\ match flash_object_delete Sim.sim_driver 64 1 (glob Sim.one_enqueued) with
     | Some (status, g') =>
         status = BP_SUCCESS
         /\ page_in_use (flash_blocks g' 0) 0 = false
         /\ page_in_use (flash_blocks g' 0) 1 = true
     | None => False
     end
  /\ write_addr (flash_stores Sim.four_spilling 0) = mk_addr 1 0
  /\ count (flash_free_blocks (glob Sim.four_spilling)) = 2
  /\ flash_used_block_count (glob Sim.four_spilling) = 2
  /\ match run Sim.sim_driver 64
              [OpRelinquish 0 1; OpRelinquish 0 3; OpRelinquish 0 5; OpRelinquish 0 7]
              Sim.four_spilling with
     | Some (log, s') =>
         map snd log = [BP_SUCCESS; BP_SUCCESS; BP_SUCCESS; BP_SUCCESS]
         /\ bplib_store_flash_getcount 0 s' = 0
         /\ map (page_in_use (flash_blocks (glob s') 0)) [0; 1; 2; 3; 4; 5; 6; 7]
            = [false; true; false; true; false; true; false; true]
         /\ count (flash_free_blocks (glob s')) = 2
         /\ flash_used_block_count (glob s') = 2
     | None => False
     end.
Proof. vm_compute. repeat split. Qed.

(** C4 (as claimed) fails: on the fresh store, whose [max_data_size] of 96
    is less than the 132 bytes of header and payload, the enqueue answers
    [BP_STOREFULL] after it has allocated the first block, so both cursors
    have moved from the invalid block to block 0. *)
Lemma enqueue_full_moves_cursors :
  max_data_size (attributes (flash_stores (Sim.ready Sim.no_faults) 0))
    < hdr_size + 100
  /\ match bplib_store_flash_enqueue Sim.sim_driver 64 0 (Some (Sim.payload 100)) 100
                                     None 0 7 (Sim.ready Sim.no_faults) with
     | Some (status, s') =>
         status = BP_STOREFULL
         /\ write_addr (flash_stores (Sim.ready Sim.no_faults) 0)
            = mk_addr BP_FLASH_INVALID_INDEX 0
         /\ write_addr (flash_stores s' 0) = mk_addr 0 0
         /\ read_addr (flash_stores (Sim.ready Sim.no_faults) 0)
            = mk_addr BP_FLASH_INVALID_INDEX 0
         /\ read_addr (flash_stores s' 0) = mk_addr 0 0
     | None => False
     end.
Proof. vm_compute. repeat split. Qed.

(** C2 (code).  On a device whose write fails on page 1 of block 1, five
    pages are written from page 6 of block 0 on.  The write succeeds and
    block 1 is truncated to one page, as claimed; but the successor of
    block 0 is now the replacement block 2, so block 1 and the page already
    written to it are no longer on the chain from block 0: reading the five
    pages back from the same address yields the fourth page of the data in
    the place of the third. *)
Theorem data_write_failure_bypasses_block :
  match flash_data_write (Sim.sim_driver_of Sim.worn) 64 (mk_addr 0 6)
                         Sim.five_pages 320 (Sim.first_allocated Sim.worn) with
  | Some (status, addr, g) =>
      status = BP_SUCCESS
      /\ max_pages (flash_blocks g 1) = 1
      /\ next_block (flash_blocks g 0) = 2
      /\ prev_block (flash_blocks g 2) = 0
      /\ slice (Sim.sim_mem (dev g) 1 0) 0 64 = slice Sim.five_pages 128 64
      /\ match flash_data_read (Sim.sim_driver_of Sim.worn) 64 (mk_addr 0 6)
                               (repeat 0 320%nat) 0 320 g with
         | Some (rstatus, _, data, _) =>
             rstatus = BP_SUCCESS
             /\ slice data 0 128 = slice Sim.five_pages 0 128
             /\ slice data 128 64 = slice Sim.five_pages 192 64
             /\ slice data 128 64 <> slice Sim.five_pages 128 64
         | None => False
         end
  | None => False
  end.
Proof. vm_compute. repeat split. discriminate. Qed.

(** The simulated device keeps the laws of a flash driver: a read returns
    the head of the page and leaves the pages alone, a write lays its bytes
    at the head of its page only, an erase touches its block only. *)
Lemma sim_read_law (f : Sim.sim_faults) :
  @read_law _ (Sim.sim_driver_of f) Sim.sim_mem.
Proof.
  intros a n d st bytes d' H. cbn [read Sim.sim_driver_of] in H.
  unfold Sim.sim_read in H.
  destruct (Nat.leb_spec (Z.to_nat n)
              (length (Sim.sim_mem d (block a) (page a)))) as [Hle|Hgt].
  - injection H as <- <- <-. split; [reflexivity|].
    intros _ _. split; [reflexivity|]. apply firstn_length_le. exact Hle.
  - injection H as <- <- <-. split; [reflexivity|]. discriminate.
Qed.

Lemma sim_write_law (f : Sim.sim_faults) :
  @write_law _ (Sim.sim_driver_of f) Sim.sim_mem.
Proof.
  intros a bytes d d' H. cbn [write Sim.sim_driver_of] in H.
  unfold Sim.sim_write in H.
  destruct (Sim.wfail f (block a) (page a)); [discriminate|].
  injection H as <-. cbn [Sim.sim_mem]. split.
  - rewrite !upd_same. apply firstn_app_exact. reflexivity.
  - intros b q Hbq. unfold upd.
    destruct (b =? block a) eqn:Eb; [|reflexivity].
    apply Z.eqb_eq in Eb. subst b.
    destruct (q =? page a) eqn:Eq; [|reflexivity].
    apply Z.eqb_eq in Eq. lia.
Qed.

Lemma sim_erase_law (f : Sim.sim_faults) :
  @erase_law _ (Sim.sim_driver_of f) Sim.sim_mem.
Proof.
  intros x d st d' H b q Hb. cbn [erase Sim.sim_driver_of] in H.
  unfold Sim.sim_erase in H.
  destruct (Sim.efail f x); injection H as <- <-; [reflexivity|].
  cbn [Sim.sim_mem]. rewrite upd_other by exact Hb. reflexivity.
Qed.

Lemma enqueue_dequeue_round_trip_witness :
  exists s1 s2 obj,
    bplib_store_flash_enqueue Sim.sim_driver 64 0
      (Some (Sim.payload 30)) (Z.of_nat (length (Sim.payload 30)))
      (Some (Sim.payload 20)) (Z.of_nat (length (Sim.payload 20))) 9 Sim.drained
    = Some (BP_SUCCESS, s1)
    /\ write_addr (flash_stores Sim.drained 0) = mk_addr 0 7
    /\ write_addr (flash_stores s1 0) = mk_addr 1 1
    /\ bplib_store_flash_dequeue Sim.sim_driver 64 0 s1 = Some (BP_SUCCESS, obj, s2)
    /\ obj = Some (mk_object 0 50 8, Sim.payload 30 ++ Sim.payload 20).
Proof.
  pose (s1 := Sim.state_after
                (bplib_store_flash_enqueue Sim.sim_driver 64 0
                   (Some (Sim.payload 30)) (Z.of_nat (length (Sim.payload 30)))
                   (Some (Sim.payload 20)) (Z.of_nat (length (Sim.payload 20)))
                   9 Sim.drained)
                Sim.drained).
  pose (r := bplib_store_flash_dequeue Sim.sim_driver 64 0 s1).
  assert (He : bplib_store_flash_enqueue Sim.sim_driver 64 0
                 (Some (Sim.payload 30)) (Z.of_nat (length (Sim.payload 30)))
                 (Some (Sim.payload 20)) (Z.of_nat (length (Sim.payload 20)))
                 9 Sim.drained
               = Some (BP_SUCCESS, s1)) by (vm_compute; reflexivity).
  assert (Hd : bplib_store_flash_dequeue Sim.sim_driver 64 0 s1
               = Some (BP_SUCCESS, Sim.dequeued r, Sim.state_after r s1))
    by (vm_compute; reflexivity).
  exists s1, (Sim.state_after r s1), (Sim.dequeued r).
  split; [exact He|]. split; [vm_compute; reflexivity|].
  split; [vm_compute; reflexivity|]. split; [exact Hd|].
  etransitivity.
  - apply (@enqueue_dequeue_round_trip _ Sim.sim_driver Sim.sim_mem 64 64 0
             (Sim.payload 30) (Sim.payload 20) 9 Sim.drained s1
             (Sim.state_after r s1) [1; 2; 3] (Sim.dequeued r)).
    + apply sim_read_law.
    + apply sim_write_law.
    + apply sim_erase_law.
    + intros a bytes d. reflexivity.
    + crunch.
    + crunch.
    + crunch.
    + crunch.
    + vm_compute. reflexivity.
    + crunch.
    + intros b [->|[<-|[<-|[<-|[]]]]]; vm_compute; reflexivity.
    + constructor.
      * crunch.
      * repeat (constructor; [cbn [In]; intuition discriminate|]). constructor.
      * vm_compute. intuition discriminate.
      * intros t Ht. vm_compute in Ht. discriminate Ht.
      * intros b [<-|[<-|[<-|[]]]]; crunch.
    + exact He.
    + exact Hd.
  - vm_compute. reflexivity.
Defined.

(** C1 (as claimed) fails: on a store that already holds the 50-byte object,
    the enqueue of the 20 bytes [Sim.payload 20] succeeds and the dequeue that
    follows succeeds, and it hands back the 50 bytes of the older object, with
    size 50 in its header. *)
Lemma dequeue_returns_oldest_object :
  match Sim.enqueue_payload (Sim.payload 20) Sim.one_enqueued with
  | Some (status, s1) =>
      status = BP_SUCCESS
      /\ bplib_store_flash_getcount 0 s1 = 2
      /\ match bplib_store_flash_dequeue Sim.sim_driver 64 0 s1 with
         | Some (status', obj, _) =>
             status' = BP_SUCCESS
             /\ obj = Some (mk_object 0 50 1, Sim.payload 50)
             /\ option_map snd obj <> Some (Sim.payload 20)
         | None => False
         end
  | None => False
  end.
Proof. vm_compute. repeat split; discriminate. Qed.

(** ** The free list on the simulated device *)

Ltac free_list_tac :=
  constructor;
  [ vm_compute; repeat split; try reflexivity; try discriminate
  | repeat (constructor; [cbn [In]; intuition discriminate|]); constructor
  | reflexivity
  | intros _; reflexivity
  | let t := fresh in let H := fresh in
    intros t H; vm_compute in H; try discriminate H;
    injection H as <-; cbn [In]; intuition discriminate ].

Lemma format_builds_free_list_witness :
  let r := bplib_store_flash_init (Sim.sim_driver_of Sim.marked) BP_FLASH_INIT_FORMAT 0
                                  (Some (fun _ => Sim.raw_block)) Sim.boot in
  fst r = inr 3
  /\ free_list_ok (glob (snd r)) [0; 1; 3]
  /\ count (flash_bad_blocks (glob (snd r))) = 1
  /\ flash_used_block_count (glob (snd r)) = 0
  /\ flash_error_count (glob (snd r)) = 0
  /\ (forall h, in_use (flash_stores (snd r) h) = false).
Proof.
  assert (H1 : 0 <= 0) by lia.
  assert (H2 : 0 <= num_blocks (Sim.sim_driver_of Sim.marked) < index_modulus)
    by (vm_compute; split; [discriminate|reflexivity]).
  exact (@format_builds_free_list _ (Sim.sim_driver_of Sim.marked) 0
           (fun _ => Sim.raw_block) Sim.boot H1 H2).
Defined.

Lemma reclaim_queues_block_witness :
  let r := flash_free_reclaim (Sim.sim_driver_of Sim.marked) 0
                              (Sim.first_allocated Sim.marked) in
  fst r = BP_SUCCESS
  /\ free_list_ok (snd r) [1; 3; 0]
  /\ count (flash_bad_blocks (snd r)) = 1 + 0
  /\ flash_used_block_count (snd r) = 1 - 1.
Proof.
  assert (H1 : free_list_ok (Sim.first_allocated Sim.marked) [1; 3]) by free_list_tac.
  assert (H2 : 0 <> BP_FLASH_INVALID_INDEX) by discriminate.
  assert (H3 : ~ In 0 [1; 3]) by (cbn [In]; intuition discriminate).
  assert (H4 : bad_tail (Sim.first_allocated Sim.marked) <> Some 0)
    by (vm_compute; discriminate).
  exact (@reclaim_queues_block _ (Sim.sim_driver_of Sim.marked)
           (Sim.first_allocated Sim.marked) [1; 3] 0 H1 H2 H3 H4).
Defined.

Lemma allocate_first_erasable_witness :
  exists st blk' g' F1 F2,
    flash_free_allocate (Sim.sim_driver_of Sim.marked) 2 BP_FLASH_INVALID_INDEX
                        (Sim.first_allocated Sim.marked)
    = Some (st, blk', g')
    /\ free_list_ok g' F2
    /\ erase_fails (Sim.sim_driver_of Sim.marked) F1
                   (dev (Sim.first_allocated Sim.marked))
    /\ count (flash_bad_blocks g') = 1 + Z.of_nat (length F1)
    /\ flash_error_count g' = 0 + Z.of_nat (length F1)
    /\ ((st = BP_SUCCESS /\ [1; 3] = F1 ++ blk' :: F2
         /\ erase (Sim.sim_driver_of Sim.marked) blk'
                  (erase_each (Sim.sim_driver_of Sim.marked) F1
                              (dev (Sim.first_allocated Sim.marked)))
            = (BP_SUCCESS, dev g')
         /\ flash_used_block_count g' = 1 + 1)
        \/ (st <> BP_SUCCESS /\ F1 = [1; 3] /\ F2 = []
            /\ blk' = BP_FLASH_INVALID_INDEX
            /\ dev g' = erase_each (Sim.sim_driver_of Sim.marked) [1; 3]
                                   (dev (Sim.first_allocated Sim.marked))
            /\ flash_used_block_count g' = 1
            /\ ([1; 3] = [] -> st = BP_FAILEDSTORE
                               /\ g' = Sim.first_allocated Sim.marked))).
Proof.
  assert (H1 : free_list_ok (Sim.first_allocated Sim.marked) [1; 3]) by free_list_tac.
  assert (H2 : (length [1; 3] <= 2)%nat) by (cbn [length]; lia).
  exact (@allocate_first_erasable _ (Sim.sim_driver_of Sim.marked) 2
           BP_FLASH_INVALID_INDEX (Sim.first_allocated Sim.marked) [1; 3] H1 H2).
Defined.

Lemma allocate_takes_head_witness :
  exists g',
    flash_free_allocate (Sim.sim_driver_of Sim.marked) 1 BP_FLASH_INVALID_INDEX
                        (glob (Sim.formatted Sim.marked))
    = Some (BP_SUCCESS, 0, g')
    /\ free_list_ok g' [1; 3]
    /\ dev g' = snd (Sim.sim_erase Sim.marked 0 Sim.sim_blank)
    /\ flash_blocks g' = flash_blocks (glob (Sim.formatted Sim.marked))
    /\ flash_bad_blocks g' = flash_bad_blocks (glob (Sim.formatted Sim.marked))
    /\ flash_error_count g' = 0
    /\ flash_used_block_count g' = 0 + 1.
Proof.
  assert (H1 : free_list_ok (glob (Sim.formatted Sim.marked)) [0; 1; 3]) by free_list_tac.
  assert (H2 : fst (erase (Sim.sim_driver_of Sim.marked) 0
                          (dev (glob (Sim.formatted Sim.marked)))) = BP_SUCCESS)
    by reflexivity.
  exact (@allocate_takes_head _ (Sim.sim_driver_of Sim.marked) 0
           BP_FLASH_INVALID_INDEX 0 [1; 3] (glob (Sim.formatted Sim.marked)) H1 H2).
Defined.

(** ** The table of stores on the simulated device *)

Lemma create_lowest_unused_witness :
  fst (bplib_store_flash_create Sim.sim_driver None true (Sim.ready Sim.no_faults))
  = inr 1
  <-> (0 <= 1 < FLASH_MAX_STORES
       /\ in_use (flash_stores (Sim.ready Sim.no_faults) 1) = false
       /\ (forall j, 0 <= j < 1 ->
                     in_use (flash_stores (Sim.ready Sim.no_faults) j) = true)).
Proof.
  assert (H : attr_ok Sim.sim_driver None) by exact I.
  exact (@create_lowest_unused _ Sim.sim_driver None (Sim.ready Sim.no_faults) 1 H).
Defined.

Lemma create_refuses_witness :
  fst (bplib_store_flash_create Sim.sim_driver (Some (mk_attr 10)) true
                                (Sim.ready Sim.no_faults))
  = inl BP_INVALID_HANDLE
  /\ glob (snd (bplib_store_flash_create Sim.sim_driver (Some (mk_attr 10)) true
                                         (Sim.ready Sim.no_faults)))
     = glob (Sim.ready Sim.no_faults)
  /\ (forall j,
        in_use (flash_stores
                  (snd (bplib_store_flash_create Sim.sim_driver (Some (mk_attr 10))
                                                 true (Sim.ready Sim.no_faults))) j)
        = in_use (flash_stores (Sim.ready Sim.no_faults) j)
        /\ object_count
             (flash_stores
                (snd (bplib_store_flash_create Sim.sim_driver (Some (mk_attr 10))
                                               true (Sim.ready Sim.no_faults))) j)
           = object_count (flash_stores (Sim.ready Sim.no_faults) j)).
Proof.
  apply (@create_refuses _ Sim.sim_driver (Some (mk_attr 10)) true
           (Sim.ready Sim.no_faults)).
  right. left. vm_compute. intros H. apply H. reflexivity.
Defined.

Lemma destroy_frees_handle_witness :
  fst (bplib_store_flash_destroy 1 Sim.two_stores) = BP_SUCCESS
  /\ glob (snd (bplib_store_flash_destroy 1 Sim.two_stores)) = glob Sim.two_stores
  /\ fst (bplib_store_flash_create Sim.sim_driver None true
            (snd (bplib_store_flash_destroy 1 Sim.two_stores))) = inr 1.
Proof.
  apply (@destroy_frees_handle _ Sim.sim_driver None Sim.two_stores 1).
  - exact I.
  - vm_compute. split; [discriminate|reflexivity].
  - intros j Hj. assert (E : j = 0) by lia. subst j. reflexivity.
Defined.

Lemma recover_mode_cannot_enqueue_witness :
  let s1 := snd (bplib_store_flash_init Sim.sim_driver BP_FLASH_INIT_RECOVER 0
                   (Some (fun _ => Sim.raw_block)) Sim.boot) in
  let r := bplib_store_flash_create Sim.sim_driver None true s1 in
  fst r = inr 0
  /\ count (flash_free_blocks (glob (snd r))) = 0
  /\ exists s3,
       bplib_store_flash_enqueue Sim.sim_driver 8 0 (Some (Sim.payload 20)) 20
                                 None 0 7 (snd r)
       = Some (BP_FAILEDSTORE, s3)
       /\ bplib_store_flash_getcount 0 s3 = 0
       /\ glob s3 = glob (snd r).
Proof.
  apply (@recover_mode_cannot_enqueue _ Sim.sim_driver 0 (fun _ => Sim.raw_block)
           None Sim.boot 8 (Some (Sim.payload 20)) None 20 0 7).
  - lia.
  - exact I.
Defined.

(** ** The read stage on the simulated device *)

Lemma dequeue_locked_refused_witness :
  BP_FAILEDSTORE <> BP_SUCCESS
  /\ @None (bp_object_t * list Z) = None
  /\ stage_locked
       (flash_stores
          (Sim.state_after (bplib_store_flash_dequeue Sim.sim_driver 64 0 Sim.first_held)
                           Sim.first_held) 0) = true
  /\ read_stage
       (flash_stores
          (Sim.state_after (bplib_store_flash_dequeue Sim.sim_driver 64 0 Sim.first_held)
                           Sim.first_held) 0)
     = read_stage (flash_stores Sim.first_held 0)
  /\ write_addr
       (flash_stores
          (Sim.state_after (bplib_store_flash_dequeue Sim.sim_driver 64 0 Sim.first_held)
                           Sim.first_held) 0)
     = write_addr (flash_stores Sim.first_held 0)
  /\ object_count
       (flash_stores
          (Sim.state_after (bplib_store_flash_dequeue Sim.sim_driver 64 0 Sim.first_held)
                           Sim.first_held) 0)
     = object_count (flash_stores Sim.first_held 0)
  /\ same_registry (glob Sim.first_held)
       (glob (Sim.state_after (bplib_store_flash_dequeue Sim.sim_driver 64 0 Sim.first_held)
                              Sim.first_held)).
Proof.
  apply (@dequeue_locked_refused _ Sim.sim_driver 64 0 Sim.first_held).
  - reflexivity.
  - vm_compute. reflexivity.
Defined.

Lemma dequeue_then_release_witness :
  exists o d,
    Sim.dequeued (bplib_store_flash_dequeue Sim.sim_driver 64 0 Sim.two_queued)
    = Some (o, d)
    /\ stage_locked (flash_stores Sim.two_queued 0) = false
    /\ stage_locked (flash_stores Sim.first_held 0) = true
    /\ fst (bplib_store_flash_release 0 (sid o) Sim.first_held) = BP_SUCCESS
    /\ let s2 := snd (bplib_store_flash_release 0 (sid o) Sim.first_held) in
       stage_locked (flash_stores s2 0) = false
       /\ read_addr (flash_stores s2 0) = read_addr (flash_stores Sim.first_held 0)
       /\ write_addr (flash_stores s2 0) = write_addr (flash_stores Sim.two_queued 0)
       /\ object_count (flash_stores s2 0) = object_count (flash_stores Sim.two_queued 0).
Proof.
  apply (@dequeue_then_release _ Sim.sim_driver 64 0 Sim.two_queued Sim.first_held).
  vm_compute. reflexivity.
Defined.

Lemma dequeue_locked_skips_header_witness :
  read_addr (flash_stores Sim.first_held 0) = mk_addr 0 2
  /\ write_addr (flash_stores Sim.first_held 0) = mk_addr 0 3
  /\ exists s',
       bplib_store_flash_dequeue Sim.sim_driver 64 0 Sim.first_held
       = Some (BP_FAILEDSTORE, None, s')
       /\ read_addr (flash_stores s' 0)
          = chain_next (flash_blocks (glob Sim.first_held))
                       (read_addr (flash_stores Sim.first_held 0))
       /\ stage_locked (flash_stores s' 0) = true.
Proof.
  split; [reflexivity|]. split; [reflexivity|].
  apply (@dequeue_locked_skips_header _ Sim.sim_driver Sim.sim_mem 63 0 Sim.first_held
           (mk_addr 0 3)
           (firstn 32 (Sim.sim_mem (dev (glob Sim.first_held)) 0 2))
           (set_dev (glob Sim.first_held)
                    (Sim.mk_sim (Sim.sim_mem (dev (glob Sim.first_held)))
                                (Sim.sim_reads (dev (glob Sim.first_held)) + 1)))).
  - apply sim_read_law.
  - vm_compute. discriminate.
  - reflexivity.
  - vm_compute. discriminate.
  - vm_compute. discriminate.
  - vm_compute. repeat split; try discriminate.
  - vm_compute. reflexivity.
  - vm_compute. reflexivity.
Defined.

Lemma retrieve_keeps_queue_witness :
  let s' := Sim.state_after (bplib_store_flash_retrieve Sim.sim_driver 64 0 3 Sim.two_queued)
                            Sim.two_queued in
  read_addr (flash_stores s' 0) = read_addr (flash_stores Sim.two_queued 0)
  /\ write_addr (flash_stores s' 0) = write_addr (flash_stores Sim.two_queued 0)
  /\ object_count (flash_stores s' 0) = object_count (flash_stores Sim.two_queued 0)
  /\ (forall h, h <> 0 -> flash_stores s' h = flash_stores Sim.two_queued h)
  /\ same_registry (glob Sim.two_queued) (glob s')
  /\ (BP_SUCCESS = BP_SUCCESS -> stage_locked (flash_stores s' 0) = true)
  /\ (BP_SUCCESS <> BP_SUCCESS ->
      Sim.dequeued (bplib_store_flash_retrieve Sim.sim_driver 64 0 3 Sim.two_queued)
      = None).
Proof.
  apply (@retrieve_keeps_queue _ Sim.sim_driver 64 0 3 Sim.two_queued).
  vm_compute. reflexivity.
Defined.

Lemma enqueue_retrieve_round_trip_witness :
  exists s1 s2 obj,
    bplib_store_flash_enqueue Sim.sim_driver 64 0
      (Some (Sim.payload 30)) (Z.of_nat (length (Sim.payload 30)))
      (Some (Sim.payload 20)) (Z.of_nat (length (Sim.payload 20))) 9 Sim.two_queued
    = Some (BP_SUCCESS, s1)
    /\ bplib_store_flash_getcount 0 s1 = 3
    /\ bplib_store_flash_retrieve Sim.sim_driver 64 0 4 s1 = Some (BP_SUCCESS, obj, s2)
    /\ obj = Some (mk_object 0 50 4, Sim.payload 30 ++ Sim.payload 20).
Proof.
  pose (s1 := Sim.state_after
                (bplib_store_flash_enqueue Sim.sim_driver 64 0
                   (Some (Sim.payload 30)) (Z.of_nat (length (Sim.payload 30)))
                   (Some (Sim.payload 20)) (Z.of_nat (length (Sim.payload 20)))
                   9 Sim.two_queued)
                Sim.two_queued).
  pose (r := bplib_store_flash_retrieve Sim.sim_driver 64 0 4 s1).
  assert (He : bplib_store_flash_enqueue Sim.sim_driver 64 0
                 (Some (Sim.payload 30)) (Z.of_nat (length (Sim.payload 30)))
                 (Some (Sim.payload 20)) (Z.of_nat (length (Sim.payload 20)))
                 9 Sim.two_queued
               = Some (BP_SUCCESS, s1)) by (vm_compute; reflexivity).
  assert (Hr : bplib_store_flash_retrieve Sim.sim_driver 64 0
                 (to_ulong (FLASH_GET_SID Sim.sim_driver
                              (write_addr (flash_stores Sim.two_queued 0)))) s1
               = Some (BP_SUCCESS, Sim.dequeued r, Sim.state_after r s1))
    by (vm_compute; reflexivity).
  exists s1, (Sim.state_after r s1), (Sim.dequeued r).
  split; [exact He|]. split; [vm_compute; reflexivity|].
  split; [vm_compute; reflexivity|].
  etransitivity.
  - apply (@enqueue_retrieve_round_trip _ Sim.sim_driver Sim.sim_mem 64 64 0
             (Sim.payload 30) (Sim.payload 20) 9 Sim.two_queued s1
             (Sim.state_after r s1) [1; 2; 3] (Sim.dequeued r)).
    + apply sim_read_law.
    + apply sim_write_law.
    + apply sim_erase_law.
    + intros a bytes d. reflexivity.
    + crunch.
    + crunch.
    + crunch.
    + crunch.
    + crunch.
    + vm_compute. discriminate.
    + vm_compute. discriminate.
    + vm_compute. discriminate.
    + vm_compute. discriminate.
    + intros b [<-|[<-|[<-|[]]]]; vm_compute; reflexivity.
    + constructor.
      * crunch.
      * repeat (constructor; [cbn [In]; intuition discriminate|]). constructor.
      * vm_compute. intuition discriminate.
      * intros t Ht. vm_compute in Ht. discriminate Ht.
      * intros b [<-|[<-|[<-|[]]]]; crunch.
    + exact He.
    + exact Hr.
  - vm_compute. reflexivity.
Defined.

(** ** Data on the simulated device *)


Lemma data_read_returns_witness :
  exists st a' buf' g',
    flash_data_read Sim.sim_driver 2 (mk_addr 0 0) (repeat 0 100) 0 100
                    (glob (Sim.formatted Sim.no_faults))
    = Some (st, a', buf', g')
    /\ 0 <= block a' < num_blocks Sim.sim_driver
    /\ same_registry (glob (Sim.formatted Sim.no_faults)) g'
    /\ flash_error_count (glob (Sim.formatted Sim.no_faults))
       <= flash_error_count g'
       <= flash_error_count (glob (Sim.formatted Sim.no_faults)) + 1
    /\ (st = BP_SUCCESS ->
        flash_error_count g' = flash_error_count (glob (Sim.formatted Sim.no_faults))).
Proof.
  apply (@data_read_returns _ Sim.sim_driver 2 (mk_addr 0 0) (repeat 0 100) 0 100
           (glob (Sim.formatted Sim.no_faults))).
  - reflexivity.
  - vm_compute. split; [discriminate|reflexivity].
  - intros b Hb. change (num_blocks Sim.sim_driver) with 4 in Hb |- *.
    assert (Hcases : b = 0 \/ b = 1 \/ b = 2 \/ b = 3) by lia.
    destruct Hcases as [-> | [-> | [-> | ->]]]; vm_compute;
      intros H; try (split; [discriminate|reflexivity]); exfalso; apply H; reflexivity.
  - vm_compute. lia.
Defined.

Lemma data_write_first_page_failure_loops_witness :
  flash_data_write_loop (Sim.sim_driver_of Sim.dead) 200 (mk_addr 0 0) (Sim.payload 50)
                        0 50 (Sim.first_allocated Sim.dead)
  = None.
Proof.
  apply (@data_write_first_page_failure_loops _ (Sim.sim_driver_of Sim.dead) 200).
  - intros b bytes d. cbn. discriminate.
  - intros b d. reflexivity.
  - intros b d. reflexivity.
  - reflexivity.
  - discriminate.
  - reflexivity.
Defined.

(** ** Giving objects up on the simulated device *)

Lemma relinquish_checks_sid_witness :
  exists st' s',
    bplib_store_flash_relinquish Sim.sim_driver 64 0 2 Sim.one_enqueued = Some (st', s')
    /\ st' <> BP_SUCCESS
    /\ object_count (flash_stores s' 0) = object_count (flash_stores Sim.one_enqueued 0)
    /\ same_registry (glob Sim.one_enqueued) (glob s').
Proof.
  apply (@relinquish_checks_sid _ Sim.sim_driver 64 0 2 Sim.one_enqueued BP_SUCCESS
           (mk_addr 0 2)
           (firstn 32 (Sim.sim_mem (dev (glob Sim.one_enqueued)) 0 1))
           (set_dev (glob Sim.one_enqueued)
                    (Sim.mk_sim (Sim.sim_mem (dev (glob Sim.one_enqueued)))
                                (Sim.sim_reads (dev (glob Sim.one_enqueued)) + 1)))).
  - vm_compute. split; [discriminate|reflexivity].
  - vm_compute. discriminate.
  - vm_compute. reflexivity.
  - right. vm_compute. discriminate.
Defined.


(** ** The order of the queue on the simulated device *)

Lemma queue_is_fifo_witness :
  Sim.dequeued (bplib_store_flash_dequeue Sim.sim_driver 64 0 Sim.second_in)
  = Some (mk_object 0 (Z.of_nat (length (Sim.payload 30))
                       + Z.of_nat (length (Sim.payload 20)))
                    (to_ulong (FLASH_GET_SID Sim.sim_driver
                                 (write_addr (flash_stores Sim.drained 0)))),
          Sim.payload 30 ++ Sim.payload 20)
  /\ Sim.dequeued (bplib_store_flash_dequeue Sim.sim_driver 64 0 Sim.first_released)
     = Some (mk_object 0 (Z.of_nat (length (Sim.payload 10))
                          + Z.of_nat (length (Sim.payload 5)))
                       (to_ulong (FLASH_GET_SID Sim.sim_driver
                                    (write_addr (flash_stores Sim.first_in 0)))),
             Sim.payload 10 ++ Sim.payload 5).
Proof.
  apply (@queue_is_fifo _ Sim.sim_driver Sim.sim_mem 64 64 64 64 0
           (Sim.payload 30) (Sim.payload 20) (Sim.payload 10) (Sim.payload 5) 9 10
           Sim.drained Sim.first_in Sim.second_in Sim.first_out
           (Sim.state_after (bplib_store_flash_dequeue Sim.sim_driver 64 0 Sim.first_released)
                            Sim.first_released)
           [1; 2; 3]).
  - apply sim_read_law.
  - apply sim_write_law.
  - apply sim_erase_law.
  - intros a bytes d. reflexivity.
  - crunch.
  - crunch.
  - crunch.
  - crunch.
  - crunch.
  - vm_compute. reflexivity.
  - vm_compute. discriminate.
  - vm_compute. discriminate.
  - intros b [->|[<-|[<-|[<-|[]]]]]; vm_compute; reflexivity.
  - constructor.
    + crunch.
    + repeat (constructor; [cbn [In]; intuition discriminate|]). constructor.
    + vm_compute. intuition discriminate.
    + intros t Ht. vm_compute in Ht. discriminate Ht.
    + intros b [<-|[<-|[<-|[]]]]; crunch.
  - vm_compute. reflexivity.
  - vm_compute. reflexivity.
  - vm_compute. reflexivity.
  - vm_compute. reflexivity.
Defined.


Lemma enqueue_lock_balance_witness :
  bplib_store_flash_enqueue Sim.sim_driver 8 0 (Some (Sim.payload 20)) 20 None 0 7
                            Sim.recovered
  = Some (BP_FAILEDSTORE,
          Sim.state_after
            (bplib_store_flash_enqueue Sim.sim_driver 8 0 (Some (Sim.payload 20)) 20
                                       None 0 7 Sim.recovered) Sim.recovered)
  /\ ([Lock] = [Lock; Unlock]
      \/ ([Lock] = [Lock] /\ BP_FAILEDSTORE = BP_FAILEDSTORE
          /\ block (write_addr (flash_stores Sim.recovered 0)) = BP_FLASH_INVALID_INDEX
          /\ block (write_addr
                      (flash_stores
                         (Sim.state_after
                            (bplib_store_flash_enqueue Sim.sim_driver 8 0
                               (Some (Sim.payload 20)) 20 None 0 7 Sim.recovered)
                            Sim.recovered) 0))
             = BP_FLASH_INVALID_INDEX
          /\ object_count
               (flash_stores
                  (Sim.state_after
                     (bplib_store_flash_enqueue Sim.sim_driver 8 0
                        (Some (Sim.payload 20)) 20 None 0 7 Sim.recovered)
                     Sim.recovered) 0)
             = object_count (flash_stores Sim.recovered 0)))
  /\ (block (write_addr (flash_stores Sim.recovered 0)) = BP_FLASH_INVALID_INDEX ->
      out (flash_free_blocks (glob Sim.recovered)) = BP_FLASH_INVALID_INDEX ->
      [Lock] = [Lock]).
Proof.
  apply (@enqueue_lock_balance _ Sim.sim_driver 8 0 (Some (Sim.payload 20)) None
           20 0 7 Sim.recovered).
  vm_compute. reflexivity.
Defined.

Lemma fresh_device_round_trip_witness :
  exists s3 s4 obj,
    bplib_store_flash_enqueue Sim.sim_driver 64 0
      (Some (Sim.payload 30)) (Z.of_nat (length (Sim.payload 30)))
      (Some (Sim.payload 20)) (Z.of_nat (length (Sim.payload 20))) 9
      (Sim.ready Sim.no_faults)
    = Some (BP_SUCCESS, s3)
    /\ bplib_store_flash_dequeue Sim.sim_driver 64 0 s3 = Some (BP_SUCCESS, obj, s4)
    /\ obj = Some (mk_object 0 50 1, Sim.payload 30 ++ Sim.payload 20).
Proof.
  pose (s3 := Sim.state_after
                (bplib_store_flash_enqueue Sim.sim_driver 64 0
                   (Some (Sim.payload 30)) (Z.of_nat (length (Sim.payload 30)))
                   (Some (Sim.payload 20)) (Z.of_nat (length (Sim.payload 20)))
                   9 (Sim.ready Sim.no_faults))
                (Sim.ready Sim.no_faults)).
  pose (r := bplib_store_flash_dequeue Sim.sim_driver 64 0 s3).
  assert (He : bplib_store_flash_enqueue Sim.sim_driver 64 0
                 (Some (Sim.payload 30)) (Z.of_nat (length (Sim.payload 30)))
                 (Some (Sim.payload 20)) (Z.of_nat (length (Sim.payload 20)))
                 9 (Sim.ready Sim.no_faults)
               = Some (BP_SUCCESS, s3)) by (vm_compute; reflexivity).
  assert (Hd : bplib_store_flash_dequeue Sim.sim_driver 64 0 s3
               = Some (BP_SUCCESS, Sim.dequeued r, Sim.state_after r s3))
    by (vm_compute; reflexivity).
  exists s3, (Sim.state_after r s3), (Sim.dequeued r).
  split; [exact He|]. split; [exact Hd|].
  etransitivity.
  - apply (@fresh_device_round_trip _ Sim.sim_driver Sim.sim_mem 0
             (fun _ => Sim.raw_block) None Sim.boot s3 (Sim.state_after r s3)
             64 64 (Sim.payload 30) (Sim.payload 20) 9 (Sim.dequeued r)).
    + apply sim_read_law.
    + apply sim_write_law.
    + apply sim_erase_law.
    + intros a bytes d. reflexivity.
    + crunch.
    + crunch.
    + crunch.
    + lia.
    + exact I.
    + crunch.
    + exact He.
    + exact Hd.
  - vm_compute. reflexivity.
Defined.
